(** * The TIZO rate cache and the custom top-up converter

    A model of the two pieces of the kiosk server that carry its business
    logic: [loadUpsellOffersCache], which fills the module-level variable
    [upsellOffersCache] from the [upsell_offers] table, and
    [calculateCustomTizo], which turns a top-up amount (in Rb) into a TIZO
    credit with the 600-Rb base tier, a greedy pass over the cached offers
    and a 1:1 residue.

    Amounts and table columns are the integers the server handles, as [Z].
    The arithmetic of the converter is given twice. The first reading
    computes on integers exactly. The second, in the module [Number], rounds
    the result of every operation to the nearest IEEE 754 double, as
    JavaScript's numbers do. The two readings agree for amounts up to 2^51
    on a cache whose offers take positive amounts and award at most 2^40 in
    size ([calculateCustomTizo_exact]); above 2^53 they part.

    JavaScript arrays are objects: the model keeps them in a heap and passes
    references, so that the in-place [sort] of the converter acts on the
    array it is given and on no other. *)

From Stdlib Require Import ZArith List Lia Ascii String Sorted Permutation.
From stdpp Require Import base list.
Import ListNotations.

Open Scope Z_scope.

(** ** Data *)

(** A row of [upsell_offers], as far as the converter reads it. *)
Record offer : Type := {
  topup_rb : Z;
  tizo_value : Z
}.

(** What the loader writes on the console. *)
Inductive log_line : Type :=
| log_loaded (count : nat)
| log_failed (message : string).

(** The state of the server process: the arrays that exist (an array is
    referred to by its index in [heap]), the module-level variable
    [upsellOffersCache] ([None] is JavaScript's [null]) and the console. *)
Record state : Type := {
  heap : list (list offer);
  upsellOffersCache : option nat;
  console : list log_line
}.

(** The process starts with [let upsellOffersCache = null]. *)
Definition initial_state : state :=
  {| heap := []; upsellOffersCache := None; console := [] |}.

(** The array the cache variable refers to, if any. *)
Definition snapshot (st : state) : option (list offer) :=
  match upsellOffersCache st with
  | Some ref => heap st !! ref
  | None => None
  end.

(** ** Computations *)

(** A call returns a value, throws, or runs for ever (the fuel of a loop
    ran out). *)
Inductive outcome (A : Type) : Type :=
| Returned (a : A) (st : state)
| Thrown (message : string) (st : state)
| Diverged.
Arguments Returned {A} a st.
Arguments Thrown {A} message st.
Arguments Diverged {A}.

Definition prog (A : Type) : Type := state -> outcome A.

Definition ret {A} (a : A) : prog A := fun st => Returned a st.

Definition bind {A B} (m : prog A) (k : A -> prog B) : prog B :=
  fun st =>
    match m st with
    | Returned a st' => k a st'
    | Thrown message st' => Thrown message st'
    | Diverged => Diverged
    end.

Definition throw {A} (message : string) : prog A :=
  fun st => Thrown message st.

(** [try { body } catch (err) { handler(err.message) }]: the handler runs in
    the state the body left behind. *)
Definition try_catch {A} (body : prog A) (handler : string -> prog A) : prog A :=
  fun st =>
    match body st with
    | Thrown message st' => handler message st'
    | other => other
    end.

(** A loop over local variables only: it ends with a value or never ends. *)
Definition run_loop {A} (r : option A) : prog A :=
  fun st =>
    match r with
    | Some a => Returned a st
    | None => Diverged
    end.

Declare Scope prog_scope.
Delimit Scope prog_scope with prog.
Notation "x <- m ;; k" := (bind m (fun x => k))
  (at level 100, m at next level, right associativity) : prog_scope.
Notation "m ;;; k" := (bind m (fun _ => k))
  (at level 100, right associativity) : prog_scope.
Open Scope prog_scope.

(** *** The module-level variable and the console *)

Definition read_upsellOffersCache : prog (option nat) :=
  fun st => Returned (upsellOffersCache st) st.

Definition assign_upsellOffersCache (ref : option nat) : prog unit :=
  fun st =>
    Returned tt {| heap := heap st;
                   upsellOffersCache := ref;
                   console := console st |}.

Definition console_write (line : log_line) : prog unit :=
  fun st =>
    Returned tt {| heap := heap st;
                   upsellOffersCache := upsellOffersCache st;
                   console := console st ++ [line] |}.

(** *** Arrays *)

(** A new array gets the next free reference. *)
Definition array_new (elements : list offer) : prog nat :=
  fun st =>
    Returned (length (heap st))
             {| heap := heap st ++ [elements];
                upsellOffersCache := upsellOffersCache st;
                console := console st |}.

(** Reading through a reference that is no array is a [TypeError]. *)
Definition array_read (ref : nat) : prog (list offer) :=
  fun st =>
    match heap st !! ref with
    | Some elements => Returned elements st
    | None => Thrown "TypeError" st
    end.

Definition array_write (ref : nat) (elements : list offer) : prog unit :=
  fun st =>
    Returned tt {| heap := <[ref := elements]> (heap st);
                   upsellOffersCache := upsellOffersCache st;
                   console := console st |}.

(** [arr.filter(p)] builds a new array and leaves [arr] as it is. *)
Definition array_filter (p : offer -> bool) (ref : nat) : prog nat :=
  elements <- array_read ref ;;
  array_new (List.filter p elements).

(** [Array.prototype.sort] is stable: [sort_insert] puts [x], which stood
    before every element of [sorted], in front of the first element it does
    not have to follow ([cmp x y > 0] says that [x] goes after [y]). *)
Fixpoint sort_insert (cmp : offer -> offer -> Z) (x : offer)
    (sorted : list offer) : list offer :=
  match sorted with
  | [] => [x]
  | y :: rest =>
      if 0 <? cmp x y then y :: sort_insert cmp x rest else x :: y :: rest
  end.

Definition sorted_by (cmp : offer -> offer -> Z) (elements : list offer)
    : list offer :=
  foldr (sort_insert cmp) [] elements.

(** [arr.sort(cmp)] sorts [arr] in place and returns the same reference. *)
Definition array_sort (cmp : offer -> offer -> Z) (ref : nat) : prog nat :=
  elements <- array_read ref ;;
  array_write ref (sorted_by cmp elements) ;;;
  ret ref.

(** ** loadUpsellOffersCache *)

(** The answer of [pool.query]: the promise resolves with the rows or is
    rejected with an error. *)
Inductive query_outcome : Type :=
| resolves (rows : list offer)
| rejects (message : string).

(** [await pool.query(...)] followed by [result.rows]: the driver hands over
    a new array, or the [await] throws. *)
Definition pool_query (answer : query_outcome) : prog nat :=
  match answer with
  | resolves rows => array_new rows
  | rejects message => throw message
  end.

(** What the database answers to
    [SELECT * FROM upsell_offers ORDER BY topup_rb]: the rows of the table,
    by ascending [topup_rb]; the order among equal keys is the database's. *)
Definition select_order_by_topup_rb (table rows : list offer) : Prop :=
  Permutation table rows /\
  StronglySorted (fun a b => topup_rb a <= topup_rb b) rows.

Definition loadUpsellOffersCache (answer : query_outcome) : prog unit :=
  try_catch
    (rows <- pool_query answer ;;
     assign_upsellOffersCache (Some rows) ;;;
     cached <- read_upsellOffersCache ;;
     match cached with
     | Some ref =>
         elements <- array_read ref ;;
         console_write (log_loaded (length elements))
     | None => throw "TypeError"
     end)
    (fun message => console_write (log_failed message)).

(** ** calculateCustomTizo *)

(** The two local variables of the converter. *)
Record locals : Type := {
  totalTizo : Z;
  remaining : Z
}.

(** Step 1: [Math.floor(remaining / 600)] times the 600-Rb base. On
    integers [Math.floor(x / 600)] is [Z.div], which rounds down, and [%] is
    [Z.rem], which takes the sign of the dividend. Here and in the other
    steps the integers are computed exactly; [Number.base_step] and its
    companions round as the doubles of JavaScript do. *)
Definition base_step (amountRb : Z) : locals :=
  let base600Count := amountRb / 600 in
  if 0 <? base600Count
  then {| totalTizo := 0 + base600Count * 1200;
          remaining := Z.rem amountRb 600 |}
  else {| totalTizo := 0; remaining := amountRb |}.

(** The test and the body of [while (remaining >= offer.topup_rb)]. *)
Definition while_test (o : offer) (s : locals) : bool :=
  topup_rb o <=? remaining s.

Definition while_body (o : offer) (s : locals) : locals :=
  {| totalTizo := totalTizo s + tizo_value o;
     remaining := remaining s - topup_rb o |}.

(** The inner loop, for at most [fuel] iterations. *)
Fixpoint while_loop (fuel : nat) (o : offer) (s : locals) : option locals :=
  if while_test o s
  then match fuel with
       | O => None
       | S fuel' => while_loop fuel' o (while_body o s)
       end
  else Some s.

(** [for (const offer of validOffers)]. *)
Fixpoint for_of (fuel : nat) (validOffers : list offer) (s : locals)
    : option locals :=
  match validOffers with
  | [] => Some s
  | o :: rest =>
      match while_loop fuel o s with
      | Some s' => for_of fuel rest s'
      | None => None
      end
  end.

(** Step 3: what is left counts 1:1. *)
Definition residual_step (s : locals) : Z :=
  if 0 <? remaining s then totalTizo s + remaining s else totalTizo s.

(** The comparator of the converter, [(a, b) => b.topup_rb - a.topup_rb]. *)
Definition by_topup_rb_desc (a b : offer) : Z := topup_rb b - topup_rb a.

(** The converter. The guard of step 2,
    [remaining > 0 && upsellOffersCache && upsellOffersCache.length > 0],
    is evaluated from left to right; [fuel] bounds the iterations of each
    run of the inner loop. *)
Definition calculateCustomTizo (fuel : nat) (amountRb : Z) : prog Z :=
  let s := base_step amountRb in
  s <- (if 0 <? remaining s
        then
          cached <- read_upsellOffersCache ;;
          match cached with
          | Some ref =>
              elements <- array_read ref ;;
              if (0 <? length elements)%nat
              then
                filtered <- array_filter (fun o => topup_rb o <? 600) ref ;;
                validOffers <-
                  array_sort by_topup_rb_desc filtered ;;
                offers <- array_read validOffers ;;
                run_loop (for_of fuel offers s)
              else ret s
          | None => ret s
          end
        else ret s) ;;
  ret (residual_step s).

(** The value a call returned, if it returned. *)
Definition returned_value {A} (r : outcome A) : option A :=
  match r with
  | Returned a _ => Some a
  | _ => None
  end.

(** A process whose cache variable refers to an array with [rows]. *)
Definition state_with_cache (rows : list offer) : state :=
  {| heap := [rows]; upsellOffersCache := Some 0%nat; console := [] |}.

Definition offer_550 : offer := {| topup_rb := 550; tizo_value := 1020 |}.
Definition offer_40 : offer := {| topup_rb := 40; tizo_value := 40 |}.

(** The order the comparator yields: largest [topup_rb] first. *)
Definition descending (a b : offer) : Prop := topup_rb b <= topup_rb a.

(** The offers the greedy pass goes through, as a value:
    [cache.filter(o => o.topup_rb < 600).sort(...)]. *)
Definition validOffers_of (elements : list offer) : list offer :=
  sorted_by by_topup_rb_desc (List.filter (fun o => topup_rb o <? 600) elements).

(** The cache variable is [null] or refers to an array that exists. *)
Definition wf_state (st : state) : Prop :=
  forall ref, upsellOffersCache st = Some ref -> is_Some (heap st !! ref).

(** The state a call with a greedy pass leaves behind: the array made by
    [filter] and sorted in place is the only change. *)
Definition after_greedy_pass (st : state) (elements : list offer) : state :=
  {| heap := heap st ++ [validOffers_of elements];
     upsellOffersCache := upsellOffersCache st;
     console := console st |}.

(** ** Properties of a cache *)

(** The cache is empty at call time: never loaded, or loaded with no row. *)
Definition cache_empty (st : state) : Prop :=
  upsellOffersCache st = None \/ snapshot st = Some [].

(** Bonus-only offers: each awards at least what it takes. *)
Definition bonus_only (elements : list offer) : Prop :=
  Forall (fun o => topup_rb o <= tizo_value o) elements.

(** Every offer takes a positive amount. *)
Definition positive_units (elements : list offer) : Prop :=
  Forall (fun o => 0 < topup_rb o) elements.

(** The cache without the offers at or above the 600-Rb base. *)
Definition below_base_only (elements : list offer) : list offer :=
  List.filter (fun o => negb (600 <=? topup_rb o)) elements.

(** In the documented example, an offer other than 550 and 40 that is never
    applied to 1790: it exceeds what remains when its turn comes (590 before
    the 550 offer, 40 after it, nothing after the 40 offer). *)
Definition fits_nowhere (o : offer) : Prop :=
  590 < topup_rb o \/
  (40 < topup_rb o /\ topup_rb o < 550) \/
  (0 < topup_rb o /\ topup_rb o < 40).

(** The offers of the documented example: the two it names, and others
    that fit nowhere. *)
Definition example_offer (o : offer) : Prop :=
  o = offer_550 \/ o = offer_40 \/ fits_nowhere o.

(** The state a rejected query leaves behind: one more line on the
    console. *)
Definition after_failed_load (st : state) (message : string) : state :=
  {| heap := heap st;
     upsellOffersCache := upsellOffersCache st;
     console := console st ++ [log_failed message] |}.

(** The state a resolved query leaves behind: the array of the rows is new,
    the cache variable refers to it, the console reports the count. *)
Definition after_load (st : state) (rows : list offer) : state :=
  {| heap := heap st ++ [rows];
     upsellOffersCache := Some (length (heap st));
     console := console st ++ [log_loaded (length rows)] |}.

(** ** Read-outs for the statements about the converter *)

(** [d] more credit in the running total. *)
Definition add_credit (d : Z) (s : locals) : locals :=
  {| totalTizo := totalTizo s + d; remaining := remaining s |}.

(** What [ks] applications (one count per offer) take, and what they
    award. *)
Fixpoint units_taken (ks : list Z) (offers : list offer) : Z :=
  match ks, offers with
  | k :: ks', o :: offers' => k * topup_rb o + units_taken ks' offers'
  | _, _ => 0
  end.

Fixpoint credit_given (ks : list Z) (offers : list offer) : Z :=
  match ks, offers with
  | k :: ks', o :: offers' => k * tizo_value o + credit_given ks' offers'
  | _, _ => 0
  end.

(** The states the server gets into: it starts, loads (the query resolves
    or is rejected) and converts. *)
Inductive reachable : state -> Prop :=
| reachable_start : reachable initial_state
| reachable_load (answer : query_outcome) (st st' : state) :
    reachable st ->
    loadUpsellOffersCache answer st = Returned tt st' ->
    reachable st'
| reachable_convert (fuel : nat) (amountRb v : Z) (st st' : state) :
    reachable st ->
    calculateCustomTizo fuel amountRb st = Returned v st' ->
    reachable st'.

(** ** The custom top-up upsell endpoint *)

(** A row of [custom_topup_upsell]. *)
Record custom_topup_upsell_row : Type := {
  upsell_box_1 : Z;
  upsell_box_2 : Z;
  range_min : Z;
  range_max : Z
}.

(** One suggested amount of the answer, with its credit. *)
Record upsell_box : Type := {
  rb : Z;
  tizo : Z
}.

(** The object the endpoint sends as JSON. [range] is there when a row of
    the table was found, [isFallback] and [message] when none was. *)
Record custom_topup_upsell_json : Type := {
  success : bool;
  customAmount : Z;
  customTizo : Z;
  upsellBox1 : upsell_box;
  upsellBox2 : upsell_box;
  range : option (Z * Z);
  isFallback : option bool;
  message : option string
}.

Record response : Type := {
  status : nat;
  body : custom_topup_upsell_json
}.

(** [Math.ceil(amountRb / 50) * 50]; [Math.ceil(x / 50)] on an integer is
    minus the quotient, rounded down, of the opposite. *)
Definition ceil_to_50 (amountRb : Z) : Z := - (- amountRb / 50) * 50.

(** The callback of the query on [custom_topup_upsell], with the rows it got:
    with a row, the two boxes of the row; with none, the next two multiples
    of 50. The credits are computed in the order the code calls
    [calculateCustomTizo]. *)
Definition custom_topup_upsell_then (fuel : nat) (amountRb : Z)
    (rows : list custom_topup_upsell_row) : prog response :=
  match rows with
  | row :: _ =>
      tizo1 <- calculateCustomTizo fuel (upsell_box_1 row) ;;
      tizo2 <- calculateCustomTizo fuel (upsell_box_2 row) ;;
      custom <- calculateCustomTizo fuel amountRb ;;
      ret {| status := 200;
             body := {| success := true;
                        customAmount := amountRb;
                        customTizo := custom;
                        upsellBox1 := {| rb := upsell_box_1 row; tizo := tizo1 |};
                        upsellBox2 := {| rb := upsell_box_2 row; tizo := tizo2 |};
                        range := Some (range_min row, range_max row);
                        isFallback := None;
                        message := None |} |}
  | [] =>
      custom <- calculateCustomTizo fuel amountRb ;;
      tizo1 <- calculateCustomTizo fuel (ceil_to_50 amountRb) ;;
      tizo2 <- calculateCustomTizo fuel (ceil_to_50 amountRb + 50) ;;
      ret {| status := 200;
             body := {| success := true;
                        customAmount := amountRb;
                        customTizo := custom;
                        upsellBox1 := {| rb := ceil_to_50 amountRb; tizo := tizo1 |};
                        upsellBox2 := {| rb := ceil_to_50 amountRb + 50;
                                         tizo := tizo2 |};
                        range := None;
                        isFallback := Some true;
                        message := Some "Using calculated fallback values"%string |} |}
  end.

(** The offers of the cache, if it has any, take positive amounts. *)
Definition cache_positive (st : state) : Prop :=
  forall elements, snapshot st = Some elements -> positive_units elements.

(** The offers of the cache, if it has any, are bonus-only. *)
Definition cache_bonus_only (st : state) : Prop :=
  forall elements, snapshot st = Some elements -> bonus_only elements.

(** ** The session manager of the kiosk pages *)

Module SessionManager.

(** [SESSION_TIMEOUT_MS = 30 * 60 * 1000]: 30 minutes. *)
Definition SESSION_TIMEOUT_MS : Z := 30 * 60 * 1000.

(** A session object, with the properties the session manager itself reads
    or writes, each of the type [DEFAULT_SESSION] and the manager give it
    ([None] is [null]). The selections of the user that the manager only
    carries along (card, offer, scratch card, gift) are left out. *)
Record session : Type := {
  sessionId : option string;
  createdAt : option Z;
  lastActivity : option Z;
  currentPage : string;
  language : string;
  offerCost : Z;
  offerTizo : Z;
  bonusAccepted : option bool;
  bonusCost : Z;
  bonusTizo : Z;
  totalCost : Z;
  totalTizo : Z;
  orderNumber : option string;
  transactionComplete : bool
}.

Definition DEFAULT_SESSION : session :=
  {| sessionId := None;
     createdAt := None;
     lastActivity := None;
     currentPage := "welcome";
     language := "id";
     offerCost := 0;
     offerTizo := 0;
     bonusAccepted := None;
     bonusCost := 0;
     bonusTizo := 0;
     totalCost := 0;
     totalTizo := 0;
     orderNumber := None;
     transactionComplete := false |}.

(** An [updates] object is the list of its properties, in the order they
    are written. *)
Inductive assignment : Type :=
| set_sessionId (v : option string)
| set_createdAt (v : option Z)
| set_lastActivity (v : option Z)
| set_currentPage (v : string)
| set_language (v : string)
| set_offerCost (v : Z)
| set_offerTizo (v : Z)
| set_bonusAccepted (v : option bool)
| set_bonusCost (v : Z)
| set_bonusTizo (v : Z)
| set_totalCost (v : Z)
| set_totalTizo (v : Z)
| set_orderNumber (v : option string)
| set_transactionComplete (v : bool).

(** [session.key = v]. *)
Definition assign (s : session) (u : assignment) : session :=
  match u with
  | set_sessionId v =>
      {| sessionId := v;
         createdAt := createdAt s;
         lastActivity := lastActivity s;
         currentPage := currentPage s;
         language := language s;
         offerCost := offerCost s;
         offerTizo := offerTizo s;
         bonusAccepted := bonusAccepted s;
         bonusCost := bonusCost s;
         bonusTizo := bonusTizo s;
         totalCost := totalCost s;
         totalTizo := totalTizo s;
         orderNumber := orderNumber s;
         transactionComplete := transactionComplete s |}
  | set_createdAt v =>
      {| sessionId := sessionId s;
         createdAt := v;
         lastActivity := lastActivity s;
         currentPage := currentPage s;
         language := language s;
         offerCost := offerCost s;
         offerTizo := offerTizo s;
         bonusAccepted := bonusAccepted s;
         bonusCost := bonusCost s;
         bonusTizo := bonusTizo s;
         totalCost := totalCost s;
         totalTizo := totalTizo s;
         orderNumber := orderNumber s;
         transactionComplete := transactionComplete s |}
  | set_lastActivity v =>
      {| sessionId := sessionId s;
         createdAt := createdAt s;
         lastActivity := v;
         currentPage := currentPage s;
         language := language s;
         offerCost := offerCost s;
         offerTizo := offerTizo s;
         bonusAccepted := bonusAccepted s;
         bonusCost := bonusCost s;
         bonusTizo := bonusTizo s;
         totalCost := totalCost s;
         totalTizo := totalTizo s;
         orderNumber := orderNumber s;
         transactionComplete := transactionComplete s |}
  | set_currentPage v =>
      {| sessionId := sessionId s;
         createdAt := createdAt s;
         lastActivity := lastActivity s;
         currentPage := v;
         language := language s;
         offerCost := offerCost s;
         offerTizo := offerTizo s;
         bonusAccepted := bonusAccepted s;
         bonusCost := bonusCost s;
         bonusTizo := bonusTizo s;
         totalCost := totalCost s;
         totalTizo := totalTizo s;
         orderNumber := orderNumber s;
         transactionComplete := transactionComplete s |}
  | set_language v =>
      {| sessionId := sessionId s;
         createdAt := createdAt s;
         lastActivity := lastActivity s;
         currentPage := currentPage s;
         language := v;
         offerCost := offerCost s;
         offerTizo := offerTizo s;
         bonusAccepted := bonusAccepted s;
         bonusCost := bonusCost s;
         bonusTizo := bonusTizo s;
         totalCost := totalCost s;
         totalTizo := totalTizo s;
         orderNumber := orderNumber s;
         transactionComplete := transactionComplete s |}
  | set_offerCost v =>
      {| sessionId := sessionId s;
         createdAt := createdAt s;
         lastActivity := lastActivity s;
         currentPage := currentPage s;
         language := language s;
         offerCost := v;
         offerTizo := offerTizo s;
         bonusAccepted := bonusAccepted s;
         bonusCost := bonusCost s;
         bonusTizo := bonusTizo s;
         totalCost := totalCost s;
         totalTizo := totalTizo s;
         orderNumber := orderNumber s;
         transactionComplete := transactionComplete s |}
  | set_offerTizo v =>
      {| sessionId := sessionId s;
         createdAt := createdAt s;
         lastActivity := lastActivity s;
         currentPage := currentPage s;
         language := language s;
         offerCost := offerCost s;
         offerTizo := v;
         bonusAccepted := bonusAccepted s;
         bonusCost := bonusCost s;
         bonusTizo := bonusTizo s;
         totalCost := totalCost s;
         totalTizo := totalTizo s;
         orderNumber := orderNumber s;
         transactionComplete := transactionComplete s |}
  | set_bonusAccepted v =>
      {| sessionId := sessionId s;
         createdAt := createdAt s;
         lastActivity := lastActivity s;
         currentPage := currentPage s;
         language := language s;
         offerCost := offerCost s;
         offerTizo := offerTizo s;
         bonusAccepted := v;
         bonusCost := bonusCost s;
         bonusTizo := bonusTizo s;
         totalCost := totalCost s;
         totalTizo := totalTizo s;
         orderNumber := orderNumber s;
         transactionComplete := transactionComplete s |}
  | set_bonusCost v =>
      {| sessionId := sessionId s;
         createdAt := createdAt s;
         lastActivity := lastActivity s;
         currentPage := currentPage s;
         language := language s;
         offerCost := offerCost s;
         offerTizo := offerTizo s;
         bonusAccepted := bonusAccepted s;
         bonusCost := v;
         bonusTizo := bonusTizo s;
         totalCost := totalCost s;
         totalTizo := totalTizo s;
         orderNumber := orderNumber s;
         transactionComplete := transactionComplete s |}
  | set_bonusTizo v =>
      {| sessionId := sessionId s;
         createdAt := createdAt s;
         lastActivity := lastActivity s;
         currentPage := currentPage s;
         language := language s;
         offerCost := offerCost s;
         offerTizo := offerTizo s;
         bonusAccepted := bonusAccepted s;
         bonusCost := bonusCost s;
         bonusTizo := v;
         totalCost := totalCost s;
         totalTizo := totalTizo s;
         orderNumber := orderNumber s;
         transactionComplete := transactionComplete s |}
  | set_totalCost v =>
      {| sessionId := sessionId s;
         createdAt := createdAt s;
         lastActivity := lastActivity s;
         currentPage := currentPage s;
         language := language s;
         offerCost := offerCost s;
         offerTizo := offerTizo s;
         bonusAccepted := bonusAccepted s;
         bonusCost := bonusCost s;
         bonusTizo := bonusTizo s;
         totalCost := v;
         totalTizo := totalTizo s;
         orderNumber := orderNumber s;
         transactionComplete := transactionComplete s |}
  | set_totalTizo v =>
      {| sessionId := sessionId s;
         createdAt := createdAt s;
         lastActivity := lastActivity s;
         currentPage := currentPage s;
         language := language s;
         offerCost := offerCost s;
         offerTizo := offerTizo s;
         bonusAccepted := bonusAccepted s;
         bonusCost := bonusCost s;
         bonusTizo := bonusTizo s;
         totalCost := totalCost s;
         totalTizo := v;
         orderNumber := orderNumber s;
         transactionComplete := transactionComplete s |}
  | set_orderNumber v =>
      {| sessionId := sessionId s;
         createdAt := createdAt s;
         lastActivity := lastActivity s;
         currentPage := currentPage s;
         language := language s;
         offerCost := offerCost s;
         offerTizo := offerTizo s;
         bonusAccepted := bonusAccepted s;
         bonusCost := bonusCost s;
         bonusTizo := bonusTizo s;
         totalCost := totalCost s;
         totalTizo := totalTizo s;
         orderNumber := v;
         transactionComplete := transactionComplete s |}
  | set_transactionComplete v =>
      {| sessionId := sessionId s;
         createdAt := createdAt s;
         lastActivity := lastActivity s;
         currentPage := currentPage s;
         language := language s;
         offerCost := offerCost s;
         offerTizo := offerTizo s;
         bonusAccepted := bonusAccepted s;
         bonusCost := bonusCost s;
         bonusTizo := bonusTizo s;
         totalCost := totalCost s;
         totalTizo := totalTizo s;
         orderNumber := orderNumber s;
         transactionComplete := v |}
  end.

(** [Object.assign(session, updates)]. *)
Definition Object_assign (s : session) (updates : list assignment) : session :=
  fold_left assign updates s.

(** The names of the properties, for [key in updates]. *)
Inductive key : Type :=
| key_sessionId
| key_createdAt
| key_lastActivity
| key_currentPage
| key_language
| key_offerCost
| key_offerTizo
| key_bonusAccepted
| key_bonusCost
| key_bonusTizo
| key_totalCost
| key_totalTizo
| key_orderNumber
| key_transactionComplete.

Definition key_of (u : assignment) : key :=
  match u with
  | set_sessionId _ => key_sessionId
  | set_createdAt _ => key_createdAt
  | set_lastActivity _ => key_lastActivity
  | set_currentPage _ => key_currentPage
  | set_language _ => key_language
  | set_offerCost _ => key_offerCost
  | set_offerTizo _ => key_offerTizo
  | set_bonusAccepted _ => key_bonusAccepted
  | set_bonusCost _ => key_bonusCost
  | set_bonusTizo _ => key_bonusTizo
  | set_totalCost _ => key_totalCost
  | set_totalTizo _ => key_totalTizo
  | set_orderNumber _ => key_orderNumber
  | set_transactionComplete _ => key_transactionComplete
  end.

Definition key_eqb (k k' : key) : bool :=
  match k, k' with
  | key_sessionId, key_sessionId => true
  | key_createdAt, key_createdAt => true
  | key_lastActivity, key_lastActivity => true
  | key_currentPage, key_currentPage => true
  | key_language, key_language => true
  | key_offerCost, key_offerCost => true
  | key_offerTizo, key_offerTizo => true
  | key_bonusAccepted, key_bonusAccepted => true
  | key_bonusCost, key_bonusCost => true
  | key_bonusTizo, key_bonusTizo => true
  | key_totalCost, key_totalCost => true
  | key_totalTizo, key_totalTizo => true
  | key_orderNumber, key_orderNumber => true
  | key_transactionComplete, key_transactionComplete => true
  | _, _ => false
  end.

(** [k in updates]. *)
Definition has_key (k : key) (updates : list assignment) : bool :=
  existsb (fun u => key_eqb k (key_of u)) updates.

(** What [localStorage] holds under ['tizo_session']: the JSON text of a
    session ([JSON.parse] gives back what [JSON.stringify] was given), or a
    text that cannot be read as one. *)
Inductive stored : Type :=
| json_of (s : session)
| unreadable.

(** What the manager writes on the console. *)
Inductive console_line : Type :=
| session_expired
| session_cleared
| error_reading_session
| error_saving_session
| resuming_existing_session (id : option string)
| new_session_started (id : option string)
| no_active_session.

(** The page as the manager sees it: the two items of [localStorage] it
    uses, whether [localStorage.setItem] throws (the quota is exceeded), the
    readings [Date.now()] gives one after the other, the texts the
    generators of identifiers and order numbers produce one after the other
    (they depend on the date and on [Math.random()]), and the console. *)
Record browser : Type := {
  tizo_session : option stored;
  tizo_language : option string;
  quota_exceeded : bool;
  clock : nat -> Z;
  clock_reads : nat;
  generated : nat -> string;
  generated_count : nat;
  console : list console_line
}.

Definition bprog (A : Type) : Type := browser -> A * browser.

Definition bret {A} (a : A) : bprog A := fun b => (a, b).

Definition bbind {A B} (m : bprog A) (k : A -> bprog B) : bprog B :=
  fun b => let (a, b') := m b in k a b'.

Declare Scope bprog_scope.
Delimit Scope bprog_scope with bprog.
Notation "x <- m ;; k" := (bbind m (fun x => k))
  (at level 100, m at next level, right associativity) : bprog_scope.
Notation "m ;;; k" := (bbind m (fun _ => k))
  (at level 100, right associativity) : bprog_scope.
Open Scope bprog_scope.

(** [Date.now()]. *)
Definition Date_now : bprog Z :=
  fun b =>
    (clock b (clock_reads b),
     {| tizo_session := tizo_session b;
        tizo_language := tizo_language b;
        quota_exceeded := quota_exceeded b;
        clock := clock b;
        clock_reads := S (clock_reads b);
        generated := generated b;
        generated_count := generated_count b;
        console := console b |}).

(** The next generated text. *)
Definition next_generated : bprog string :=
  fun b =>
    (generated b (generated_count b),
     {| tizo_session := tizo_session b;
        tizo_language := tizo_language b;
        quota_exceeded := quota_exceeded b;
        clock := clock b;
        clock_reads := clock_reads b;
        generated := generated b;
        generated_count := S (generated_count b);
        console := console b |}).

Definition console_write (line : console_line) : bprog unit :=
  fun b =>
    (tt,
     {| tizo_session := tizo_session b;
        tizo_language := tizo_language b;
        quota_exceeded := quota_exceeded b;
        clock := clock b;
        clock_reads := clock_reads b;
        generated := generated b;
        generated_count := generated_count b;
        console := console b ++ [line] |}).

(** [localStorage.getItem(SESSION_STORAGE_KEY)]. *)
Definition getItem_session : bprog (option stored) :=
  fun b => (tizo_session b, b).

(** [localStorage.getItem('tizo_language')]. *)
Definition getItem_language : bprog (option string) :=
  fun b => (tizo_language b, b).

Definition write_session (item : option stored) : bprog unit :=
  fun b =>
    (tt,
     {| tizo_session := item;
        tizo_language := tizo_language b;
        quota_exceeded := quota_exceeded b;
        clock := clock b;
        clock_reads := clock_reads b;
        generated := generated b;
        generated_count := generated_count b;
        console := console b |}).

(** [localStorage.setItem(SESSION_STORAGE_KEY, JSON.stringify(session))];
    the result tells whether it went through or threw. *)
Definition setItem_session (s : session) : bprog bool :=
  fun b =>
    if quota_exceeded b then (false, b)
    else (true, snd (write_session (Some (json_of s)) b)).

(** [generateSessionId]: it reads the time once. *)
Definition generateSessionId : bprog string :=
  _ <- Date_now ;;
  next_generated.

(** [generateOrderNumber]. *)
Definition generateOrderNumber : bprog string :=
  next_generated.

Definition clearSession : bprog unit :=
  write_session None ;;;
  console_write session_cleared.

(** [getSession]. An empty or missing item gives [null]; a text that cannot
    be read makes [JSON.parse] throw, which is caught. [lastActivity] is
    tested for truth: [null] and [0] skip the test of the age. *)
Definition getSession : bprog (option session) :=
  sessionData <- getItem_session ;;
  match sessionData with
  | None => bret None
  | Some unreadable =>
      console_write error_reading_session ;;;
      bret None
  | Some (json_of session) =>
      match lastActivity session with
      | Some last =>
          if last =? 0 then bret (Some session)
          else
            now <- Date_now ;;
            let elapsed := now - last in
            if SESSION_TIMEOUT_MS <? elapsed
            then
              console_write session_expired ;;;
              clearSession ;;;
              bret None
            else bret (Some session)
      | None => bret (Some session)
      end
  end.

(** [saveSession]: it stamps the object it is given, which is what it
    returns here, and stores it; a throw of [setItem] is caught. *)
Definition saveSession (s : session) : bprog session :=
  now <- Date_now ;;
  let s := assign s (set_lastActivity (Some now)) in
  stored <- setItem_session s ;;
  (if stored then bret tt else console_write error_saving_session) ;;;
  bret s.

(** [startNewSession(forceNew)]. *)
Definition startNewSession (forceNew : bool) : bprog session :=
  existingSession <- getSession ;;
  let create : bprog session :=
    id <- generateSessionId ;;
    created <- Date_now ;;
    last <- Date_now ;;
    lang <- getItem_language ;;
    let newSession :=
      Object_assign DEFAULT_SESSION
        [set_sessionId (Some id);
         set_createdAt (Some created);
         set_lastActivity (Some last);
         set_language match lang with
                      | Some l => if String.eqb l "" then "id" else l
                      | None => "id"
                      end] in
    newSession <- saveSession newSession ;;
    console_write (new_session_started (sessionId newSession)) ;;;
    bret newSession in
  match existingSession with
  | Some existing =>
      if negb forceNew && negb (transactionComplete existing)
      then
        console_write (resuming_existing_session (sessionId existing)) ;;;
        bret existing
      else create
  | None => create
  end.

(** [session.bonusAccepted ? x : 0]. *)
Definition if_bonusAccepted (s : session) (x : Z) : Z :=
  match bonusAccepted s with
  | Some true => x
  | _ => 0
  end.

(** [updateSession(updates)]. *)
Definition updateSession (updates : list assignment) : bprog session :=
  session <- getSession ;;
  session <- match session with
             | Some s => bret s
             | None =>
                 console_write no_active_session ;;;
                 startNewSession true
             end ;;
  let session := Object_assign session updates in
  let session :=
    if has_key key_offerCost updates || has_key key_bonusCost updates
       || has_key key_bonusAccepted updates
    then assign session
           (set_totalCost (offerCost session
                           + if_bonusAccepted session (bonusCost session)))
    else session in
  let session :=
    if has_key key_offerTizo updates || has_key key_bonusTizo updates
       || has_key key_bonusAccepted updates
    then assign session
           (set_totalTizo (offerTizo session
                           + if_bonusAccepted session (bonusTizo session)))
    else session in
  saveSession session.

(** The part of [updateSession] between reading and saving. *)
Definition merged (s : session) (updates : list assignment) : session :=
  let s := Object_assign s updates in
  let s :=
    if has_key key_offerCost updates || has_key key_bonusCost updates
       || has_key key_bonusAccepted updates
    then assign s (set_totalCost (offerCost s + if_bonusAccepted s (bonusCost s)))
    else s in
  if has_key key_offerTizo updates || has_key key_bonusTizo updates
     || has_key key_bonusAccepted updates
  then assign s (set_totalTizo (offerTizo s + if_bonusAccepted s (bonusTizo s)))
  else s.

(** The session [updateSession] starts from. *)
Definition base_session (b : browser) : session * browser :=
  (session <- getSession ;;
   match session with
   | Some s => bret s
   | None => console_write no_active_session ;;; startNewSession true
   end)%bprog b.

(** [setCurrentPage(pageName)]. *)
Definition setCurrentPage (pageName : string) : bprog unit :=
  updateSession [set_currentPage pageName] ;;;
  bret tt.

(** [completeTransaction]. *)
Definition completeTransaction : bprog string :=
  orderNumber <- generateOrderNumber ;;
  updateSession [set_orderNumber (Some orderNumber);
                 set_transactionComplete true] ;;;
  bret orderNumber.

(** [hasActiveSession]. *)
Definition hasActiveSession : bprog bool :=
  session <- getSession ;;
  bret match session with
       | Some s => negb (transactionComplete s)
       | None => false
       end.

(** The totals of a session are those of its parts. *)
Definition totals_consistent (s : session) : Prop :=
  totalCost s = offerCost s + if_bonusAccepted s (bonusCost s) /\
  totalTizo s = offerTizo s + if_bonusAccepted s (bonusTizo s).

(** The session the storage holds, if it holds a readable one. *)
Definition stored_session (b : browser) : option session :=
  match tizo_session b with
  | Some (json_of s) => Some s
  | _ => None
  end.

(** A page for the examples: the clock starts at [start] and advances by
    [step] at each reading. *)
Definition example_browser (item : option stored) (start step : Z) : browser :=
  {| tizo_session := item;
     tizo_language := Some "en"%string;
     quota_exceeded := false;
     clock := fun n => start + step * Z.of_nat n;
     clock_reads := 0;
     generated := fun _ => "TZEXAMPLE"%string;
     generated_count := 0;
     console := [] |}.

End SessionManager.

(** No offer of the cache awards more than twice what it takes, the rate of
    the 600-Rb base. *)
Definition cache_at_most_double (st : state) : Prop :=
  forall elements, snapshot st = Some elements ->
    Forall (fun o => tizo_value o <= 2 * topup_rb o) elements.

(** ** The dispatch of the requests *)

(** The branches of the request handler, in the order it tries them. *)
Inductive route : Type :=
| route_options
| route_health
| route_layout_config
| route_scratch_card
| route_card_info
| route_offers
| route_upsell_offers_all
| route_upsell_offer
| route_next_upsell_offers
| route_custom_topup_upsell
| route_save
| route_redirect
| route_static.

(** [s.startsWith(p)]. *)
Definition startsWith (s p : string) : bool := String.prefix p s.

(** [s.split('?')[0]]: what precedes the first question mark. *)
Fixpoint before_question (s : string) : string :=
  match s with
  | EmptyString => EmptyString
  | String c rest =>
      if Ascii.eqb c "?"%char then EmptyString
      else String c (before_question rest)
  end.

(** The branch that answers a request with this method and this URL. *)
Definition route_of (method url : string) : route :=
  if String.eqb method "OPTIONS" then route_options
  else if String.eqb method "GET" && String.eqb url "/api/health"
  then route_health
  else if String.eqb method "GET" && startsWith url "/api/layout-config"
  then route_layout_config
  else if String.eqb method "GET" && startsWith url "/api/scratch-card"
  then route_scratch_card
  else if String.eqb method "GET" && startsWith url "/api/card-info"
  then route_card_info
  else if String.eqb method "GET" && startsWith url "/api/offers"
  then route_offers
  else if String.eqb method "GET" && String.eqb url "/api/upsell-offers-all"
  then route_upsell_offers_all
  else if String.eqb method "GET" && startsWith url "/api/upsell-offer"
  then route_upsell_offer
  else if String.eqb method "GET" && startsWith url "/api/next-upsell-offers"
  then route_next_upsell_offers
  else if String.eqb method "GET" && startsWith url "/api/custom-topup-upsell"
  then route_custom_topup_upsell
  else if String.eqb method "POST" && String.eqb url "/save"
  then route_save
  else if String.eqb (before_question url) "/" then route_redirect
  else route_static.

(** The headers the handler sets before it looks at the request: the CORS
    ones always, the ones against caching for a URL under [/api/]. *)
Definition headers_set (url : string) : list (string * string) :=
  [("Access-Control-Allow-Origin", "*");
   ("Access-Control-Allow-Methods", "GET, POST, OPTIONS");
   ("Access-Control-Allow-Headers", "Content-Type")]%string
  ++ (if startsWith url "/api/"
      then [("Cache-Control",
             "no-store, no-cache, must-revalidate, proxy-revalidate");
            ("Pragma", "no-cache");
            ("Expires", "0")]%string
      else []).

(** The branches that query the database. *)
Definition api_route (r : route) : bool :=
  match r with
  | route_health | route_layout_config | route_scratch_card | route_card_info
  | route_offers | route_upsell_offers_all | route_upsell_offer
  | route_next_upsell_offers | route_custom_topup_upsell => true
  | _ => false
  end.

(** The greedy pass as repeated division: each offer in turn is applied
    [r / topup_rb] times to what is left, and the rest of the last division
    counts 1:1. *)
Fixpoint division_credit (offers : list offer) (r : Z) : Z :=
  match offers with
  | [] => r
  | o :: rest =>
      r / topup_rb o * tizo_value o + division_credit rest (r mod topup_rb o)
  end.

(** The same offer with at least as much credit. *)
Definition more_credit (o o' : offer) : Prop :=
  topup_rb o' = topup_rb o /\ tizo_value o <= tizo_value o'.

(** Two outcomes of the converter: both a credit, the second at least the
    first, or both none. *)
Definition at_least (r r' : option Z) : Prop :=
  match r, r' with
  | Some v, Some v' => v <= v'
  | None, None => True
  | _, _ => False
  end.

(** ** The converter on JavaScript numbers *)

(** The definitions above compute with integers exactly. The server computes
    with JavaScript numbers, which are doubles: every sum, difference and
    product, and every quotient, is rounded to the nearest double (53
    significant bits, ties to the even mantissa). The two agree as long as
    every value stays within 2^53 (see [calculateCustomTizo_exact]).
    [Number] holds the converter with the rounding written out; amounts are
    integers of a magnitude that a double holds (below 2^1023). *)
Module Number.

(** The nearest double of an integer. *)
Definition round_to_double (x : Z) : Z :=
  if Z.abs x <=? 2 ^ 53 then x
  else
    let e := Z.log2 (Z.abs x) - 52 in
    let q := Z.abs x / 2 ^ e in
    let r := Z.abs x mod 2 ^ e in
    let m := if 2 * r <? 2 ^ e then q
             else if 2 ^ e <? 2 * r then q + 1
             else if Z.even q then q else q + 1 in
    Z.sgn x * (m * 2 ^ e).

(** [n / d] scaled by [2 ^ (- e)], as a fraction of integers. *)
Definition scaled (n d e : Z) : Z * Z :=
  if 0 <=? e then (n, d * 2 ^ e) else (n * 2 ^ (- e), d).

(** The nearest double of the quotient [n / d] of two positive integers, as
    [m * 2 ^ e] with a mantissa [m] of 53 bits. *)
Definition quotient_to_double (n d : Z) : Z * Z :=
  let e0 := Z.log2 n - Z.log2 d - 53 in
  let e := if 2 ^ 53 <=? fst (scaled n d e0) / snd (scaled n d e0)
           then e0 + 1 else e0 in
  let N := fst (scaled n d e) in
  let D := snd (scaled n d e) in
  let q := N / D in
  let r := N mod D in
  let m := if 2 * r <? D then q
           else if D <? 2 * r then q + 1
           else if Z.even q then q else q + 1 in
  (m, e).

(** [Math.floor] and [Math.ceil] of [m * 2 ^ e]. *)
Definition floor_of (v : Z * Z) : Z :=
  let (m, e) := v in
  if 0 <=? e then m * 2 ^ e else m / 2 ^ (- e).

Definition ceil_of (v : Z * Z) : Z :=
  let (m, e) := v in
  if 0 <=? e then m * 2 ^ e else - (- m / 2 ^ (- e)).

(** [Math.floor(n / d)] and [Math.ceil(n / d)] for a positive [d]. *)
Definition Math_floor_div (n d : Z) : Z :=
  if n =? 0 then 0
  else if 0 <? n then floor_of (quotient_to_double n d)
  else - ceil_of (quotient_to_double (- n) d).

Definition Math_ceil_div (n d : Z) : Z :=
  if n =? 0 then 0
  else if 0 <? n then ceil_of (quotient_to_double n d)
  else - floor_of (quotient_to_double (- n) d).

(** Step 1. [%] is exact on doubles. *)
Definition base_step (amountRb : Z) : locals :=
  let base600Count := Math_floor_div amountRb 600 in
  if 0 <? base600Count
  then {| totalTizo :=
            round_to_double (0 + round_to_double (base600Count * 1200));
          remaining := Z.rem amountRb 600 |}
  else {| totalTizo := 0; remaining := amountRb |}.

Definition while_body (o : offer) (s : locals) : locals :=
  {| totalTizo := round_to_double (totalTizo s + tizo_value o);
     remaining := round_to_double (remaining s - topup_rb o) |}.

Fixpoint while_loop (fuel : nat) (o : offer) (s : locals) : option locals :=
  if while_test o s
  then match fuel with
       | O => None
       | S fuel' => while_loop fuel' o (while_body o s)
       end
  else Some s.

Fixpoint for_of (fuel : nat) (validOffers : list offer) (s : locals)
    : option locals :=
  match validOffers with
  | [] => Some s
  | o :: rest =>
      match while_loop fuel o s with
      | Some s' => for_of fuel rest s'
      | None => None
      end
  end.

(** Step 3. *)
Definition residual_step (s : locals) : Z :=
  if 0 <? remaining s
  then round_to_double (totalTizo s + remaining s)
  else totalTizo s.

Definition calculateCustomTizo (fuel : nat) (amountRb : Z) : prog Z :=
  let s := base_step amountRb in
  s <- (if 0 <? remaining s
        then
          cached <- read_upsellOffersCache ;;
          match cached with
          | Some ref =>
              elements <- array_read ref ;;
              if (0 <? length elements)%nat
              then
                filtered <- array_filter (fun o => topup_rb o <? 600) ref ;;
                validOffers <-
                  array_sort by_topup_rb_desc filtered ;;
                offers <- array_read validOffers ;;
                run_loop (for_of fuel offers s)
              else ret s
          | None => ret s
          end
        else ret s) ;;
  ret (residual_step s).

(** [Math.ceil(amountRb / 50) * 50]. *)
Definition ceil_to_50 (amountRb : Z) : Z :=
  round_to_double (Math_ceil_div amountRb 50 * 50).

(** The callback of the query on [custom_topup_upsell]. *)
Definition custom_topup_upsell_then (fuel : nat) (amountRb : Z)
    (rows : list custom_topup_upsell_row) : prog response :=
  match rows with
  | row :: _ =>
      tizo1 <- calculateCustomTizo fuel (upsell_box_1 row) ;;
      tizo2 <- calculateCustomTizo fuel (upsell_box_2 row) ;;
      custom <- calculateCustomTizo fuel amountRb ;;
      ret {| status := 200;
             body := {| success := true;
                        customAmount := amountRb;
                        customTizo := custom;
                        upsellBox1 := {| rb := upsell_box_1 row; tizo := tizo1 |};
                        upsellBox2 := {| rb := upsell_box_2 row; tizo := tizo2 |};
                        range := Some (range_min row, range_max row);
                        isFallback := None;
                        message := None |} |}
  | [] =>
      custom <- calculateCustomTizo fuel amountRb ;;
      tizo1 <- calculateCustomTizo fuel (ceil_to_50 amountRb) ;;
      tizo2 <- calculateCustomTizo fuel
                 (round_to_double (ceil_to_50 amountRb + 50)) ;;
      ret {| status := 200;
             body := {| success := true;
                        customAmount := amountRb;
                        customTizo := custom;
                        upsellBox1 := {| rb := ceil_to_50 amountRb; tizo := tizo1 |};
                        upsellBox2 :=
                          {| rb := round_to_double (ceil_to_50 amountRb + 50);
                             tizo := tizo2 |};
                        range := None;
                        isFallback := Some true;
                        message := Some "Using calculated fallback values"%string |} |}
  end.

End Number.

(** The cache, if it has offers, is within the range where the rounding
    does nothing: positive units and credits of at most 2^40 in size. *)
Definition cache_in_range (st : state) : Prop :=
  forall elements, snapshot st = Some elements ->
    Forall (fun o => 0 < topup_rb o /\ - 2 ^ 40 <= tizo_value o <= 2 ^ 40)
      elements.

(** What bounds the running total during the greedy pass: each iteration
    takes at least 1 from [remaining] and adds at most 2^40 in size to the
    total. *)
Definition within_range (s : locals) : Prop :=
  0 <= remaining s /\ Z.abs (totalTizo s) + remaining s * 2 ^ 40 <= 2 ^ 53.

Definition offer_in_range (o : offer) : Prop :=
  0 < topup_rb o /\ - 2 ^ 40 <= tizo_value o <= 2 ^ 40.

(** ** The model at work *)

Example custom_1790 :
  returned_value
    (calculateCustomTizo 1 1790 (state_with_cache [offer_40; offer_550]))
  = Some 3460.
Proof. reflexivity. Qed.

Example custom_50_no_offer_fits :
  returned_value
    (calculateCustomTizo 1 50
       (state_with_cache [{| topup_rb := 100; tizo_value := 130 |}; offer_550]))
  = Some 50.
Proof. reflexivity. Qed.

Example custom_590_never_loaded :
  calculateCustomTizo 0 590 initial_state = Returned 590 initial_state.
Proof. reflexivity. Qed.

(** The pass is greedy, not optimal: 14 times the 40 offer, 30 left. *)
Example custom_590_only_40 :
  returned_value (calculateCustomTizo 14 590 (state_with_cache [offer_40]))
  = Some 590.
Proof. reflexivity. Qed.

(** Of two offers with the same [topup_rb], the one that comes first in the
    cache is applied. *)
Example custom_equal_units :
  returned_value
    (calculateCustomTizo 1 550
       (state_with_cache [{| topup_rb := 550; tizo_value := 999 |}; offer_550]))
  = Some 999.
Proof. reflexivity. Qed.

(** An offer that takes nothing keeps the inner loop going. *)
Example custom_zero_unit :
  calculateCustomTizo 1000 30
    (state_with_cache [offer_40; {| topup_rb := 0; tizo_value := 0 |}])
  = Diverged.
Proof. vm_compute. reflexivity. Qed.

(** The cache array is left as it was; the sorted copy is a new array. *)
Example custom_1790_state :
  calculateCustomTizo 1 1790 (state_with_cache [offer_40; offer_550]) =
  Returned 3460
    {| heap := [[offer_40; offer_550]; [offer_550; offer_40]];
       upsellOffersCache := Some 0%nat;
       console := [] |}.
Proof. reflexivity. Qed.

Example load_then_convert :
  match loadUpsellOffersCache (resolves [offer_40; offer_550]) initial_state with
  | Returned _ st => returned_value (calculateCustomTizo 1 1790 st)
  | _ => None
  end = Some 3460.
Proof. reflexivity. Qed.

(** ** Facts about the sort *)

Section Sort.

Variable cmp : offer -> offer -> Z.

Lemma sort_insert_Permutation (x : offer) (l : list offer) :
  Permutation (sort_insert cmp x l) (x :: l).
Proof.
  induction l as [|y l IH]; simpl.
  - apply Permutation_refl.
  - destruct (0 <? cmp x y).
    + eapply perm_trans; [apply perm_skip, IH | apply perm_swap].
    + apply Permutation_refl.
Qed.

Lemma sorted_by_Permutation (l : list offer) :
  Permutation (sorted_by cmp l) l.
Proof.
  induction l as [|x l IH]; simpl.
  - apply perm_nil.
  - eapply perm_trans; [apply sort_insert_Permutation | apply perm_skip, IH].
Qed.

Lemma sorted_by_In (l : list offer) (x : offer) :
  In x (sorted_by cmp l) <-> In x l.
Proof.
  split; apply Permutation_in;
    [apply sorted_by_Permutation | apply Permutation_sym, sorted_by_Permutation].
Qed.

Lemma sorted_by_Forall (P : offer -> Prop) (l : list offer) :
  Forall P l -> Forall P (sorted_by cmp l).
Proof.
  intros H. apply List.Forall_forall. intros x Hx.
  exact (proj1 (List.Forall_forall P l) H x (proj1 (sorted_by_In l x) Hx)).
Qed.

End Sort.

Lemma sort_insert_descending (x : offer) (l : list offer) :
  StronglySorted descending l ->
  StronglySorted descending (sort_insert by_topup_rb_desc x l).
Proof.
  induction 1 as [|y l Hl IH Hy]; simpl.
  - repeat constructor.
  - unfold by_topup_rb_desc at 1.
    destruct (Z.ltb_spec 0 (topup_rb y - topup_rb x)) as [Hlt|Hge].
    + constructor; [exact IH|].
      apply List.Forall_forall. intros z Hz.
      apply (Permutation_in _ (sort_insert_Permutation _ x l)) in Hz.
      destruct Hz as [<-|Hz].
      * unfold descending. lia.
      * exact (proj1 (List.Forall_forall _ l) Hy z Hz).
    + constructor; [constructor; assumption|].
      constructor; [unfold descending; lia|].
      apply List.Forall_forall. intros z Hz.
      pose proof (proj1 (List.Forall_forall _ l) Hy z Hz) as Hzy.
      unfold descending in *. lia.
Qed.

Lemma sorted_by_descending (l : list offer) :
  StronglySorted descending (sorted_by by_topup_rb_desc l).
Proof.
  induction l as [|x l IH]; simpl.
  - constructor.
  - apply sort_insert_descending, IH.
Qed.

Lemma validOffers_of_In (elements : list offer) (o : offer) :
  In o (validOffers_of elements) <-> In o elements /\ topup_rb o < 600.
Proof.
  unfold validOffers_of. rewrite sorted_by_In, List.filter_In.
  rewrite Z.ltb_lt. reflexivity.
Qed.

Lemma validOffers_of_Forall (P : offer -> Prop) (elements : list offer) :
  Forall P elements -> Forall P (validOffers_of elements).
Proof.
  intros H. apply List.Forall_forall. intros o Ho.
  apply (proj1 (validOffers_of_In elements o)) in Ho.
  exact (proj1 (List.Forall_forall P elements) H o (proj1 Ho)).
Qed.

(** ** Step 1 and step 3 *)

Lemma base_step_nonneg (a : Z) :
  0 <= a ->
  base_step a = {| totalTizo := a / 600 * 1200; remaining := a mod 600 |}.
Proof.
  intros Ha. unfold base_step.
  destruct (Z.ltb_spec 0 (a / 600)) as [Hq|Hq].
  - rewrite Z.rem_mod_nonneg by lia. reflexivity.
  - assert (Hq0 : a / 600 = 0) by (pose proof (Z.div_pos a 600); lia).
    assert (Hlt : a < 600).
    { destruct (Z.lt_ge_cases a 600) as [H|H]; [exact H|].
      assert (1 <= a / 600) by (apply Z.div_le_lower_bound; lia). lia. }
    rewrite Hq0, Z.mod_small by lia. reflexivity.
Qed.

Lemma base_step_negative (a : Z) :
  a < 0 -> base_step a = {| totalTizo := 0; remaining := a |}.
Proof.
  intros Ha. unfold base_step.
  assert (a / 600 < 0) by (apply Z.div_lt_upper_bound; lia).
  destruct (Z.ltb_spec 0 (a / 600)); [lia | reflexivity].
Qed.

Lemma base_step_remaining (a : Z) :
  0 <= a -> 0 <= remaining (base_step a) < 600.
Proof.
  intros Ha. rewrite base_step_nonneg by exact Ha. simpl.
  apply Z.mod_pos_bound. lia.
Qed.

Lemma base_step_sum (a : Z) :
  0 <= a -> a <= totalTizo (base_step a) + remaining (base_step a).
Proof.
  intros Ha. rewrite base_step_nonneg by exact Ha. simpl.
  pose proof (Z.div_mod a 600). pose proof (Z.div_pos a 600). lia.
Qed.

Lemma residual_step_sum (s : locals) :
  totalTizo s + remaining s <= residual_step s.
Proof.
  unfold residual_step. destruct (Z.ltb_spec 0 (remaining s)); lia.
Qed.

(** ** The loops *)

Lemma while_loop_eq (fuel : nat) (o : offer) (s : locals) :
  while_loop fuel o s =
  if while_test o s
  then match fuel with
       | O => None
       | S fuel' => while_loop fuel' o (while_body o s)
       end
  else Some s.
Proof. destruct fuel; reflexivity. Qed.

(** An offer larger than what remains is passed over. *)
Lemma while_loop_skips (fuel : nat) (o : offer) (s : locals) :
  remaining s < topup_rb o -> while_loop fuel o s = Some s.
Proof.
  intros H. rewrite while_loop_eq. unfold while_test.
  destruct (Z.leb_spec (topup_rb o) (remaining s)); [lia | reflexivity].
Qed.

(** More fuel does not change a result. *)
Lemma while_loop_fuel_mono (fuel fuel' : nat) (o : offer) (s s' : locals) :
  while_loop fuel o s = Some s' -> (fuel <= fuel')%nat ->
  while_loop fuel' o s = Some s'.
Proof.
  revert fuel' s. induction fuel as [|fuel IH]; intros fuel' s.
  - rewrite !while_loop_eq. destruct (while_test o s); [discriminate|].
    intros H _. exact H.
  - rewrite (while_loop_eq (S fuel)), (while_loop_eq fuel').
    destruct (while_test o s); [|intros H _; exact H].
    intros H Hle. destruct fuel' as [|fuel']; [lia|].
    apply IH; [exact H | lia].
Qed.

Lemma for_of_fuel_mono (fuel fuel' : nat) (l : list offer) (s s' : locals) :
  for_of fuel l s = Some s' -> (fuel <= fuel')%nat ->
  for_of fuel' l s = Some s'.
Proof.
  revert s. induction l as [|o l IH]; intros s; simpl.
  - intros H _. exact H.
  - destruct (while_loop fuel o s) as [s1|] eqn:E; [|discriminate].
    intros H Hle.
    rewrite (while_loop_fuel_mono fuel fuel' o s s1 E Hle).
    apply IH; assumption.
Qed.

(** With a positive [topup_rb] every iteration takes something away, so the
    loop ends within [remaining] iterations. *)
Lemma while_body_decreases (o : offer) (s : locals) :
  0 < topup_rb o -> remaining (while_body o s) < remaining s.
Proof. simpl. lia. Qed.

Lemma while_loop_terminates (fuel : nat) (o : offer) (s : locals) :
  0 < topup_rb o -> 0 <= remaining s ->
  (Z.to_nat (remaining s) <= fuel)%nat ->
  exists s', while_loop fuel o s = Some s' /\
             0 <= remaining s' <= remaining s.
Proof.
  intros Ho. revert s. induction fuel as [|fuel IH]; intros s Hs Hfuel;
    rewrite while_loop_eq; unfold while_test;
    destruct (Z.leb_spec (topup_rb o) (remaining s)) as [Hle|Hgt];
    try (exists s; split; [reflexivity | lia]).
  - lia.
  - destruct (IH (while_body o s)) as (s' & Hs' & Hb); simpl; try lia.
    exists s'. split; [exact Hs'|]. simpl in Hb. lia.
Qed.

Lemma for_of_terminates (fuel : nat) (l : list offer) (s : locals) :
  Forall (fun o => 0 < topup_rb o) l -> 0 <= remaining s ->
  (Z.to_nat (remaining s) <= fuel)%nat ->
  exists s', for_of fuel l s = Some s' /\
             0 <= remaining s' <= remaining s.
Proof.
  intros Hl. revert s. induction Hl as [|o l Ho Hl IH]; intros s Hs Hfuel; simpl.
  - exists s. split; [reflexivity | lia].
  - destruct (while_loop_terminates fuel o s Ho Hs Hfuel) as (s1 & E & Hb).
    rewrite E.
    destruct (IH s1) as (s' & Hs' & Hb'); try lia.
    exists s'. split; [exact Hs' | lia].
Qed.

(** With [topup_rb <= 0] the test never fails. *)
Lemma while_loop_diverges (fuel : nat) (o : offer) (s : locals) :
  topup_rb o <= 0 -> 0 <= remaining s -> while_loop fuel o s = None.
Proof.
  intros Ho. revert s. induction fuel as [|fuel IH]; intros s Hs;
    rewrite while_loop_eq; unfold while_test;
    destruct (Z.leb_spec (topup_rb o) (remaining s)) as [Hle|Hgt];
    try lia; try reflexivity.
  apply IH. simpl. lia.
Qed.

Lemma while_loop_remaining (fuel : nat) (o : offer) (s s' : locals) :
  0 <= remaining s -> while_loop fuel o s = Some s' -> 0 <= remaining s'.
Proof.
  destruct (Z.lt_ge_cases 0 (topup_rb o)) as [Ho|Ho].
  - revert s. induction fuel as [|fuel IH]; intros s Hs;
      rewrite while_loop_eq; unfold while_test;
      destruct (Z.leb_spec (topup_rb o) (remaining s)) as [Hle|Hgt];
      try discriminate; try (intros [= <-]; exact Hs).
    apply IH. simpl. lia.
  - intros Hs. rewrite while_loop_diverges by assumption. discriminate.
Qed.

Lemma for_of_diverges (fuel : nat) (l : list offer) (o : offer) (s : locals) :
  In o l -> topup_rb o <= 0 -> 0 <= remaining s -> for_of fuel l s = None.
Proof.
  intros Hin Ho. revert s. induction l as [|x l IH]; intros s Hs; simpl.
  - destruct Hin.
  - destruct Hin as [->|Hin].
    + rewrite while_loop_diverges by assumption. reflexivity.
    + destruct (while_loop fuel x s) as [s1|] eqn:E; [|reflexivity].
      apply IH; [exact Hin|]. eapply while_loop_remaining; eassumption.
Qed.

(** When every offer awards at least what it takes, a pass never lowers
    [totalTizo + remaining]. *)
Lemma while_loop_bonus (fuel : nat) (o : offer) (s s' : locals) :
  topup_rb o <= tizo_value o -> while_loop fuel o s = Some s' ->
  totalTizo s + remaining s <= totalTizo s' + remaining s'.
Proof.
  intros Ho. revert s. induction fuel as [|fuel IH]; intros s;
    rewrite while_loop_eq; destruct (while_test o s);
    try discriminate; try (intros [= <-]; lia).
  intros H. apply IH in H. simpl in H. lia.
Qed.

Lemma for_of_bonus (fuel : nat) (l : list offer) (s s' : locals) :
  Forall (fun o => topup_rb o <= tizo_value o) l ->
  for_of fuel l s = Some s' ->
  totalTizo s + remaining s <= totalTizo s' + remaining s'.
Proof.
  intros Hl. revert s. induction Hl as [|o l Ho Hl IH]; intros s; simpl.
  - intros [= <-]. lia.
  - destruct (while_loop fuel o s) as [s1|] eqn:E; [|discriminate].
    intros H. apply IH in H. apply (while_loop_bonus _ _ _ _ Ho) in E. lia.
Qed.

(** ** The converter, by the case it runs into *)

Lemma calculateCustomTizo_nothing_left (fuel : nat) (a : Z) (st : state) :
  remaining (base_step a) <= 0 ->
  calculateCustomTizo fuel a st = Returned (residual_step (base_step a)) st.
Proof.
  intros H. unfold calculateCustomTizo, bind.
  destruct (Z.ltb_spec 0 (remaining (base_step a))); [lia | reflexivity].
Qed.

Lemma calculateCustomTizo_null (fuel : nat) (a : Z) (st : state) :
  upsellOffersCache st = None ->
  calculateCustomTizo fuel a st = Returned (residual_step (base_step a)) st.
Proof.
  intros H. unfold calculateCustomTizo, bind, read_upsellOffersCache.
  destruct (0 <? remaining (base_step a)); [rewrite H|]; reflexivity.
Qed.

Lemma calculateCustomTizo_empty (fuel : nat) (a : Z) (st : state) :
  snapshot st = Some [] ->
  calculateCustomTizo fuel a st = Returned (residual_step (base_step a)) st.
Proof.
  unfold snapshot. destruct (upsellOffersCache st) as [ref|] eqn:Hc; [|discriminate].
  intros H.
  unfold calculateCustomTizo, bind, read_upsellOffersCache, array_read.
  destruct (0 <? remaining (base_step a)); [rewrite Hc, H|]; reflexivity.
Qed.

Lemma calculateCustomTizo_greedy (fuel : nat) (a : Z) (st : state)
    (elements : list offer) :
  snapshot st = Some elements -> elements <> [] ->
  0 < remaining (base_step a) ->
  calculateCustomTizo fuel a st =
  match for_of fuel (validOffers_of elements) (base_step a) with
  | Some s => Returned (residual_step s) (after_greedy_pass st elements)
  | None => Diverged
  end.
Proof.
  unfold snapshot. destruct (upsellOffersCache st) as [ref|] eqn:Hc; [|discriminate].
  intros H Hne Hrem.
  unfold calculateCustomTizo, bind, read_upsellOffersCache.
  destruct (Z.ltb_spec 0 (remaining (base_step a))) as [_|]; [|lia].
  rewrite Hc. unfold array_read at 1. rewrite H.
  destruct elements as [|e elements]; [congruence|].
  change (0 <? length (e :: elements))%nat with true. cbv iota.
  unfold array_filter, array_sort, bind, array_read, array_new, array_write, ret.
  rewrite H. cbn [heap].
  rewrite list_lookup_middle by reflexivity.
  cbn [heap].
  replace (<[length (heap st) := sorted_by by_topup_rb_desc
              (List.filter (fun o => topup_rb o <? 600) (e :: elements))]>
           (heap st ++ [List.filter (fun o => topup_rb o <? 600) (e :: elements)]))
    with (heap st ++ [validOffers_of (e :: elements)]).
  2:{ symmetry. rewrite <- (Nat.add_0_r (length (heap st))).
      rewrite insert_app_r. reflexivity. }
  rewrite list_lookup_middle by reflexivity.
  unfold run_loop, after_greedy_pass. cbn [upsellOffersCache console].
  destruct (for_of fuel (validOffers_of (e :: elements)) (base_step a)); reflexivity.
Qed.

(** The cache variable and its array are as before. *)
Lemma after_greedy_pass_snapshot (st : state) (elements : list offer) :
  snapshot st = Some elements ->
  snapshot (after_greedy_pass st elements) = Some elements.
Proof.
  unfold snapshot, after_greedy_pass. cbn [upsellOffersCache heap].
  destruct (upsellOffersCache st) as [ref|]; [|discriminate].
  apply lookup_app_l_Some.
Qed.

(** The outcome of a call, from the snapshot alone. *)
Lemma calculateCustomTizo_cases (fuel : nat) (a : Z) (st : state) :
  wf_state st ->
  calculateCustomTizo fuel a st = Returned (residual_step (base_step a)) st \/
  exists elements,
    snapshot st = Some elements /\ elements <> [] /\
    0 < remaining (base_step a) /\
    calculateCustomTizo fuel a st =
    match for_of fuel (validOffers_of elements) (base_step a) with
    | Some s => Returned (residual_step s) (after_greedy_pass st elements)
    | None => Diverged
    end.
Proof.
  intros Hwf.
  destruct (Z.lt_ge_cases 0 (remaining (base_step a))) as [Hrem|Hrem].
  2:{ left. apply calculateCustomTizo_nothing_left. exact Hrem. }
  destruct (upsellOffersCache st) as [ref|] eqn:Hc.
  2:{ left. apply calculateCustomTizo_null. exact Hc. }
  destruct (Hwf ref Hc) as [elements He].
  assert (Hs : snapshot st = Some elements) by (unfold snapshot; rewrite Hc; exact He).
  destruct elements as [|e elements].
  - left. apply calculateCustomTizo_empty. exact Hs.
  - right. exists (e :: elements). repeat split; try assumption; try discriminate.
    apply calculateCustomTizo_greedy; [assumption | discriminate | assumption].
Qed.

(** Well-formedness is kept by both operations. *)
Lemma wf_initial_state : wf_state initial_state.
Proof. intros ref H. discriminate. Qed.

Lemma wf_after_greedy_pass (st : state) (elements : list offer) :
  wf_state st -> wf_state (after_greedy_pass st elements).
Proof.
  intros Hwf ref H. cbn in H. destruct (Hwf ref H) as [arr Harr].
  exists arr. cbn. apply lookup_app_l_Some. exact Harr.
Qed.

Lemma residual_base_step (a : Z) :
  0 <= a -> residual_step (base_step a) = a / 600 * 1200 + a mod 600.
Proof.
  intros Ha. rewrite base_step_nonneg by exact Ha.
  unfold residual_step. simpl.
  pose proof (Z.mod_pos_bound a 600).
  destruct (Z.ltb_spec 0 (a mod 600)); lia.
Qed.

Lemma calculateCustomTizo_cache_empty (fuel : nat) (a : Z) (st : state) :
  cache_empty st ->
  calculateCustomTizo fuel a st = Returned (residual_step (base_step a)) st.
Proof.
  intros [H|H];
    [apply calculateCustomTizo_null | apply calculateCustomTizo_empty]; exact H.
Qed.

(** ** The documented amounts *)

(** C6: whatever the cache holds, 0 Rb gives 0 Tizo, 600 Rb gives 1200 and
    1200 Rb gives 2400: the base tier leaves nothing for the cache to act
    on. *)
Theorem base_unit_amounts (fuel : nat) (st : state) :
  calculateCustomTizo fuel 0 st = Returned 0 st /\
  calculateCustomTizo fuel 600 st = Returned 1200 st /\
  calculateCustomTizo fuel 1200 st = Returned 2400 st.
Proof.
  repeat split;
    rewrite calculateCustomTizo_nothing_left by (vm_compute; discriminate);
    reflexivity.
Qed.

(** Computed exactly on integers: with an empty or never loaded cache, a
    non-negative amount [a] gives
    [floor(a/600) * 1200 + a mod 600], the call returns and the state is
    untouched. *)
Lemma empty_cache_falls_through (fuel : nat) (a : Z) (st : state) :
  0 <= a -> cache_empty st ->
  calculateCustomTizo fuel a st = Returned (a / 600 * 1200 + a mod 600) st.
Proof.
  intros Ha He. rewrite calculateCustomTizo_cache_empty by exact He.
  rewrite residual_base_step by exact Ha. reflexivity.
Qed.


(** C2 (as the code has it): a negative amount is not rejected; the call
    returns 0 whatever the cache holds, and leaves the state untouched. *)
Theorem negative_amount_returns_zero (fuel : nat) (a : Z) (st : state) :
  a < 0 -> calculateCustomTizo fuel a st = Returned 0 st.
Proof.
  intros Ha.
  rewrite calculateCustomTizo_nothing_left
    by (rewrite base_step_negative by exact Ha; simpl; lia).
  rewrite base_step_negative by exact Ha.
  unfold residual_step. simpl.
  destruct (Z.ltb_spec 0 a); [lia | reflexivity].
Qed.

Lemma negative_amount_example :
  -5 < 0 /\
  calculateCustomTizo 3 (-5) (state_with_cache [offer_40; offer_550]) =
  Returned 0 (state_with_cache [offer_40; offer_550]).
Proof.
  assert (Ha : -5 < 0) by lia.
  split; [exact Ha|].
  exact (negative_amount_returns_zero 3 (-5) _ Ha).
Defined.

(** C2 (as the spec has it) fails: for the amount -1 the call returns a
    number, 0; nothing is thrown. *)
Lemma negative_amount_not_rejected :
  calculateCustomTizo 0 (-1) initial_state = Returned 0 initial_state /\
  ~ (exists message st, calculateCustomTizo 0 (-1) initial_state = Thrown message st).
Proof.
  split; [reflexivity|].
  intros (message & st & H). vm_compute in H. discriminate.
Qed.

(** ** Never less than the amount *)

Lemma bonus_only_value (fuel : nat) (a v : Z) (st : state)
    (elements : list offer) :
  0 <= a -> snapshot st = Some elements -> bonus_only elements ->
  returned_value (calculateCustomTizo fuel a st) = Some v -> a <= v.
Proof.
  intros Ha Hs Hb.
  assert (Hbase : a <= residual_step (base_step a)).
  { pose proof (base_step_sum a Ha).
    pose proof (residual_step_sum (base_step a)). lia. }
  destruct (Z.lt_ge_cases 0 (remaining (base_step a))) as [Hrem|Hrem].
  2:{ rewrite calculateCustomTizo_nothing_left by exact Hrem.
      intros [= <-]. exact Hbase. }
  destruct elements as [|e elements].
  { rewrite calculateCustomTizo_empty by exact Hs. intros [= <-]. exact Hbase. }
  rewrite (calculateCustomTizo_greedy fuel a st (e :: elements) Hs) by
    (discriminate || exact Hrem).
  destruct (for_of fuel (validOffers_of (e :: elements)) (base_step a))
    as [s|] eqn:E; [|discriminate].
  intros [= <-].
  apply for_of_bonus in E; [|apply validOffers_of_Forall; exact Hb].
  pose proof (base_step_sum a Ha). pose proof (residual_step_sum s). lia.
Qed.

(** With positive units and a non-negative amount the call returns, for any
    fuel from 600 on: what remains after step 1 is below 600. *)
Lemma positive_units_returns (fuel : nat) (a : Z) (st : state)
    (elements : list offer) :
  0 <= a -> snapshot st = Some elements -> positive_units elements ->
  (600 <= fuel)%nat ->
  exists v st', calculateCustomTizo fuel a st = Returned v st'.
Proof.
  intros Ha Hs Hp Hfuel.
  destruct (Z.lt_ge_cases 0 (remaining (base_step a))) as [Hrem|Hrem].
  2:{ rewrite calculateCustomTizo_nothing_left by exact Hrem. eauto. }
  destruct elements as [|e elements].
  { rewrite calculateCustomTizo_empty by exact Hs. eauto. }
  rewrite (calculateCustomTizo_greedy fuel a st (e :: elements) Hs) by
    (discriminate || exact Hrem).
  pose proof (base_step_remaining a Ha) as Hr.
  destruct (for_of_terminates fuel (validOffers_of (e :: elements)) (base_step a))
    as (s & E & _).
  - apply validOffers_of_Forall. exact Hp.
  - lia.
  - lia.
  - rewrite E. eauto.
Qed.

(** C5: for a non-negative amount the credit is never below the amount:
    with an empty cache the call returns such a credit; with a cache of
    bonus-only offers every credit a call returns is such, and a call
    returns one when the offers take positive amounts, as the rows of the
    rate table do. *)
Theorem credit_at_least_amount (a : Z) (st : state) :
  0 <= a ->
  (cache_empty st ->
   forall fuel, exists v,
     calculateCustomTizo fuel a st = Returned v st /\ a <= v) /\
  (forall elements,
     snapshot st = Some elements -> bonus_only elements ->
     (forall fuel v,
        returned_value (calculateCustomTizo fuel a st) = Some v -> a <= v) /\
     (positive_units elements ->
      forall fuel, (600 <= fuel)%nat ->
        exists v, returned_value (calculateCustomTizo fuel a st) = Some v /\
                  a <= v)).
Proof.
  intros Ha. split.
  - intros He fuel. exists (a / 600 * 1200 + a mod 600). split.
    + rewrite calculateCustomTizo_cache_empty by exact He.
      rewrite residual_base_step by exact Ha. reflexivity.
    + pose proof (Z.div_mod a 600). pose proof (Z.div_pos a 600). lia.
  - intros elements Hs Hb. split.
    + intros fuel v. eapply bonus_only_value; eassumption.
    + intros Hp fuel Hfuel.
      destruct (positive_units_returns fuel a st elements Ha Hs Hp Hfuel)
        as (v & st' & E).
      exists v. split; [rewrite E; reflexivity|].
      apply (bonus_only_value fuel a v st elements Ha Hs Hb).
      rewrite E. reflexivity.
Qed.

Lemma credit_at_least_amount_example :
  0 <= 1790 /\
  exists v,
    returned_value
      (calculateCustomTizo 600 1790 (state_with_cache [offer_40; offer_550]))
    = Some v /\ 1790 <= v.
Proof.
  assert (Ha : 0 <= 1790) by lia.
  split; [exact Ha|].
  destruct (credit_at_least_amount 1790
              (state_with_cache [offer_40; offer_550]) Ha) as [_ H].
  destruct (H [offer_40; offer_550]) as [_ H'].
  - reflexivity.
  - repeat constructor; simpl; lia.
  - apply H'.
    + repeat constructor; simpl; lia.
    + lia.
Defined.

(** ** Offers at or above the base *)

Lemma validOffers_of_below_base_only (elements : list offer) :
  validOffers_of (below_base_only elements) = validOffers_of elements.
Proof.
  unfold validOffers_of, below_base_only. f_equal.
  induction elements as [|o l IH]; simpl; [reflexivity|].
  destruct (Z.leb_spec 600 (topup_rb o)) as [Hge|Hlt]; simpl.
  - destruct (Z.ltb_spec (topup_rb o) 600); [lia | exact IH].
  - destruct (Z.ltb_spec (topup_rb o) 600); [rewrite IH; reflexivity | lia].
Qed.

Lemma calculateCustomTizo_value (fuel : nat) (a : Z) (st : state)
    (elements : list offer) :
  snapshot st = Some elements ->
  returned_value (calculateCustomTizo fuel a st) =
  if 0 <? remaining (base_step a)
  then option_map residual_step
         (for_of fuel (validOffers_of elements) (base_step a))
  else Some (residual_step (base_step a)).
Proof.
  intros Hs.
  destruct (Z.ltb_spec 0 (remaining (base_step a))) as [Hrem|Hrem].
  2:{ rewrite calculateCustomTizo_nothing_left by exact Hrem. reflexivity. }
  destruct elements as [|e elements].
  { rewrite calculateCustomTizo_empty by exact Hs. reflexivity. }
  rewrite (calculateCustomTizo_greedy fuel a st (e :: elements) Hs) by
    (discriminate || exact Hrem).
  destruct (for_of fuel (validOffers_of (e :: elements)) (base_step a));
    reflexivity.
Qed.

(** C7: offers with [topup_rb >= 600] are never applied: on a cache and on
    the same cache without them, a call gives the same result (the same
    credit, or no return in both). *)
Theorem offers_at_or_above_base_ignored (fuel : nat) (a : Z) (st st' : state)
    (elements : list offer) :
  snapshot st = Some elements ->
  snapshot st' = Some (below_base_only elements) ->
  returned_value (calculateCustomTizo fuel a st) =
  returned_value (calculateCustomTizo fuel a st').
Proof.
  intros Hs Hs'.
  rewrite (calculateCustomTizo_value fuel a st elements Hs).
  rewrite (calculateCustomTizo_value fuel a st' _ Hs').
  rewrite validOffers_of_below_base_only. reflexivity.
Qed.

Lemma offers_at_or_above_base_ignored_example :
  let elements := [offer_40; offer_550;
                   {| topup_rb := 600; tizo_value := 1200 |};
                   {| topup_rb := 1000; tizo_value := 2100 |}] in
  snapshot (state_with_cache elements) = Some elements /\
  snapshot (state_with_cache [offer_40; offer_550]) =
    Some (below_base_only elements) /\
  returned_value (calculateCustomTizo 20 1790 (state_with_cache elements)) =
  returned_value
    (calculateCustomTizo 20 1790 (state_with_cache [offer_40; offer_550])).
Proof.
  intros elements.
  assert (Hs : snapshot (state_with_cache elements) = Some elements)
    by reflexivity.
  assert (Hs' : snapshot (state_with_cache [offer_40; offer_550]) =
                Some (below_base_only elements)) by reflexivity.
  split; [exact Hs|]. split; [exact Hs'|].
  exact (offers_at_or_above_base_ignored 20 1790 _ _ elements Hs Hs').
Defined.

(** ** Termination *)

Lemma nonpositive_unit_diverges (fuel : nat) (a : Z) (st : state)
    (elements : list offer) (o : offer) :
  0 <= a -> snapshot st = Some elements ->
  In o elements -> topup_rb o <= 0 -> 0 < a mod 600 ->
  calculateCustomTizo fuel a st = Diverged.
Proof.
  intros Ha Hs Hin Ho Hmod.
  assert (Hrem : remaining (base_step a) = a mod 600)
    by (rewrite base_step_nonneg by exact Ha; reflexivity).
  rewrite (calculateCustomTizo_greedy fuel a st elements Hs).
  - rewrite (for_of_diverges fuel (validOffers_of elements) o); try assumption.
    + reflexivity.
    + apply validOffers_of_In. split; [exact Hin | lia].
    + lia.
  - intros ->. destruct Hin.
  - lia.
Qed.

(** C10: for a non-negative amount and a cache whose offers all take a
    positive amount, the call returns (any fuel from 600 on is enough), and
    every iteration of the inner loop lowers [remaining]. Positivity is
    needed: with an offer of [topup_rb <= 0] in the cache and an amount that
    is no multiple of 600, the call never returns. *)
Theorem converter_terminates (a : Z) (st : state) (elements : list offer) :
  0 <= a -> snapshot st = Some elements ->
  (positive_units elements ->
   (forall fuel, (600 <= fuel)%nat ->
      exists v st', calculateCustomTizo fuel a st = Returned v st') /\
   (forall o s, In o elements ->
      remaining (while_body o s) < remaining s)) /\
  (forall o, In o elements -> topup_rb o <= 0 -> 0 < a mod 600 ->
     forall fuel, calculateCustomTizo fuel a st = Diverged).
Proof.
  intros Ha Hs. split.
  - intros Hp. split.
    + intros fuel Hfuel. eapply positive_units_returns; eassumption.
    + intros o s Hin. apply while_body_decreases.
      exact (proj1 (List.Forall_forall _ elements) Hp o Hin).
  - intros o Hin Ho Hmod fuel.
    eapply nonpositive_unit_diverges; eassumption.
Qed.

Lemma converter_terminates_example :
  0 <= 1790 /\
  snapshot (state_with_cache [offer_40; offer_550]) = Some [offer_40; offer_550] /\
  positive_units [offer_40; offer_550] /\
  exists v st',
    calculateCustomTizo 600 1790 (state_with_cache [offer_40; offer_550]) =
    Returned v st'.
Proof.
  assert (Ha : 0 <= 1790) by lia.
  assert (Hp : positive_units [offer_40; offer_550])
    by (repeat constructor; simpl; lia).
  split; [exact Ha|]. split; [reflexivity|]. split; [exact Hp|].
  destruct (converter_terminates 1790 (state_with_cache [offer_40; offer_550])
              [offer_40; offer_550] Ha eq_refl) as [H _].
  destruct (H Hp) as [Hret _].
  apply Hret. lia.
Defined.

(** ** Determinism *)

Lemma wf_snapshot_None (st : state) :
  wf_state st -> snapshot st = None -> upsellOffersCache st = None.
Proof.
  intros Hwf. unfold snapshot.
  destruct (upsellOffersCache st) as [ref|] eqn:Hc; [|reflexivity].
  destruct (Hwf ref Hc) as [arr Harr]. rewrite Harr. discriminate.
Qed.

Lemma calculateCustomTizo_value_wf (fuel : nat) (a : Z) (st : state) :
  wf_state st ->
  returned_value (calculateCustomTizo fuel a st) =
  match snapshot st with
  | Some elements =>
      if 0 <? remaining (base_step a)
      then option_map residual_step
             (for_of fuel (validOffers_of elements) (base_step a))
      else Some (residual_step (base_step a))
  | None => Some (residual_step (base_step a))
  end.
Proof.
  intros Hwf. destruct (snapshot st) as [elements|] eqn:Hs.
  - apply calculateCustomTizo_value. exact Hs.
  - rewrite calculateCustomTizo_null by (apply wf_snapshot_None; assumption).
    reflexivity.
Qed.

Lemma calculateCustomTizo_fuel_mono (fuel fuel' : nat) (a v : Z)
    (st st1 : state) :
  wf_state st -> (fuel <= fuel')%nat ->
  calculateCustomTizo fuel a st = Returned v st1 ->
  calculateCustomTizo fuel' a st = Returned v st1.
Proof.
  intros Hwf Hle.
  destruct (calculateCustomTizo_cases fuel a st Hwf)
    as [E|(elements & Hs & Hne & Hrem & E)].
  - rewrite E. intros [= <- <-].
    destruct (calculateCustomTizo_cases fuel' a st Hwf)
      as [E'|(elements' & Hs' & Hne' & Hrem' & E')]; [exact E'|].
    exfalso. clear E'.
    destruct (Z.lt_ge_cases 0 (remaining (base_step a))) as [_|]; [|lia].
    destruct elements' as [|e l]; [congruence|].
    rewrite (calculateCustomTizo_greedy fuel a st (e :: l) Hs') in E
      by (discriminate || exact Hrem').
    destruct (for_of fuel (validOffers_of (e :: l)) (base_step a));
      [|discriminate].
    injection E as _ E. apply (f_equal heap) in E. cbn in E.
    apply (f_equal (@length _)) in E. rewrite length_app in E. simpl in E. lia.
  - rewrite E.
    destruct (for_of fuel (validOffers_of elements) (base_step a))
      as [s|] eqn:F; [|discriminate].
    intros [= <- <-].
    rewrite (calculateCustomTizo_greedy fuel' a st elements Hs Hne Hrem).
    rewrite (for_of_fuel_mono fuel fuel' _ _ _ F Hle). reflexivity.
Qed.

(** A call leaves behind a state in which the cache variable, every array
    that existed and the console are as they were. *)
Lemma calculateCustomTizo_preserves (fuel : nat) (a v : Z) (st st1 : state) :
  wf_state st ->
  calculateCustomTizo fuel a st = Returned v st1 ->
  upsellOffersCache st1 = upsellOffersCache st /\
  snapshot st1 = snapshot st /\
  console st1 = console st /\
  (forall ref arr, heap st !! ref = Some arr -> heap st1 !! ref = Some arr) /\
  wf_state st1.
Proof.
  intros Hwf.
  destruct (calculateCustomTizo_cases fuel a st Hwf)
    as [E|(elements & Hs & Hne & Hrem & E)]; rewrite E.
  - intros [= <- <-]. repeat split; auto.
  - destruct (for_of fuel (validOffers_of elements) (base_step a));
      [|discriminate].
    intros [= <- <-]. repeat split.
    + rewrite Hs. apply after_greedy_pass_snapshot. exact Hs.
    + intros ref arr. apply lookup_app_l_Some.
    + apply wf_after_greedy_pass. exact Hwf.
Qed.

(** C9: the result of a call is fixed by the amount and the snapshot of the
    cache; a call changes nothing that a later call reads (the cache
    variable, its array, every array that existed, the console), so a second
    call with the same amount returns the same credit; and the credit does
    not depend on the fuel. The call takes no answer of the database: it
    fetches nothing. *)
Theorem calculateCustomTizo_deterministic (fuel : nat) (a : Z) (st : state) :
  wf_state st ->
  (forall st', wf_state st' -> snapshot st' = snapshot st ->
     returned_value (calculateCustomTizo fuel a st') =
     returned_value (calculateCustomTizo fuel a st)) /\
  (forall v st1, calculateCustomTizo fuel a st = Returned v st1 ->
     upsellOffersCache st1 = upsellOffersCache st /\
     snapshot st1 = snapshot st /\
     console st1 = console st /\
     (forall ref arr, heap st !! ref = Some arr -> heap st1 !! ref = Some arr) /\
     (exists st2, calculateCustomTizo fuel a st1 = Returned v st2) /\
     (forall fuel', (fuel <= fuel')%nat ->
        calculateCustomTizo fuel' a st = Returned v st1)).
Proof.
  intros Hwf. split.
  - intros st' Hwf' Hs.
    rewrite !calculateCustomTizo_value_wf by assumption.
    rewrite Hs. reflexivity.
  - intros v st1 E.
    destruct (calculateCustomTizo_preserves fuel a v st st1 Hwf E)
      as (Hc & Hs & Hcons & Hheap & Hwf1).
    repeat split; try assumption.
    + assert (Hv : returned_value (calculateCustomTizo fuel a st1) = Some v).
      { rewrite calculateCustomTizo_value_wf by exact Hwf1.
        rewrite Hs, <- calculateCustomTizo_value_wf by exact Hwf.
        rewrite E. reflexivity. }
      destruct (calculateCustomTizo fuel a st1) as [v' st2| |];
        try discriminate.
      injection Hv as ->. exists st2. reflexivity.
    + intros fuel' Hle. eapply calculateCustomTizo_fuel_mono; eassumption.
Qed.

Lemma wf_state_with_cache (rows : list offer) : wf_state (state_with_cache rows).
Proof.
  intros ref H. injection H as <-. exists rows. reflexivity.
Qed.

Lemma calculateCustomTizo_twice :
  wf_state (state_with_cache [offer_40; offer_550]) /\
  exists st1 st2,
    calculateCustomTizo 5 1790 (state_with_cache [offer_40; offer_550]) =
    Returned 3460 st1 /\
    calculateCustomTizo 5 1790 st1 = Returned 3460 st2.
Proof.
  pose proof (wf_state_with_cache [offer_40; offer_550]) as Hwf.
  split; [exact Hwf|].
  destruct (calculateCustomTizo_deterministic 5 1790 _ Hwf) as [_ H].
  destruct (H 3460 _ eq_refl) as (_ & _ & _ & _ & [st2 E] & _).
  eexists. exists st2. split; [reflexivity | exact E].
Defined.

(** ** The documented example *)

Lemma for_of_skips (fuel : nat) (l : list offer) (s : locals) :
  Forall (fun o => remaining s < topup_rb o) l -> for_of fuel l s = Some s.
Proof.
  induction 1 as [|o l Ho Hl IH]; simpl; [reflexivity|].
  rewrite while_loop_skips by exact Ho. exact IH.
Qed.

Lemma example_offer_positive (o : offer) : example_offer o -> 0 < topup_rb o.
Proof.
  unfold example_offer, fits_nowhere.
  intros [->|[->|H]]; simpl; lia.
Qed.

Lemma example_after_40 (fuel : nat) (l : list offer) :
  Forall example_offer l ->
  for_of fuel l {| totalTizo := 3460; remaining := 0 |} =
  Some {| totalTizo := 3460; remaining := 0 |}.
Proof.
  intros H. apply for_of_skips. simpl.
  eapply List.Forall_impl; [|exact H]. exact example_offer_positive.
Qed.

Lemma example_after_550 (fuel : nat) (l : list offer) :
  (1 <= fuel)%nat -> StronglySorted descending l ->
  Forall example_offer l -> Forall (fun o => topup_rb o <= 550) l ->
  In offer_40 l ->
  for_of fuel l {| totalTizo := 3420; remaining := 40 |} =
  Some {| totalTizo := 3460; remaining := 0 |}.
Proof.
  intros Hfuel Hsorted. induction Hsorted as [|o l Hl IH Ho];
    intros Hex Hle Hin; [destruct Hin|].
  inversion Hex as [|? ? Hex_o Hex_l]; subst.
  inversion Hle as [|? ? Hle_o Hle_l]; subst.
  simpl.
  assert (Htail : o <> offer_40 -> topup_rb o < 40 -> False).
  { intros Hne Hlt. destruct Hin as [E|Hin]; [congruence|].
    pose proof (proj1 (List.Forall_forall _ l) Ho _ Hin) as H.
    unfold descending in H. simpl in H. lia. }
  destruct Hex_o as [->|[->|Hfit]].
  - rewrite while_loop_skips by (simpl; lia).
    apply IH; try assumption.
    destruct Hin as [E|Hin]; [discriminate | exact Hin].
  - destruct fuel as [|fuel]; [lia|].
    rewrite while_loop_eq. cbn -[while_loop].
    rewrite while_loop_skips by (simpl; lia).
    apply example_after_40. exact Hex_l.
  - unfold fits_nowhere in Hfit.
    destruct (Z.lt_ge_cases (topup_rb o) 40) as [Hlt|Hge].
    + exfalso. apply Htail; [|exact Hlt]. intros ->. simpl in Hlt. lia.
    + rewrite while_loop_skips by (simpl; lia).
      apply IH; try assumption.
      destruct Hin as [E|Hin]; [|exact Hin].
      subst o. simpl in Hfit. lia.
Qed.

Lemma example_from_590 (fuel : nat) (l : list offer) :
  (1 <= fuel)%nat -> StronglySorted descending l ->
  Forall example_offer l -> In offer_550 l -> In offer_40 l ->
  for_of fuel l {| totalTizo := 2400; remaining := 590 |} =
  Some {| totalTizo := 3460; remaining := 0 |}.
Proof.
  intros Hfuel Hsorted. induction Hsorted as [|o l Hl IH Ho];
    intros Hex H550 H40; [destruct H40|].
  inversion Hex as [|? ? Hex_o Hex_l]; subst.
  simpl.
  assert (Htail : o <> offer_550 -> topup_rb o < 550 -> False).
  { intros Hne Hlt. destruct H550 as [E|Hin]; [congruence|].
    pose proof (proj1 (List.Forall_forall _ l) Ho _ Hin) as H.
    unfold descending in H. simpl in H. lia. }
  destruct Hex_o as [->|[->|Hfit]].
  - destruct fuel as [|fuel]; [lia|].
    rewrite while_loop_eq. cbn -[while_loop].
    rewrite while_loop_skips by (simpl; lia).
    apply example_after_550; try assumption; try lia.
    destruct H40 as [E|Hin]; [discriminate | exact Hin].
  - exfalso. apply Htail; [discriminate | simpl; lia].
  - unfold fits_nowhere in Hfit.
    destruct (Z.lt_ge_cases 590 (topup_rb o)) as [Hgt|Hle].
    + rewrite while_loop_skips by (simpl; lia).
      apply IH; try assumption.
      * destruct H550 as [E|Hin]; [|exact Hin]. subst o. simpl in Hgt. lia.
      * destruct H40 as [E|Hin]; [|exact Hin]. subst o. simpl in Hgt. lia.
    + exfalso. apply Htail; [|lia]. intros ->. simpl in Hfit. lia.
Qed.

(** C1: with the offers 550 -> 1020 and 40 -> 40 in the cache, and any other
    offers that do not fit what remains at their turn, 1790 Rb gives exactly
    3460 Tizo: twice the base (2400), the 550 offer (1020) and the 40 offer
    (40). One iteration of fuel is enough. *)
Theorem documented_example (fuel : nat) (st : state) (elements : list offer) :
  (1 <= fuel)%nat ->
  snapshot st = Some elements ->
  In offer_550 elements -> In offer_40 elements ->
  (forall o, In o elements -> o = offer_550 \/ o = offer_40 \/ fits_nowhere o) ->
  calculateCustomTizo fuel 1790 st =
  Returned 3460 (after_greedy_pass st elements) /\
  3460 = 2 * 1200 + tizo_value offer_550 + tizo_value offer_40.
Proof.
  intros Hfuel Hs H550 H40 Hothers. split; [|reflexivity].
  rewrite (calculateCustomTizo_greedy fuel 1790 st elements Hs).
  - change (base_step 1790) with {| totalTizo := 2400; remaining := 590 |}.
    rewrite (example_from_590 fuel (validOffers_of elements) Hfuel).
    + reflexivity.
    + apply sorted_by_descending.
    + apply validOffers_of_Forall. apply List.Forall_forall. exact Hothers.
    + apply validOffers_of_In. split; [exact H550 | simpl; lia].
    + apply validOffers_of_In. split; [exact H40 | simpl; lia].
  - intros ->. destruct H40.
  - vm_compute. reflexivity.
Qed.

Lemma documented_example_table :
  (1 <= 1)%nat /\
  let table := [ {| topup_rb := 20; tizo_value := 20 |}; offer_40;
                 {| topup_rb := 100; tizo_value := 130 |}; offer_550;
                 {| topup_rb := 595; tizo_value := 1100 |};
                 {| topup_rb := 1000; tizo_value := 2100 |} ] in
  calculateCustomTizo 1 1790 (state_with_cache table) =
  Returned 3460 (after_greedy_pass (state_with_cache table) table).
Proof.
  split; [lia|]. intros table.
  apply (documented_example 1 (state_with_cache table) table).
  - lia.
  - reflexivity.
  - simpl. tauto.
  - simpl. tauto.
  - intros o Hin. unfold fits_nowhere. simpl in Hin.
    destruct Hin as [<-|[<-|[<-|[<-|[<-|[<-|[]]]]]]]; simpl;
      first [left; reflexivity | right; left; reflexivity | right; right; lia].
Defined.

(** ** The loader *)

Lemma loadUpsellOffersCache_rejected (message : string) (st : state) :
  loadUpsellOffersCache (rejects message) st =
  Returned tt (after_failed_load st message).
Proof. reflexivity. Qed.

Lemma loadUpsellOffersCache_resolved (rows : list offer) (st : state) :
  loadUpsellOffersCache (resolves rows) st = Returned tt (after_load st rows).
Proof.
  unfold loadUpsellOffersCache, try_catch, bind, pool_query, array_new,
    assign_upsellOffersCache, read_upsellOffersCache, array_read.
  cbn [heap upsellOffersCache console].
  rewrite list_lookup_middle by reflexivity.
  reflexivity.
Qed.

Lemma after_load_snapshot (st : state) (rows : list offer) :
  snapshot (after_load st rows) = Some rows.
Proof.
  unfold snapshot, after_load. cbn [heap upsellOffersCache].
  apply list_lookup_middle. reflexivity.
Qed.

Lemma wf_after_load (st : state) (rows : list offer) :
  wf_state (after_load st rows).
Proof.
  intros ref H. cbn in H. injection H as <-.
  exists rows. apply (after_load_snapshot st rows).
Qed.

Lemma wf_after_failed_load (st : state) (message : string) :
  wf_state st -> wf_state (after_failed_load st message).
Proof. intros Hwf ref H. exact (Hwf ref H). Qed.

Lemma calculateCustomTizo_dangling (fuel : nat) (a : Z) (st : state)
    (ref : nat) :
  upsellOffersCache st = Some ref -> heap st !! ref = None ->
  0 < remaining (base_step a) ->
  calculateCustomTizo fuel a st = Thrown "TypeError" st.
Proof.
  intros Hc Hh Hrem.
  unfold calculateCustomTizo, bind, read_upsellOffersCache, array_read.
  destruct (Z.ltb_spec 0 (remaining (base_step a))); [|lia].
  rewrite Hc, Hh. reflexivity.
Qed.

(** The converter reads the cache variable and the heap, not the console. *)
Lemma calculateCustomTizo_reads (fuel : nat) (a : Z) (st st' : state) :
  heap st' = heap st -> upsellOffersCache st' = upsellOffersCache st ->
  returned_value (calculateCustomTizo fuel a st') =
  returned_value (calculateCustomTizo fuel a st).
Proof.
  intros Hh Hc.
  destruct (Z.lt_ge_cases 0 (remaining (base_step a))) as [Hrem|Hrem].
  2:{ rewrite !calculateCustomTizo_nothing_left by exact Hrem. reflexivity. }
  destruct (upsellOffersCache st) as [ref|] eqn:E.
  2:{ rewrite !calculateCustomTizo_null by congruence. reflexivity. }
  destruct (heap st !! ref) as [elements|] eqn:F.
  - rewrite (calculateCustomTizo_value fuel a st elements)
      by (unfold snapshot; rewrite E; exact F).
    rewrite (calculateCustomTizo_value fuel a st' elements)
      by (unfold snapshot; rewrite Hc, Hh; exact F).
    reflexivity.
  - rewrite (calculateCustomTizo_dangling fuel a st ref) by assumption.
    rewrite (calculateCustomTizo_dangling fuel a st' ref) by congruence.
    reflexivity.
Qed.

(** C3 (as the code has it): when the query is rejected, the loader catches
    the error and writes it on the console; the call completes normally,
    nothing is thrown to the caller. The cache variable and every array are
    as before the call, so the snapshot and every later conversion are the
    same as before. *)
Theorem failed_load_keeps_cache (message : string) (st : state) :
  loadUpsellOffersCache (rejects message) st =
    Returned tt (after_failed_load st message) /\
  upsellOffersCache (after_failed_load st message) = upsellOffersCache st /\
  heap (after_failed_load st message) = heap st /\
  snapshot (after_failed_load st message) = snapshot st /\
  console (after_failed_load st message) = console st ++ [log_failed message] /\
  (forall fuel a,
     returned_value (calculateCustomTizo fuel a (after_failed_load st message)) =
     returned_value (calculateCustomTizo fuel a st)).
Proof.
  repeat split.
  intros fuel a. apply calculateCustomTizo_reads; reflexivity.
Qed.

(** C3 (as the spec has it) fails: a rejected query is not signalled to the
    caller; the call returns. *)
Lemma failed_load_not_signalled :
  loadUpsellOffersCache (rejects "connect ECONNREFUSED")
    (state_with_cache [offer_40; offer_550]) =
  Returned tt
    {| heap := [[offer_40; offer_550]];
       upsellOffersCache := Some 0%nat;
       console := [log_failed "connect ECONNREFUSED"] |} /\
  ~ (exists message st,
       loadUpsellOffersCache (rejects "connect ECONNREFUSED")
         (state_with_cache [offer_40; offer_550]) = Thrown message st).
Proof.
  split; [reflexivity|].
  intros (message & st & H). discriminate H.
Qed.

(** C8: when the query resolves, the cache holds exactly its rows: the rows
    of the table by ascending [topup_rb], as the database returned them. The
    cache variable is assigned once, to a new array; no array that existed
    is changed, and what the cache held before plays no part. *)
Theorem successful_load_replaces_cache (table rows : list offer) (st : state) :
  select_order_by_topup_rb table rows ->
  loadUpsellOffersCache (resolves rows) st = Returned tt (after_load st rows) /\
  snapshot (after_load st rows) = Some rows /\
  (forall cached, snapshot (after_load st rows) = Some cached ->
     Permutation table cached /\
     StronglySorted (fun a b => topup_rb a <= topup_rb b) cached) /\
  (forall ref arr, heap st !! ref = Some arr ->
     heap (after_load st rows) !! ref = Some arr) /\
  (forall st', snapshot (after_load st' rows) = snapshot (after_load st rows)).
Proof.
  intros Hq. split; [apply loadUpsellOffersCache_resolved|].
  split; [apply after_load_snapshot|].
  split; [|split].
  - intros cached. rewrite after_load_snapshot. intros [= <-]. exact Hq.
  - intros ref arr. apply lookup_app_l_Some.
  - intros st'. rewrite !after_load_snapshot. reflexivity.
Qed.

Lemma successful_load_example :
  select_order_by_topup_rb [offer_550; offer_40] [offer_40; offer_550] /\
  snapshot (after_load (state_with_cache [offer_550]) [offer_40; offer_550]) =
  Some [offer_40; offer_550].
Proof.
  assert (Hq : select_order_by_topup_rb [offer_550; offer_40] [offer_40; offer_550]).
  { split.
    - apply perm_swap.
    - repeat constructor; simpl; lia. }
  split; [exact Hq|].
  exact (proj1 (proj2 (successful_load_replaces_cache
                         [offer_550; offer_40] [offer_40; offer_550]
                         (state_with_cache [offer_550]) Hq))).
Defined.

(** ** More on the converter *)

(** What a call returns, for any state. *)
Lemma calculateCustomTizo_returned (fuel : nat) (a : Z) (st : state) :
  returned_value (calculateCustomTizo fuel a st) =
  if 0 <? remaining (base_step a)
  then match upsellOffersCache st with
       | None => Some (residual_step (base_step a))
       | Some ref =>
           match heap st !! ref with
           | Some elements =>
               option_map residual_step
                 (for_of fuel (validOffers_of elements) (base_step a))
           | None => None
           end
       end
  else Some (residual_step (base_step a)).
Proof.
  destruct (Z.ltb_spec 0 (remaining (base_step a))) as [Hrem|Hrem].
  2:{ rewrite calculateCustomTizo_nothing_left by exact Hrem. reflexivity. }
  destruct (upsellOffersCache st) as [ref|] eqn:E.
  2:{ rewrite calculateCustomTizo_null by exact E. reflexivity. }
  destruct (heap st !! ref) as [elements|] eqn:F.
  - rewrite (calculateCustomTizo_value fuel a st elements)
      by (unfold snapshot; rewrite E; exact F).
    destruct (Z.ltb_spec 0 (remaining (base_step a))); [reflexivity | lia].
  - rewrite (calculateCustomTizo_dangling fuel a st ref) by assumption.
    reflexivity.
Qed.

Lemma while_loop_add_credit (fuel : nat) (o : offer) (d : Z) (s : locals) :
  while_loop fuel o (add_credit d s) =
  option_map (add_credit d) (while_loop fuel o s).
Proof.
  revert s. induction fuel as [|fuel IH]; intros s;
    rewrite (while_loop_eq _ o (add_credit d s)), (while_loop_eq _ o s);
    unfold while_test; cbn [add_credit remaining];
    destruct (topup_rb o <=? remaining s); try reflexivity.
  replace (while_body o (add_credit d s)) with (add_credit d (while_body o s))
    by (unfold while_body, add_credit; simpl; f_equal; lia).
  apply IH.
Qed.

Lemma for_of_add_credit (fuel : nat) (l : list offer) (d : Z) (s : locals) :
  for_of fuel l (add_credit d s) = option_map (add_credit d) (for_of fuel l s).
Proof.
  revert s. induction l as [|o l IH]; intros s; simpl; [reflexivity|].
  rewrite while_loop_add_credit.
  destruct (while_loop fuel o s) as [s1|]; simpl; [apply IH | reflexivity].
Qed.

Lemma residual_step_add_credit (d : Z) (s : locals) :
  residual_step (add_credit d s) = residual_step s + d.
Proof.
  unfold residual_step, add_credit. simpl.
  destruct (0 <? remaining s); lia.
Qed.

Lemma base_step_add_600 (a k : Z) :
  0 <= a -> 0 <= k ->
  base_step (a + 600 * k) = add_credit (1200 * k) (base_step a).
Proof.
  intros Ha Hk. rewrite !base_step_nonneg by lia.
  replace (a + 600 * k) with (a + k * 600) by lia.
  rewrite Z.div_add, Z.mod_add by lia.
  unfold add_credit. simpl. f_equal. lia.
Qed.

(** Computed exactly on integers, 600 Rb more is 1200 Tizo more: for
    non-negative [a] and [k], the
    call for [a + 600 k] ends as the call for [a] does, with [1200 k] more
    credit. *)
Lemma base_tier_periodic (fuel : nat) (a k : Z) (st : state) :
  0 <= a -> 0 <= k ->
  returned_value (calculateCustomTizo fuel (a + 600 * k) st) =
  option_map (fun v => v + 1200 * k)
    (returned_value (calculateCustomTizo fuel a st)).
Proof.
  intros Ha Hk. rewrite !calculateCustomTizo_returned.
  rewrite base_step_add_600 by assumption.
  cbn [add_credit remaining].
  destruct (0 <? remaining (base_step a)).
  - destruct (upsellOffersCache st) as [ref|].
    + destruct (heap st !! ref) as [elements|]; [|reflexivity].
      rewrite for_of_add_credit.
      destruct (for_of fuel (validOffers_of elements) (base_step a));
        simpl; [|reflexivity].
      rewrite residual_step_add_credit. reflexivity.
    + simpl. rewrite residual_step_add_credit. reflexivity.
  - simpl. rewrite residual_step_add_credit. reflexivity.
Qed.


(** Computed exactly on integers: when every cached offer takes more than
    what is left after the base tier, nothing of the cache applies: the
    credit is
    [floor(a/600) * 1200 + a mod 600]. *)
Lemma amount_below_every_unit (fuel : nat) (a : Z) (st : state)
    (elements : list offer) :
  0 <= a -> snapshot st = Some elements ->
  Forall (fun o => a mod 600 < topup_rb o) elements ->
  returned_value (calculateCustomTizo fuel a st) =
  Some (a / 600 * 1200 + a mod 600).
Proof.
  intros Ha Hs Hall.
  rewrite (calculateCustomTizo_value fuel a st elements Hs).
  rewrite <- residual_base_step by exact Ha.
  destruct (0 <? remaining (base_step a)); [|reflexivity].
  rewrite for_of_skips; [reflexivity|].
  apply validOffers_of_Forall.
  rewrite base_step_nonneg by exact Ha. exact Hall.
Qed.


(** *** An amount that is a cached unit *)

Lemma sort_insert_find_other (p : offer -> bool) (cmp : offer -> offer -> Z)
    (x : offer) (l : list offer) :
  p x = false -> List.find p (sort_insert cmp x l) = List.find p l.
Proof.
  intros Hx. induction l as [|y l IH]; simpl.
  - rewrite Hx. reflexivity.
  - destruct (0 <? cmp x y); simpl.
    + rewrite IH. reflexivity.
    + rewrite Hx. reflexivity.
Qed.

Lemma sort_insert_find_unit (u : Z) (x : offer) (l : list offer) :
  topup_rb x = u ->
  List.find (fun o => topup_rb o <=? u) (sort_insert by_topup_rb_desc x l)
  = Some x.
Proof.
  intros Hx. induction l as [|y l IH]; simpl.
  - destruct (Z.leb_spec (topup_rb x) u); [reflexivity | lia].
  - unfold by_topup_rb_desc at 1.
    destruct (Z.ltb_spec 0 (topup_rb y - topup_rb x)); simpl.
    + destruct (Z.leb_spec (topup_rb y) u); [lia | exact IH].
    + destruct (Z.leb_spec (topup_rb x) u); [reflexivity | lia].
Qed.

Lemma sort_insert_find_smaller (u : Z) (x o : offer) (l : list offer) :
  topup_rb x < u -> topup_rb o = u ->
  List.find (fun o => topup_rb o <=? u) l = Some o ->
  List.find (fun o => topup_rb o <=? u) (sort_insert by_topup_rb_desc x l)
  = Some o.
Proof.
  intros Hx Ho. induction l as [|y l IH]; simpl; [discriminate|].
  unfold by_topup_rb_desc at 1.
  destruct (Z.leb_spec (topup_rb y) u) as [Hy|Hy].
  - intros [= ->].
    destruct (Z.ltb_spec 0 (topup_rb o - topup_rb x)); [|lia].
    simpl. destruct (Z.leb_spec (topup_rb o) u); [reflexivity | lia].
  - intros H.
    destruct (Z.ltb_spec 0 (topup_rb y - topup_rb x)); [|lia].
    simpl. destruct (Z.leb_spec (topup_rb y) u); [lia | apply IH; exact H].
Qed.

(** In the sorted offers, the first one that fits [u] is the first offer of
    the cache that takes exactly [u], when there is one: the sort is
    stable. *)
Lemma sorted_by_find_unit (u : Z) (o : offer) (l : list offer) :
  List.find (fun o => topup_rb o =? u) l = Some o ->
  List.find (fun o => topup_rb o <=? u) (sorted_by by_topup_rb_desc l) = Some o.
Proof.
  induction l as [|x l IH]; simpl; [discriminate|].
  destruct (Z.eqb_spec (topup_rb x) u) as [Hx|Hx].
  - intros [= <-]. apply sort_insert_find_unit. exact Hx.
  - intros H.
    assert (Ho : topup_rb o = u).
    { apply List.find_some in H. apply Z.eqb_eq. exact (proj2 H). }
    destruct (Z.lt_ge_cases (topup_rb x) u) as [Hlt|Hge].
    + apply sort_insert_find_smaller; [exact Hlt | exact Ho | apply IH, H].
    + rewrite sort_insert_find_other; [apply IH, H|].
      destruct (Z.leb_spec (topup_rb x) u); [lia | reflexivity].
Qed.

Lemma filter_find_unit (u : Z) (l : list offer) :
  u < 600 ->
  List.find (fun o => topup_rb o =? u)
    (List.filter (fun o => topup_rb o <? 600) l) =
  List.find (fun o => topup_rb o =? u) l.
Proof.
  intros Hu. induction l as [|x l IH]; simpl; [reflexivity|].
  destruct (Z.ltb_spec (topup_rb x) 600); simpl.
  - rewrite IH. reflexivity.
  - destruct (Z.eqb_spec (topup_rb x) u); [lia | exact IH].
Qed.

Lemma for_of_exact_unit (fuel : nat) (l : list offer) (o : offer) (t u : Z) :
  (1 <= fuel)%nat -> Forall (fun o => 0 < topup_rb o) l ->
  List.find (fun o => topup_rb o <=? u) l = Some o -> topup_rb o = u ->
  for_of fuel l {| totalTizo := t; remaining := u |} =
  Some {| totalTizo := t + tizo_value o; remaining := 0 |}.
Proof.
  intros Hfuel Hpos. induction Hpos as [|y l Hy Hl IH]; simpl; [discriminate|].
  destruct (Z.leb_spec (topup_rb y) u) as [Hle|Hgt].
  - intros [= ->] Ho.
    destruct fuel as [|fuel]; [lia|].
    rewrite while_loop_eq. unfold while_test. cbn [remaining].
    destruct (Z.leb_spec (topup_rb o) u); [|lia].
    rewrite while_loop_skips by (simpl; lia).
    unfold while_body. cbn [totalTizo remaining].
    replace (u - topup_rb o) with 0 by lia.
    apply for_of_skips. simpl. exact Hl.
  - intros H Ho. rewrite while_loop_skips by (simpl; lia).
    apply IH; assumption.
Qed.

(** Computed exactly on integers: an amount whose rest after the base tier
    is a unit of the cache
    gets the Tizo listed for that unit, from the first row of the cache with
    it: [floor(a/600) * 1200 + tizo_value]. The offers take positive
    amounts. *)
Lemma cached_unit_gets_listed_credit (fuel : nat) (a : Z) (st : state)
    (elements : list offer) (o : offer) :
  (1 <= fuel)%nat -> 0 <= a ->
  snapshot st = Some elements -> positive_units elements ->
  List.find (fun o => topup_rb o =? a mod 600) elements = Some o ->
  returned_value (calculateCustomTizo fuel a st) =
  Some (a / 600 * 1200 + tizo_value o).
Proof.
  intros Hfuel Ha Hs Hpos Hfind.
  assert (Ho : topup_rb o = a mod 600).
  { apply List.find_some in Hfind. apply Z.eqb_eq. exact (proj2 Hfind). }
  assert (Hpos_o : 0 < topup_rb o).
  { apply List.find_some in Hfind.
    exact (proj1 (List.Forall_forall _ elements) Hpos o (proj1 Hfind)). }
  pose proof (Z.mod_pos_bound a 600 ltac:(lia)) as Hmod.
  rewrite (calculateCustomTizo_value fuel a st elements Hs).
  rewrite base_step_nonneg by exact Ha. cbn [remaining].
  destruct (Z.ltb_spec 0 (a mod 600)); [|lia].
  rewrite (for_of_exact_unit fuel (validOffers_of elements) o
             (a / 600 * 1200) (a mod 600) Hfuel).
  - reflexivity.
  - apply validOffers_of_Forall. exact Hpos.
  - unfold validOffers_of. apply sorted_by_find_unit.
    rewrite filter_find_unit by lia. exact Hfind.
  - exact Ho.
Qed.


(** *** What the greedy pass accounts for *)

Lemma while_loop_accounts (fuel : nat) (o : offer) (s s' : locals) :
  while_loop fuel o s = Some s' ->
  exists k, 0 <= k /\ (k = 0 \/ 0 < topup_rb o) /\
    totalTizo s' = totalTizo s + k * tizo_value o /\
    remaining s' = remaining s - k * topup_rb o /\
    remaining s' < topup_rb o.
Proof.
  revert s. induction fuel as [|fuel IH]; intros s;
    rewrite while_loop_eq; unfold while_test;
    destruct (Z.leb_spec (topup_rb o) (remaining s)) as [Hle|Hgt];
    try discriminate;
    try (intros [= <-]; exists 0; repeat split; lia).
  intros H.
  destruct (Z.lt_ge_cases 0 (topup_rb o)) as [Hpos|Hneg].
  - destruct (IH _ H) as (k & Hk & _ & Ht & Hr & Hlt).
    simpl in Ht, Hr. exists (k + 1). repeat split; lia.
  - destruct (IH _ H) as (k & Hk & Hk0 & Ht & Hr & Hlt).
    simpl in Ht, Hr, Hlt. destruct Hk0 as [->|Hpos]; lia.
Qed.

Lemma for_of_accounts (fuel : nat) (l : list offer) (s s' : locals) :
  for_of fuel l s = Some s' ->
  exists ks, length ks = length l /\ Forall (fun k => 0 <= k) ks /\
    0 <= units_taken ks l /\
    totalTizo s' = totalTizo s + credit_given ks l /\
    remaining s' = remaining s - units_taken ks l /\
    Forall (fun o => remaining s' < topup_rb o) l.
Proof.
  revert s. induction l as [|o l IH]; intros s; simpl.
  - intros [= <-]. exists []. simpl. repeat split; try lia; constructor.
  - destruct (while_loop fuel o s) as [s1|] eqn:E; [|discriminate].
    intros H.
    destruct (while_loop_accounts _ _ _ _ E) as (k & Hk & Hk0 & Ht & Hr & Hlt).
    destruct (IH _ H) as (ks & Hlen & Hks & Hu & Ht' & Hr' & Hall).
    exists (k :: ks). simpl.
    assert (0 <= k * topup_rb o) by (destruct Hk0 as [->|Hpos]; nia).
    repeat split; try lia.
    + constructor; assumption.
    + constructor; [lia | exact Hall].
Qed.

(** Computed exactly on integers: with offers that take positive amounts,
    the call for a non-negative
    amount returns, and the amount is accounted for in full:
    [a = 600 q + (units taken by the applied offers) + r] gives
    [1200 q + (their Tizo) + r], where [q = floor(a/600)] and the rest [r],
    counted 1:1, is below the unit of every cached offer under 600. *)
Lemma greedy_pass_accounts (fuel : nat) (a : Z) (st : state)
    (elements : list offer) :
  (600 <= fuel)%nat -> 0 <= a ->
  snapshot st = Some elements -> positive_units elements ->
  exists v ks r,
    returned_value (calculateCustomTizo fuel a st) = Some v /\
    length ks = length (validOffers_of elements) /\
    Forall (fun k => 0 <= k) ks /\
    0 <= r /\
    Forall (fun o => topup_rb o < 600 -> r < topup_rb o) elements /\
    a = 600 * (a / 600) + units_taken ks (validOffers_of elements) + r /\
    v = 1200 * (a / 600) + credit_given ks (validOffers_of elements) + r.
Proof.
  intros Hfuel Ha Hs Hpos.
  pose proof (base_step_remaining a Ha) as Hrem.
  destruct (for_of_terminates fuel (validOffers_of elements) (base_step a))
    as (s' & E & Hs'); try lia.
  { apply validOffers_of_Forall. exact Hpos. }
  destruct (for_of_accounts _ _ _ _ E) as (ks & Hlen & Hks & Hu & Ht & Hr & Hall).
  rewrite base_step_nonneg in Ht, Hr by exact Ha. simpl in Ht, Hr.
  exists (residual_step s'), ks, (remaining s').
  repeat split; try assumption; try lia.
  - rewrite (calculateCustomTizo_value fuel a st elements Hs).
    destruct (Z.ltb_spec 0 (remaining (base_step a))) as [Hlt|Hge].
    + rewrite E. reflexivity.
    + f_equal. assert (H0 : remaining (base_step a) = 0) by lia.
      assert (Hr0 : remaining s' = 0) by lia.
      assert (Hu0 : units_taken ks (validOffers_of elements) = 0).
      { rewrite base_step_nonneg in H0 by exact Ha. simpl in H0. lia. }
      unfold residual_step. rewrite H0, Hr0. simpl.
      rewrite Ht. rewrite base_step_nonneg by exact Ha. simpl.
      assert (Hc : credit_given ks (validOffers_of elements) = 0).
      { clear - Hks Hu0 Hlen Hpos.
        assert (Hp : Forall (fun o => 0 < topup_rb o) (validOffers_of elements))
          by (apply validOffers_of_Forall; exact Hpos).
        revert ks Hks Hu0 Hlen.
        induction Hp as [|o l Ho Hl IH]; intros [|k ks] Hks Hu0 Hlen;
          simpl in *; try reflexivity.
        inversion Hks as [|? ? Hk Hks']; subst.
        assert (Hrest : 0 <= units_taken ks l).
        { clear - Hks' Hl. revert ks Hks'.
          induction Hl as [|o' l' Ho' Hl' IH']; intros [|k' ks'] Hks';
            simpl; try lia.
          inversion Hks'; subst. specialize (IH' ks' ltac:(assumption)). nia. }
        assert (k = 0) by nia. subst k.
        rewrite IH; try assumption; lia. }
      lia.
  - apply List.Forall_forall. intros o Hin Hlt.
    apply (proj1 (List.Forall_forall _ _) Hall o).
    apply validOffers_of_In. split; assumption.
  - pose proof (Z.div_mod a 600 ltac:(lia)). lia.
  - unfold residual_step. destruct (Z.ltb_spec 0 (remaining s')); lia.
Qed.


(** *** The order of the rows in the cache *)

Lemma filter_Permutation_offers (p : offer -> bool) (l l' : list offer) :
  Permutation l l' -> Permutation (List.filter p l) (List.filter p l').
Proof.
  induction 1 as [|x l l' _ IH|x y l|l l' l'' _ IH1 _ IH2]; simpl.
  - apply perm_nil.
  - destruct (p x); [apply perm_skip|]; exact IH.
  - destruct (p x), (p y); try apply Permutation_refl. apply perm_swap.
  - eapply perm_trans; eassumption.
Qed.

Lemma filter_units_NoDup (p : offer -> bool) (l : list offer) :
  List.NoDup (map topup_rb l) -> List.NoDup (map topup_rb (List.filter p l)).
Proof.
  induction l as [|x l IH]; simpl; [intros H; exact H|].
  intros H. inversion H as [|? ? Hx Hl]; subst.
  destruct (p x); simpl; [|apply IH; exact Hl].
  constructor; [|apply IH; exact Hl].
  intros Hin. apply Hx.
  apply List.in_map_iff in Hin. destruct Hin as (y & Hy & Hin).
  apply List.in_map_iff. exists y. split; [exact Hy|].
  apply List.filter_In in Hin. exact (proj1 Hin).
Qed.

(** Two descending lists with the same offers, no unit twice, are equal. *)
Lemma descending_unique (l l' : list offer) :
  StronglySorted descending l -> StronglySorted descending l' ->
  List.NoDup (map topup_rb l) -> Permutation l l' -> l = l'.
Proof.
  intros Hl. revert l'. induction Hl as [|x l Hl IH Hx]; intros l' Hl' Hnd Hperm.
  - apply Permutation_nil in Hperm. symmetry. exact Hperm.
  - destruct l' as [|x' l'].
    { apply Permutation_sym, Permutation_nil in Hperm. discriminate. }
    inversion Hl' as [|? ? Hl'' Hx']; subst.
    inversion Hnd as [|? ? Hnx Hndl]; subst.
    assert (Heq : x = x').
    { assert (Hin : In x (x' :: l'))
        by (eapply Permutation_in; [exact Hperm | left; reflexivity]).
      assert (Hin' : In x' (x :: l))
        by (eapply Permutation_in;
            [apply Permutation_sym; exact Hperm | left; reflexivity]).
      destruct Hin as [E|Hin]; [symmetry; exact E|].
      destruct Hin' as [E|Hin']; [exact E|].
      pose proof (proj1 (List.Forall_forall _ _) Hx' x Hin) as H1.
      pose proof (proj1 (List.Forall_forall _ _) Hx x' Hin') as H2.
      unfold descending in H1, H2.
      exfalso. apply Hnx. apply List.in_map_iff.
      exists x'. split; [lia | exact Hin']. }
    subst x'. f_equal.
    apply IH; try assumption.
    eapply Permutation_cons_inv. exact Hperm.
Qed.

Lemma validOffers_of_Permutation (l l' : list offer) :
  Permutation l l' -> List.NoDup (map topup_rb l) ->
  validOffers_of l = validOffers_of l'.
Proof.
  intros Hperm Hnd. unfold validOffers_of.
  apply descending_unique.
  - apply sorted_by_descending.
  - apply sorted_by_descending.
  - eapply Permutation_NoDup.
    + apply Permutation_map, Permutation_sym, sorted_by_Permutation.
    + apply filter_units_NoDup. exact Hnd.
  - eapply perm_trans; [apply sorted_by_Permutation|].
    eapply perm_trans; [|apply Permutation_sym, sorted_by_Permutation].
    apply filter_Permutation_offers. exact Hperm.
Qed.

(** X5: when no unit occurs twice in the cache, the order of its rows does
    not matter: a call gives the same result on any rearrangement of the
    rows. *)
Theorem row_order_irrelevant (fuel : nat) (a : Z) (st st' : state)
    (elements elements' : list offer) :
  snapshot st = Some elements -> snapshot st' = Some elements' ->
  Permutation elements elements' ->
  List.NoDup (map topup_rb elements) ->
  returned_value (calculateCustomTizo fuel a st) =
  returned_value (calculateCustomTizo fuel a st').
Proof.
  intros Hs Hs' Hperm Hnd.
  rewrite (calculateCustomTizo_value fuel a st elements Hs).
  rewrite (calculateCustomTizo_value fuel a st' elements' Hs').
  rewrite (validOffers_of_Permutation elements elements' Hperm Hnd).
  reflexivity.
Qed.

Lemma row_order_irrelevant_example :
  Permutation [offer_40; offer_550] [offer_550; offer_40] /\
  List.NoDup (map topup_rb [offer_40; offer_550]) /\
  returned_value
    (calculateCustomTizo 1 1790 (state_with_cache [offer_40; offer_550])) =
  returned_value
    (calculateCustomTizo 1 1790 (state_with_cache [offer_550; offer_40])).
Proof.
  assert (Hperm : Permutation [offer_40; offer_550] [offer_550; offer_40])
    by apply perm_swap.
  assert (Hnd : List.NoDup (map topup_rb [offer_40; offer_550])).
  { simpl. repeat constructor; simpl; intuition discriminate. }
  split; [exact Hperm|]. split; [exact Hnd|].
  exact (row_order_irrelevant 1 1790
           (state_with_cache [offer_40; offer_550])
           (state_with_cache [offer_550; offer_40])
           [offer_40; offer_550] [offer_550; offer_40]
           eq_refl eq_refl Hperm Hnd).
Defined.

(** *** The states of the server *)

Lemma loadUpsellOffersCache_returns (answer : query_outcome) (st : state) :
  loadUpsellOffersCache answer st =
  Returned tt match answer with
              | resolves rows => after_load st rows
              | rejects message => after_failed_load st message
              end.
Proof.
  destruct answer as [rows|message].
  - apply loadUpsellOffersCache_resolved.
  - apply loadUpsellOffersCache_rejected.
Qed.

Lemma reachable_wf (st : state) : reachable st -> wf_state st.
Proof.
  induction 1 as [|answer st st' _ IH E|fuel a v st st' _ IH E].
  - apply wf_initial_state.
  - rewrite loadUpsellOffersCache_returns in E. injection E as <-.
    destruct answer as [rows|message].
    + apply wf_after_load.
    + apply wf_after_failed_load. exact IH.
  - exact (proj2 (proj2 (proj2 (proj2
             (calculateCustomTizo_preserves fuel a v st st' IH E))))).
Qed.

Lemma wf_never_throws (fuel : nat) (a : Z) (st : state) :
  wf_state st ->
  forall message st', calculateCustomTizo fuel a st <> Thrown message st'.
Proof.
  intros Hwf message st'.
  destruct (calculateCustomTizo_cases fuel a st Hwf)
    as [E|(elements & _ & _ & _ & E)]; rewrite E.
  - discriminate.
  - destruct (for_of fuel (validOffers_of elements) (base_step a));
      discriminate.
Qed.

(** X6: in every state the server gets into by loading and converting, the
    cache variable is [null] or refers to an array that exists, a conversion
    never throws, and a load always completes without throwing, whatever the
    database answers. *)
Theorem reachable_states_are_safe (st : state) :
  reachable st ->
  wf_state st /\
  (forall fuel a message st',
     calculateCustomTizo fuel a st <> Thrown message st') /\
  (forall answer, exists st',
     loadUpsellOffersCache answer st = Returned tt st' /\ reachable st').
Proof.
  intros Hr. pose proof (reachable_wf st Hr) as Hwf.
  split; [exact Hwf|]. split.
  - intros fuel a. apply wf_never_throws. exact Hwf.
  - intros answer. eexists. split.
    + apply loadUpsellOffersCache_returns.
    + eapply reachable_load; [exact Hr | apply loadUpsellOffersCache_returns].
Qed.

Lemma reachable_states_are_safe_example :
  reachable (after_load initial_state [offer_40; offer_550]) /\
  forall message st',
    calculateCustomTizo 1 1790 (after_load initial_state [offer_40; offer_550])
    <> Thrown message st'.
Proof.
  assert (Hr : reachable (after_load initial_state [offer_40; offer_550])).
  { eapply reachable_load; [apply reachable_start|].
    apply (loadUpsellOffersCache_resolved [offer_40; offer_550]). }
  split; [exact Hr|].
  exact (proj1 (proj2 (reachable_states_are_safe _ Hr)) 1%nat 1790).
Defined.

(** Computed exactly on integers: when the database cannot be reached at
    start-up, the cache stays [null] and a non-negative amount [a] gives
    [floor(a/600) * 1200 + a mod 600], with no offer of the table applied. *)
Lemma startup_without_database (fuel : nat) (a : Z) (message : string) :
  0 <= a ->
  (_ <- loadUpsellOffersCache (rejects message) ;;
   calculateCustomTizo fuel a) initial_state =
  Returned (a / 600 * 1200 + a mod 600)
    (after_failed_load initial_state message).
Proof.
  intros Ha. unfold bind at 1.
  rewrite loadUpsellOffersCache_rejected.
  rewrite calculateCustomTizo_null by reflexivity.
  rewrite residual_base_step by exact Ha. reflexivity.
Qed.


(** ** The custom top-up upsell endpoint *)

(** A conversion that returns leaves a well-formed state with the same
    snapshot, in which every conversion ends as it did before. *)
Lemma calculateCustomTizo_step (fuel : nat) (a v : Z) (st st1 : state) :
  wf_state st -> calculateCustomTizo fuel a st = Returned v st1 ->
  wf_state st1 /\ snapshot st1 = snapshot st /\
  forall fuel' a',
    returned_value (calculateCustomTizo fuel' a' st1) =
    returned_value (calculateCustomTizo fuel' a' st).
Proof.
  intros Hwf E.
  destruct (calculateCustomTizo_preserves fuel a v st st1 Hwf E)
    as (_ & Hs & _ & _ & Hwf1).
  split; [exact Hwf1|]. split; [exact Hs|].
  intros fuel' a'. rewrite !calculateCustomTizo_value_wf by assumption.
  rewrite Hs. reflexivity.
Qed.

(** With positive units a conversion of a non-negative amount returns. *)
Lemma calculateCustomTizo_returns (fuel : nat) (a : Z) (st : state) :
  wf_state st -> cache_positive st -> (600 <= fuel)%nat -> 0 <= a ->
  exists v st1, calculateCustomTizo fuel a st = Returned v st1.
Proof.
  intros Hwf Hpos Hfuel Ha.
  destruct (snapshot st) as [elements|] eqn:Hs.
  - apply (positive_units_returns fuel a st elements Ha Hs (Hpos _ Hs) Hfuel).
  - rewrite calculateCustomTizo_null by (apply wf_snapshot_None; assumption).
    eauto.
Qed.

Lemma cache_positive_step (st st1 : state) :
  snapshot st1 = snapshot st -> cache_positive st -> cache_positive st1.
Proof. intros Hs Hpos elements H. apply Hpos. rewrite <- Hs. exact H. Qed.

Lemma ceil_to_50_spec (a : Z) :
  ceil_to_50 a mod 50 = 0 /\ a <= ceil_to_50 a < a + 50.
Proof.
  unfold ceil_to_50.
  pose proof (Z.div_mod (- a) 50 ltac:(lia)) as Hdm.
  pose proof (Z.mod_pos_bound (- a) 50 ltac:(lia)) as Hb.
  split; [apply Z.mod_mul; lia | lia].
Qed.

(** Computed exactly on integers: when no row of [custom_topup_upsell]
    covers the amount, the answer is sent with status 200 and suggests the smallest multiple of 50 that is
    not below the amount, and that plus 50. The first suggestion is the
    amount itself exactly when the amount is a multiple of 50. The answer is
    sent whenever the cached offers take positive amounts and the amount is
    not negative. *)
Lemma fallback_boxes (fuel : nat) (amountRb : Z) (st : state) :
  wf_state st -> cache_positive st -> (600 <= fuel)%nat -> 0 <= amountRb ->
  exists resp st',
    custom_topup_upsell_then fuel amountRb [] st = Returned resp st' /\
    status resp = 200%nat /\
    customAmount (body resp) = amountRb /\
    isFallback (body resp) = Some true /\
    rb (upsellBox1 (body resp)) mod 50 = 0 /\
    amountRb <= rb (upsellBox1 (body resp)) < amountRb + 50 /\
    rb (upsellBox2 (body resp)) = rb (upsellBox1 (body resp)) + 50 /\
    (rb (upsellBox1 (body resp)) = amountRb <-> amountRb mod 50 = 0).
Proof.
  intros Hwf Hpos Hfuel Ha.
  destruct (ceil_to_50_spec amountRb) as [Hmod Hb].
  destruct (calculateCustomTizo_returns fuel amountRb st Hwf Hpos Hfuel Ha)
    as (v0 & st0 & E0).
  destruct (calculateCustomTizo_step _ _ _ _ _ Hwf E0) as (Hwf0 & Hs0 & _).
  pose proof (cache_positive_step _ _ Hs0 Hpos) as Hpos0.
  destruct (calculateCustomTizo_returns fuel (ceil_to_50 amountRb) st0
              Hwf0 Hpos0 Hfuel ltac:(lia)) as (v1 & st1 & E1).
  destruct (calculateCustomTizo_step _ _ _ _ _ Hwf0 E1) as (Hwf1 & Hs1 & _).
  pose proof (cache_positive_step _ _ Hs1 Hpos0) as Hpos1.
  destruct (calculateCustomTizo_returns fuel (ceil_to_50 amountRb + 50) st1
              Hwf1 Hpos1 Hfuel ltac:(lia)) as (v2 & st2 & E2).
  eexists. exists st2. split.
  - unfold custom_topup_upsell_then, bind. rewrite E0, E1, E2. reflexivity.
  - cbn [status body customAmount isFallback upsellBox1 upsellBox2 rb].
    repeat split; try reflexivity; try lia.
    + intros H. rewrite <- H. exact Hmod.
    + intros H. unfold ceil_to_50.
      pose proof (Z.div_mod amountRb 50 ltac:(lia)) as Hdm.
      rewrite H in Hdm.
      replace (- amountRb) with ((- (amountRb / 50)) * 50) by lia.
      rewrite Z.div_mul by lia. lia.
Qed.


(** X9: every credit in an answer of the endpoint is what a conversion of
    its amount returns in the state the request found: the three
    conversions of one request see the same cache, and the request leaves
    the cache as it was. *)
Theorem upsell_credits_consistent (fuel : nat) (amountRb : Z)
    (rows : list custom_topup_upsell_row) (st st' : state) (resp : response) :
  wf_state st ->
  custom_topup_upsell_then fuel amountRb rows st = Returned resp st' ->
  customAmount (body resp) = amountRb /\
  returned_value (calculateCustomTizo fuel amountRb st) =
    Some (customTizo (body resp)) /\
  returned_value (calculateCustomTizo fuel (rb (upsellBox1 (body resp))) st) =
    Some (tizo (upsellBox1 (body resp))) /\
  returned_value (calculateCustomTizo fuel (rb (upsellBox2 (body resp))) st) =
    Some (tizo (upsellBox2 (body resp))) /\
  snapshot st' = snapshot st /\ wf_state st'.
Proof.
  intros Hwf. unfold custom_topup_upsell_then, bind, ret.
  destruct rows as [|row rows].
  - destruct (calculateCustomTizo fuel amountRb st) as [v0 st0| |] eqn:E0;
      try discriminate.
    destruct (calculateCustomTizo_step _ _ _ _ _ Hwf E0) as (Hwf0 & Hs0 & Hv0).
    destruct (calculateCustomTizo fuel (ceil_to_50 amountRb) st0)
      as [v1 st1| |] eqn:E1; try discriminate.
    destruct (calculateCustomTizo_step _ _ _ _ _ Hwf0 E1) as (Hwf1 & Hs1 & Hv1).
    destruct (calculateCustomTizo fuel (ceil_to_50 amountRb + 50) st1)
      as [v2 st2| |] eqn:E2; try discriminate.
    destruct (calculateCustomTizo_step _ _ _ _ _ Hwf1 E2) as (Hwf2 & Hs2 & _).
    intros [= <- <-]. cbn.
    repeat split; try assumption.
    + rewrite <- Hv0, E1. reflexivity.
    + rewrite <- Hv0, <- Hv1, E2. reflexivity.
    + congruence.
  - destruct (calculateCustomTizo fuel (upsell_box_1 row) st)
      as [v1 st1| |] eqn:E1; try discriminate.
    destruct (calculateCustomTizo_step _ _ _ _ _ Hwf E1) as (Hwf1 & Hs1 & Hv1).
    destruct (calculateCustomTizo fuel (upsell_box_2 row) st1)
      as [v2 st2| |] eqn:E2; try discriminate.
    destruct (calculateCustomTizo_step _ _ _ _ _ Hwf1 E2) as (Hwf2 & Hs2 & Hv2).
    destruct (calculateCustomTizo fuel amountRb st2)
      as [v0 st0| |] eqn:E0; try discriminate.
    destruct (calculateCustomTizo_step _ _ _ _ _ Hwf2 E0) as (Hwf0 & Hs0 & _).
    intros [= <- <-]. cbn.
    repeat split; try assumption.
    + rewrite <- Hv1, <- Hv2, E0. reflexivity.
    + rewrite E1. reflexivity.
    + rewrite <- Hv1, E2. reflexivity.
    + congruence.
Qed.

Lemma upsell_credits_consistent_example :
  let st := state_with_cache [offer_40; offer_550] in
  let row := {| upsell_box_1 := 1800; upsell_box_2 := 2400;
                range_min := 1700; range_max := 1799 |} in
  wf_state st /\
  exists resp st',
    custom_topup_upsell_then 1 1790 [row] st = Returned resp st' /\
    returned_value (calculateCustomTizo 1 1790 st) =
    Some (customTizo (body resp)).
Proof.
  intros st row.
  assert (Hwf : wf_state st) by apply wf_state_with_cache.
  split; [exact Hwf|].
  eexists. eexists. split; [reflexivity|].
  exact (proj1 (proj2 (upsell_credits_consistent 1 1790 [row] st _ _
                         Hwf eq_refl))).
Defined.

(** X10: with bonus-only offers in the cache, no amount of an answer gets
    less Tizo than Rb: not the custom amount, when it is not negative, and
    not the two suggestions of the fallback. *)
Theorem fallback_credits_at_least_amounts (fuel : nat) (amountRb : Z)
    (st st' : state) (resp : response) :
  wf_state st -> cache_bonus_only st -> 0 <= amountRb ->
  custom_topup_upsell_then fuel amountRb [] st = Returned resp st' ->
  customAmount (body resp) <= customTizo (body resp) /\
  rb (upsellBox1 (body resp)) <= tizo (upsellBox1 (body resp)) /\
  rb (upsellBox2 (body resp)) <= tizo (upsellBox2 (body resp)).
Proof.
  intros Hwf Hbonus Ha.
  assert (Hge : forall st0 a v,
             wf_state st0 -> snapshot st0 = snapshot st -> 0 <= a ->
             returned_value (calculateCustomTizo fuel a st0) = Some v ->
             a <= v).
  { intros st0 a v Hwf0 Hs0 Ha0 Hv.
    destruct (snapshot st0) as [elements|] eqn:Hs.
    - eapply bonus_only_value; [exact Ha0 | exact Hs | | exact Hv].
      apply Hbonus. symmetry. exact Hs0.
    - rewrite calculateCustomTizo_null in Hv
        by (apply wf_snapshot_None; assumption).
      injection Hv as <-.
      pose proof (base_step_sum a Ha0).
      pose proof (residual_step_sum (base_step a)). lia. }
  destruct (ceil_to_50_spec amountRb) as [_ Hb].
  unfold custom_topup_upsell_then, bind, ret.
  destruct (calculateCustomTizo fuel amountRb st) as [v0 st0| |] eqn:E0;
    try discriminate.
  destruct (calculateCustomTizo_step _ _ _ _ _ Hwf E0) as (Hwf0 & Hs0 & _).
  destruct (calculateCustomTizo fuel (ceil_to_50 amountRb) st0)
    as [v1 st1| |] eqn:E1; try discriminate.
  destruct (calculateCustomTizo_step _ _ _ _ _ Hwf0 E1) as (Hwf1 & Hs1 & _).
  destruct (calculateCustomTizo fuel (ceil_to_50 amountRb + 50) st1)
    as [v2 st2| |] eqn:E2; try discriminate.
  intros [= <- <-]. cbn.
  repeat split.
  - apply (Hge st amountRb v0 Hwf eq_refl Ha). rewrite E0. reflexivity.
  - apply (Hge st0 (ceil_to_50 amountRb) v1 Hwf0 Hs0); [lia|].
    rewrite E1. reflexivity.
  - apply (Hge st1 (ceil_to_50 amountRb + 50) v2 Hwf1); [congruence | lia |].
    rewrite E2. reflexivity.
Qed.

Lemma fallback_credits_at_least_amounts_example :
  let st := state_with_cache [offer_40; offer_550] in
  wf_state st /\ cache_bonus_only st /\ 0 <= 1790 /\
  exists resp st',
    custom_topup_upsell_then 1 1790 [] st = Returned resp st' /\
    rb (upsellBox1 (body resp)) <= tizo (upsellBox1 (body resp)).
Proof.
  intros st.
  assert (Hwf : wf_state st) by apply wf_state_with_cache.
  assert (Hb : cache_bonus_only st).
  { intros elements [= <-]. repeat constructor; simpl; lia. }
  assert (Ha : 0 <= 1790) by lia.
  split; [exact Hwf|]. split; [exact Hb|]. split; [exact Ha|].
  eexists. eexists. split; [reflexivity|].
  exact (proj1 (proj2 (fallback_credits_at_least_amounts 1 1790 st _ _
                         Hwf Hb Ha eq_refl))).
Defined.

(** ** The session manager *)

Module SessionFacts.
Import SessionManager.

Lemma getSession_cases (b : browser) :
  (fst (getSession b) = None \/ fst (getSession b) = stored_session b) /\
  quota_exceeded (snd (getSession b)) = quota_exceeded b /\
  tizo_language (snd (getSession b)) = tizo_language b /\
  clock (snd (getSession b)) = clock b /\
  generated (snd (getSession b)) = generated b /\
  (fst (getSession b) = None \/ tizo_session (snd (getSession b)) = tizo_session b).
Proof.
  unfold getSession, bbind, getItem_session, stored_session.
  destruct (tizo_session b) as [[s|]|] eqn:E; cbn.
  - destruct (lastActivity s) as [last|]; cbn.
    + destruct (last =? 0); cbn.
      * rewrite E. auto 10.
      * destruct (SESSION_TIMEOUT_MS <? clock b (clock_reads b) - last); cbn;
          auto 10.
    + rewrite E. auto 10.
  - auto 10.
  - rewrite E. auto 10.
Qed.

Ltac assign_field :=
  let updates := fresh "updates" in
  let s := fresh "s" in
  let u := fresh "u" in
  let IH := fresh "IH" in
  let H := fresh "H" in
  intros updates; unfold Object_assign;
  induction updates as [|u updates IH]; intros s H; [reflexivity|];
  cbn [fold_left]; cbn [has_key existsb] in H;
  apply orb_false_iff in H; destruct H as [Hu H];
  rewrite (IH _ H); destruct u; cbn in Hu; try discriminate Hu; reflexivity.

Lemma Object_assign_totalCost :
  forall updates s, has_key key_totalCost updates = false ->
    totalCost (Object_assign s updates) = totalCost s.
Proof. assign_field. Qed.

Lemma Object_assign_totalTizo :
  forall updates s, has_key key_totalTizo updates = false ->
    totalTizo (Object_assign s updates) = totalTizo s.
Proof. assign_field. Qed.

Lemma Object_assign_offerCost :
  forall updates s, has_key key_offerCost updates = false ->
    offerCost (Object_assign s updates) = offerCost s.
Proof. assign_field. Qed.

Lemma Object_assign_offerTizo :
  forall updates s, has_key key_offerTizo updates = false ->
    offerTizo (Object_assign s updates) = offerTizo s.
Proof. assign_field. Qed.

Lemma Object_assign_bonusCost :
  forall updates s, has_key key_bonusCost updates = false ->
    bonusCost (Object_assign s updates) = bonusCost s.
Proof. assign_field. Qed.

Lemma Object_assign_bonusTizo :
  forall updates s, has_key key_bonusTizo updates = false ->
    bonusTizo (Object_assign s updates) = bonusTizo s.
Proof. assign_field. Qed.

Lemma Object_assign_bonusAccepted :
  forall updates s, has_key key_bonusAccepted updates = false ->
    bonusAccepted (Object_assign s updates) = bonusAccepted s.
Proof. assign_field. Qed.

Lemma merged_consistent (s : session) (updates : list assignment) :
  totals_consistent s ->
  has_key key_totalCost updates = false ->
  has_key key_totalTizo updates = false ->
  totals_consistent (merged s updates).
Proof.
  intros [Hc Ht] HkC HkT. unfold merged, totals_consistent, if_bonusAccepted.
  destruct (has_key key_offerCost updates) eqn:K1;
  destruct (has_key key_bonusCost updates) eqn:K2;
  destruct (has_key key_bonusAccepted updates) eqn:K3;
  destruct (has_key key_offerTizo updates) eqn:K4;
  destruct (has_key key_bonusTizo updates) eqn:K5;
  cbn [orb assign totalCost totalTizo offerCost offerTizo bonusCost bonusTizo
       bonusAccepted];
  rewrite ?Object_assign_totalCost, ?Object_assign_totalTizo,
    ?Object_assign_offerCost, ?Object_assign_offerTizo,
    ?Object_assign_bonusCost, ?Object_assign_bonusTizo,
    ?Object_assign_bonusAccepted by assumption;
  split; first [reflexivity | exact Hc | exact Ht].
Qed.

Lemma saveSession_run (s : session) (b : browser) :
  fst (saveSession s b) =
    assign s (set_lastActivity (Some (clock b (clock_reads b)))) /\
  (quota_exceeded b = false ->
   stored_session (snd (saveSession s b)) = Some (fst (saveSession s b))) /\
  (quota_exceeded b = true ->
   tizo_session (snd (saveSession s b)) = tizo_session b) /\
  quota_exceeded (snd (saveSession s b)) = quota_exceeded b /\
  clock (snd (saveSession s b)) = clock b /\
  clock_reads (snd (saveSession s b)) = S (clock_reads b).
Proof.
  unfold saveSession, bbind, Date_now, setItem_session, stored_session.
  cbn. destruct (quota_exceeded b) eqn:Q; cbn; rewrite ?Q; repeat split;
    try reflexivity; intros; try discriminate.
Qed.

Lemma assign_lastActivity_consistent (s : session) (v : option Z) :
  totals_consistent s -> totals_consistent (assign s (set_lastActivity v)).
Proof. intros H. exact H. Qed.

Lemma updateSession_eq (updates : list assignment) (b : browser) :
  updateSession updates b =
  saveSession (merged (fst (base_session b)) updates) (snd (base_session b)).
Proof.
  unfold updateSession, base_session, merged, bbind.
  destruct (getSession b) as [[s|] b0]; cbn.
  - reflexivity.
  - destruct (startNewSession true _) as [s1 b1]. reflexivity.
Qed.

Lemma startNewSession_forced_fresh (b : browser) :
  exists id created last lang,
    fst (startNewSession true b) =
    {| sessionId := Some id;
       createdAt := Some created;
       lastActivity := Some last;
       currentPage := "welcome";
       language := lang;
       offerCost := 0;
       offerTizo := 0;
       bonusAccepted := None;
       bonusCost := 0;
       bonusTizo := 0;
       totalCost := 0;
       totalTizo := 0;
       orderNumber := None;
       transactionComplete := false |} /\
    quota_exceeded (snd (startNewSession true b)) = quota_exceeded b.
Proof.
  pose proof (getSession_cases b) as (_ & Hq & _).
  unfold startNewSession, bbind.
  destruct (getSession b) as [[e|] b0]; cbn in Hq;
    cbn; unfold saveSession, bbind, setItem_session; cbn;
    destruct (quota_exceeded b0) eqn:Q; cbn; rewrite ?Q;
    do 4 eexists; split; try reflexivity; congruence.
Qed.

Lemma base_session_quota (b : browser) :
  quota_exceeded (snd (base_session b)) = quota_exceeded b.
Proof.
  pose proof (getSession_cases b) as (_ & Hq & _).
  unfold base_session, bbind.
  destruct (getSession b) as [[s|] b0]; cbn in Hq; cbn; [exact Hq|].
  destruct (startNewSession_forced_fresh
              (snd (console_write no_active_session b0)))
    as (? & ? & ? & ? & _ & Q).
  cbn in Q |- *. destruct (startNewSession true _) as [s1 b1].
  cbn in Q |- *. congruence.
Qed.

Lemma base_session_cases (b : browser) :
  (forall s, stored_session b = Some s -> totals_consistent s) ->
  totals_consistent (fst (base_session b)) /\
  quota_exceeded (snd (base_session b)) = quota_exceeded b /\
  clock (snd (base_session b)) = clock b.
Proof.
  intros Hstored.
  pose proof (getSession_cases b) as (Hr & Hq & _ & Hc & _).
  unfold base_session, bbind.
  destruct (getSession b) as [[s|] b0]; cbn in Hr, Hq, Hc; cbn.
  - split; [|split; assumption]. apply Hstored.
    destruct Hr as [Hr|Hr]; [discriminate | symmetry; exact Hr].
  - destruct (startNewSession_forced_fresh
                (snd (console_write no_active_session b0)))
      as (id & created & last & lang & E & Q).
    pose proof (getSession_cases (snd (console_write no_active_session b0)))
      as (_ & _ & _ & Hc' & _).
    assert (Hclock : clock (snd (startNewSession true
                      (snd (console_write no_active_session b0)))) = clock b).
    { rewrite <- Hc. clear.
      unfold startNewSession, bbind.
      pose proof (getSession_cases (snd (console_write no_active_session b0)))
        as (_ & _ & _ & Hc' & _).
      destruct (getSession (snd (console_write no_active_session b0)))
        as [[e|] b1]; cbn in Hc'; cbn;
        unfold saveSession, bbind, setItem_session; cbn;
        destruct (quota_exceeded b1); cbn; exact Hc'. }
    cbn in E, Q, Hclock |- *.
    destruct (startNewSession true _) as [s1 b1]. cbn in E, Q, Hclock |- *.
    subst s1. split; [split; reflexivity|]. split; congruence.
Qed.

(** X11: [updateSession] keeps the totals right. When the stored session,
    if there is one, has [totalCost = offerCost + (bonusAccepted ? bonusCost
    : 0)] and [totalTizo] likewise, and the update does not set the totals
    itself, the session it returns has them right too, whether the stored
    session was used, had expired or was missing; and unless the storage is
    full, that session is what the storage holds afterwards. *)
Theorem updateSession_keeps_totals (updates : list assignment) (b : browser) :
  (forall s, stored_session b = Some s -> totals_consistent s) ->
  has_key key_totalCost updates = false ->
  has_key key_totalTizo updates = false ->
  totals_consistent (fst (updateSession updates b)) /\
  (quota_exceeded b = false ->
   stored_session (snd (updateSession updates b)) =
   Some (fst (updateSession updates b))).
Proof.
  intros Hstored HkC HkT.
  destruct (base_session_cases b Hstored) as (Hbase & Hq & _).
  rewrite updateSession_eq.
  destruct (saveSession_run (merged (fst (base_session b)) updates)
              (snd (base_session b))) as (E & Hsaved & _).
  split.
  - rewrite E. apply assign_lastActivity_consistent.
    apply merged_consistent; assumption.
  - intros Q. apply Hsaved. rewrite Hq. exact Q.
Qed.

(** X12: what [saveSession] stores, [getSession] gives back, stamped with
    the time of the save, as long as the next reading of the clock is at
    most 30 minutes later; past that, [getSession] gives [null] and removes
    the item. A session stamped at time 0 never expires. Either way the
    storage then holds what [getSession] gave. *)
Theorem saved_session_expiry (s : session) (b : browser) :
  quota_exceeded b = false ->
  let t := clock b (clock_reads b) in
  let t' := clock b (S (clock_reads b)) in
  let saved := fst (saveSession s b) in
  let b1 := snd (saveSession s b) in
  saved = assign s (set_lastActivity (Some t)) /\
  fst (getSession b1) =
    (if (t =? 0) || (t' - t <=? SESSION_TIMEOUT_MS) then Some saved else None) /\
  stored_session (snd (getSession b1)) = fst (getSession b1).
Proof.
  intros Q t t' saved b1. subst saved b1 t t'.
  unfold saveSession, bbind, Date_now, setItem_session. cbn. rewrite Q. cbn.
  split; [reflexivity|].
  unfold getSession, bbind, getItem_session, stored_session. cbn.
  destruct (Z.eqb_spec (clock b (clock_reads b)) 0) as [E0|E0]; cbn.
  - split; reflexivity.
  - destruct (Z.ltb_spec SESSION_TIMEOUT_MS
                (clock b (S (clock_reads b)) - clock b (clock_reads b)))
      as [Hlt|Hge];
    destruct (Z.leb_spec
                (clock b (S (clock_reads b)) - clock b (clock_reads b))
                SESSION_TIMEOUT_MS) as [Hle|Hgt]; try lia; cbn;
    split; reflexivity.
Qed.

Lemma startNewSession_creates (forceNew : bool) (b : browser) :
  (forall e, fst (getSession b) = Some e ->
             forceNew = true \/ transactionComplete e = true) ->
  exists id created last lang,
    fst (startNewSession forceNew b) =
    {| sessionId := Some id;
       createdAt := Some created;
       lastActivity := Some last;
       currentPage := "welcome";
       language := lang;
       offerCost := 0;
       offerTizo := 0;
       bonusAccepted := None;
       bonusCost := 0;
       bonusTizo := 0;
       totalCost := 0;
       totalTizo := 0;
       orderNumber := None;
       transactionComplete := false |} /\
    (quota_exceeded b = false ->
     stored_session (snd (startNewSession forceNew b)) =
     Some (fst (startNewSession forceNew b))).
Proof.
  intros Hcond.
  pose proof (getSession_cases b) as (_ & Hq & _).
  unfold startNewSession, bbind.
  destruct (getSession b) as [[e|] b0]; cbn in Hq, Hcond.
  - assert (Hc : negb forceNew && negb (transactionComplete e) = false).
    { destruct (Hcond e eq_refl) as [->| ->]; [reflexivity|].
      apply andb_false_r. }
    rewrite Hc. cbn. unfold saveSession, bbind, setItem_session, stored_session.
    cbn. destruct (quota_exceeded b0) eqn:Q; cbn; rewrite ?Q;
      do 4 eexists; (split; [reflexivity|]); intros Qb;
      [congruence | reflexivity].
  - cbn. unfold saveSession, bbind, setItem_session, stored_session.
    cbn. destruct (quota_exceeded b0) eqn:Q; cbn; rewrite ?Q;
      do 4 eexists; (split; [reflexivity|]); intros Qb;
      [congruence | reflexivity].
Qed.

Lemma merged_completes (s : session) (n : string) :
  transactionComplete
    (merged s [set_orderNumber (Some n); set_transactionComplete true]) = true /\
  orderNumber
    (merged s [set_orderNumber (Some n); set_transactionComplete true]) = Some n.
Proof. split; reflexivity. Qed.

(** X13: completing the transaction ends the session. Unless the storage is
    full, after [completeTransaction] the stored session carries the order
    number that was returned and is marked complete; [hasActiveSession] then
    answers [false] whatever the clock says, and [startNewSession(false)]
    does not resume it: it returns and stores a new session with no order
    number and all amounts at 0. *)
Theorem completed_transaction_ends_session (b : browser) :
  quota_exceeded b = false ->
  let n := fst (completeTransaction b) in
  let b1 := snd (completeTransaction b) in
  (exists s, stored_session b1 = Some s /\
             orderNumber s = Some n /\ transactionComplete s = true) /\
  fst (hasActiveSession b1) = false /\
  (let fresh := fst (startNewSession false b1) in
   transactionComplete fresh = false /\ orderNumber fresh = None /\
   offerCost fresh = 0 /\ offerTizo fresh = 0 /\
   bonusAccepted fresh = None /\ bonusCost fresh = 0 /\ bonusTizo fresh = 0 /\
   totalCost fresh = 0 /\ totalTizo fresh = 0 /\
   stored_session (snd (startNewSession false b1)) = Some fresh).
Proof.
  intros Q n b1.
  assert (Hb1 : exists s, stored_session b1 = Some s /\
                  orderNumber s = Some n /\ transactionComplete s = true /\
                  quota_exceeded b1 = false).
  { subst n b1. unfold completeTransaction, bbind, generateOrderNumber.
    destruct (next_generated b) as [n b0] eqn:G.
    assert (Q0 : quota_exceeded b0 = false).
    { unfold next_generated in G. injection G as _ <-. exact Q. }
    rewrite updateSession_eq.
    pose proof (getSession_cases b0) as (_ & Hq & _).
    assert (Hqb : quota_exceeded (snd (base_session b0)) = false)
      by (rewrite base_session_quota; exact Q0).
    destruct (saveSession_run
                (merged (fst (base_session b0))
                   [set_orderNumber (Some n); set_transactionComplete true])
                (snd (base_session b0))) as (E & Hsaved & _ & Hq3 & _).
    destruct (saveSession _ _) as [s1 b3]. cbn in E, Hsaved, Hq3 |- *.
    exists s1. split; [apply Hsaved; exact Hqb|].
    rewrite E. repeat split. congruence. }
  destruct Hb1 as (s & Hs & Hn & Hc & Q1).
  split; [exists s; auto|].
  pose proof (getSession_cases b1) as (Hr & _).
  split.
  - unfold hasActiveSession, bbind.
    destruct (getSession b1) as [[e|] b2]; cbn in Hr |- *; [|reflexivity].
    destruct Hr as [Hr|Hr]; [discriminate|].
    rewrite Hs in Hr. injection Hr as ->. rewrite Hc. reflexivity.
  - destruct (startNewSession_creates false b1)
      as (id & created & last & lang & E & Hst).
    + intros e He. right. destruct Hr as [Hr|Hr]; [congruence|].
      rewrite He, Hs in Hr. injection Hr as ->. exact Hc.
    + cbn zeta. rewrite (Hst Q1). rewrite E. cbn. repeat split.
Qed.

Lemma updateSession_keeps_totals_example :
  let b := example_browser
             (Some (json_of (assign DEFAULT_SESSION (set_lastActivity (Some 500)))))
             1000 1 in
  let updates := [set_offerCost 100; set_bonusCost 50;
                  set_bonusAccepted (Some true)] in
  (forall s, stored_session b = Some s -> totals_consistent s) /\
  totalCost (fst (updateSession updates b)) = 150 /\
  totals_consistent (fst (updateSession updates b)).
Proof.
  intros b updates.
  assert (H : forall s, stored_session b = Some s -> totals_consistent s).
  { intros s [= <-]. split; reflexivity. }
  split; [exact H|]. split; [reflexivity|].
  exact (proj1 (updateSession_keeps_totals updates b H eq_refl eq_refl)).
Defined.

Lemma saved_session_expiry_example :
  let b := example_browser None 1000 1800001 in
  quota_exceeded b = false /\
  fst (getSession (snd (saveSession DEFAULT_SESSION b))) = None.
Proof.
  intros b.
  assert (Q : quota_exceeded b = false) by reflexivity.
  split; [exact Q|].
  exact (proj1 (proj2 (saved_session_expiry DEFAULT_SESSION b Q))).
Defined.

Lemma completed_transaction_ends_session_example :
  let b := example_browser
             (Some (json_of (assign DEFAULT_SESSION (set_lastActivity (Some 500)))))
             1000 1 in
  quota_exceeded b = false /\
  fst (hasActiveSession (snd (completeTransaction b))) = false.
Proof.
  intros b.
  assert (Q : quota_exceeded b = false) by reflexivity.
  split; [exact Q|].
  exact (proj1 (proj2 (completed_transaction_ends_session b Q))).
Defined.

Lemma getSession_expired (b : browser) (old : session) (last : Z) :
  lastActivity old = Some last -> last <> 0 ->
  SESSION_TIMEOUT_MS < clock b (clock_reads b) - last ->
  getSession (snd (write_session (Some (json_of old)) b)) =
  (None,
   {| tizo_session := None;
      tizo_language := tizo_language b;
      quota_exceeded := quota_exceeded b;
      clock := clock b;
      clock_reads := S (clock_reads b);
      generated := generated b;
      generated_count := generated_count b;
      console := (console b ++ [session_expired]) ++ [session_cleared] |}).
Proof.
  intros Hlast H0 Hexp.
  unfold getSession, bbind, getItem_session. cbn. rewrite Hlast.
  destruct (Z.eqb_spec last 0); [contradiction|]. cbn.
  destruct (Z.ltb_spec SESSION_TIMEOUT_MS (clock b (clock_reads b) - last));
    [reflexivity | lia].
Qed.

(** X14: nothing of an expired session gets into the next one. When the
    stored session is more than 30 minutes old at the time [updateSession]
    reads it, what [updateSession] returns and everything it leaves behind
    are the same whatever that session held: the update is applied to a new
    session made of the default values. *)
Theorem expired_session_not_inherited (updates : list assignment)
    (b : browser) (old old' : session) (last last' : Z) :
  lastActivity old = Some last -> last <> 0 ->
  SESSION_TIMEOUT_MS < clock b (clock_reads b) - last ->
  lastActivity old' = Some last' -> last' <> 0 ->
  SESSION_TIMEOUT_MS < clock b (clock_reads b) - last' ->
  updateSession updates (snd (write_session (Some (json_of old)) b)) =
  updateSession updates (snd (write_session (Some (json_of old')) b)).
Proof.
  intros Hl H0 He Hl' H0' He'.
  unfold updateSession, bbind.
  rewrite (getSession_expired b old last Hl H0 He).
  rewrite (getSession_expired b old' last' Hl' H0' He').
  reflexivity.
Qed.

Lemma expired_session_not_inherited_example :
  let b := example_browser None 5000000 1 in
  let old := Object_assign DEFAULT_SESSION
               [set_lastActivity (Some 1000); set_offerCost 300;
                set_totalCost 300] in
  let old' := assign DEFAULT_SESSION (set_lastActivity (Some 2000)) in
  offerCost
    (fst (updateSession [set_currentPage "offers"%string]
            (snd (write_session (Some (json_of old)) b)))) = 0 /\
  updateSession [set_currentPage "offers"%string]
    (snd (write_session (Some (json_of old)) b)) =
  updateSession [set_currentPage "offers"%string]
    (snd (write_session (Some (json_of old')) b)).
Proof.
  intros b old old'. split; [reflexivity|].
  apply (expired_session_not_inherited _ b old old' 1000 2000);
    try reflexivity; try discriminate.
Defined.

End SessionFacts.

(** ** Never more than the base rate *)

Lemma while_loop_at_most_double (fuel : nat) (o : offer) (s s' : locals) :
  tizo_value o <= 2 * topup_rb o -> while_loop fuel o s = Some s' ->
  totalTizo s' + 2 * remaining s' <= totalTizo s + 2 * remaining s.
Proof.
  intros Ho. revert s. induction fuel as [|fuel IH]; intros s;
    rewrite while_loop_eq; destruct (while_test o s);
    try discriminate; try (intros [= <-]; lia).
  intros H. apply IH in H. simpl in H. lia.
Qed.

Lemma for_of_at_most_double (fuel : nat) (l : list offer) (s s' : locals) :
  Forall (fun o => tizo_value o <= 2 * topup_rb o) l ->
  0 <= remaining s -> for_of fuel l s = Some s' ->
  totalTizo s' + 2 * remaining s' <= totalTizo s + 2 * remaining s /\
  0 <= remaining s'.
Proof.
  intros Hl. revert s. induction Hl as [|o l Ho Hl IH]; intros s Hs; simpl.
  - intros [= <-]. lia.
  - destruct (while_loop fuel o s) as [s1|] eqn:E; [|discriminate].
    intros H.
    pose proof (while_loop_remaining _ _ _ _ Hs E) as Hs1.
    apply (while_loop_at_most_double _ _ _ _ Ho) in E.
    destruct (IH s1 Hs1 H). lia.
Qed.

(** Computed exactly on integers: when no cached offer awards more than
    twice what it takes, no amount gets more than twice its value: a call
    for a non-negative [a]
    that returns [v] has [v <= 2 a], for any state the server reaches. *)
Lemma credit_at_most_double (fuel : nat) (a v : Z) (st : state) :
  wf_state st -> cache_at_most_double st -> 0 <= a ->
  returned_value (calculateCustomTizo fuel a st) = Some v ->
  v <= 2 * a.
Proof.
  intros Hwf Hcache Ha.
  pose proof (base_step_remaining a Ha) as Hrem.
  assert (Hbase : totalTizo (base_step a) + 2 * remaining (base_step a) = 2 * a).
  { rewrite base_step_nonneg by exact Ha. simpl.
    pose proof (Z.div_mod a 600 ltac:(lia)). lia. }
  assert (Hres : forall s, 0 <= remaining s ->
                   residual_step s <= totalTizo s + 2 * remaining s).
  { intros s Hs. unfold residual_step.
    destruct (Z.ltb_spec 0 (remaining s)); lia. }
  rewrite calculateCustomTizo_value_wf by exact Hwf.
  destruct (snapshot st) as [elements|] eqn:Hs.
  - destruct (0 <? remaining (base_step a)).
    + destruct (for_of fuel (validOffers_of elements) (base_step a))
        as [s'|] eqn:E; [|discriminate].
      intros [= <-].
      destruct (for_of_at_most_double fuel _ _ _
                  (validOffers_of_Forall _ _ (Hcache _ Hs))
                  (proj1 Hrem) E) as [Hle Hs'].
      pose proof (Hres s' Hs'). lia.
    + intros [= <-]. pose proof (Hres (base_step a) (proj1 Hrem)). lia.
  - intros [= <-]. pose proof (Hres (base_step a) (proj1 Hrem)). lia.
Qed.


(** ** The dispatch of the requests *)

Lemma prefix_app (p q s : string) :
  String.prefix (p ++ q) s = true -> String.prefix p s = true.
Proof.
  revert s. induction p as [|c p IH]; intros s.
  - intros _. destruct s; reflexivity.
  - destruct s as [|c' s]; simpl; [discriminate|].
    destruct (Ascii.ascii_dec c c'); [apply IH | discriminate].
Qed.

Lemma eqb_prefix (p q s : string) :
  String.eqb s (p ++ q) = true -> String.prefix p s = true.
Proof.
  intros H. apply String.eqb_eq in H. subst s.
  induction p as [|c p IH]; simpl.
  - destruct q; reflexivity.
  - destruct (Ascii.ascii_dec c c); [exact IH | contradiction].
Qed.

(** X16: every answer that comes from the database is sent with the headers
    against caching: whatever the method and the URL, a request that one of
    the [/api/] branches answers has had [Cache-Control], [Pragma] and
    [Expires] set. *)
Theorem api_answers_not_cached (method url : string) :
  api_route (route_of method url) = true ->
  In ("Cache-Control"%string,
      "no-store, no-cache, must-revalidate, proxy-revalidate"%string)
     (headers_set url) /\
  In ("Pragma"%string, "no-cache"%string) (headers_set url) /\
  In ("Expires"%string, "0"%string) (headers_set url).
Proof.
  intros H.
  assert (Hapi : startsWith url "/api/" = true).
  { unfold route_of in H. unfold startsWith in *.
    repeat match type of H with
    | api_route (if ?c then _ else _) = true =>
        let E := fresh "E" in
        destruct c eqn:E;
        [ try discriminate H;
          try (apply andb_prop in E; destruct E as [_ E];
               first [ exact (eqb_prefix "/api/" _ _ E)
                     | exact (prefix_app "/api/" _ _ E) ])
        | ]
    end.
    discriminate H. }
  unfold headers_set. rewrite Hapi. cbn. auto 10.
Qed.

Lemma api_answers_not_cached_example :
  api_route (route_of "GET" "/api/custom-topup-upsell?rb=1790") = true /\
  In ("Pragma"%string, "no-cache"%string)
     (headers_set "/api/custom-topup-upsell?rb=1790").
Proof.
  assert (H : api_route (route_of "GET" "/api/custom-topup-upsell?rb=1790")
              = true) by reflexivity.
  split; [exact H|].
  exact (proj1 (proj2 (api_answers_not_cached _ _ H))).
Defined.

Lemma prefix_append (p q : string) : String.prefix p (p ++ q) = true.
Proof.
  induction p as [|c p IH]; simpl.
  - destruct q; reflexivity.
  - destruct (Ascii.ascii_dec c c); [exact IH | contradiction].
Qed.

Lemma eqb_append_nonempty (p q : string) :
  q <> EmptyString -> String.eqb (p ++ q) p = false.
Proof.
  intros Hq. induction p as [|c p IH]; simpl.
  - destruct q; [contradiction | reflexivity].
  - rewrite Ascii.eqb_refl. exact IH.
Qed.

(** X17: the list of all upsell offers is served at exactly
    [/api/upsell-offers-all]: a GET of that path followed by anything more,
    a query string for instance, is answered by the branch for a single
    offer, [/api/upsell-offer], which is tried next and matches by
    prefix. *)
Theorem upsell_offers_all_with_query (q : string) :
  q <> EmptyString ->
  route_of "GET" ("/api/upsell-offers-all" ++ q) = route_upsell_offer.
Proof.
  intros Hq. unfold route_of, startsWith.
  change (String.eqb "GET" "OPTIONS") with false.
  change (String.eqb "GET" "GET") with true.
  cbn [andb].
  rewrite (eqb_append_nonempty "/api/upsell-offers-all" q Hq).
  change ("/api/upsell-offers-all" ++ q)%string
    with ("/api/upsell-offer" ++ ("s-all" ++ q))%string.
  rewrite (prefix_append "/api/upsell-offer").
  reflexivity.
Qed.

Lemma upsell_offers_all_with_query_example :
  "?rb=550"%string <> EmptyString /\
  route_of "GET" "/api/upsell-offers-all?rb=550" = route_upsell_offer.
Proof.
  assert (H : "?rb=550"%string <> EmptyString) by discriminate.
  split; [exact H|].
  exact (upsell_offers_all_with_query "?rb=550" H).
Defined.

(** ** The greedy pass is a repeated division *)

Lemma while_loop_divides (fuel : nat) (o : offer) (s : locals) :
  0 < topup_rb o -> 0 <= remaining s ->
  (Z.to_nat (remaining s) <= fuel)%nat ->
  while_loop fuel o s =
  Some {| totalTizo := totalTizo s + remaining s / topup_rb o * tizo_value o;
          remaining := remaining s mod topup_rb o |}.
Proof.
  intros Ho Hs Hfuel.
  destruct (while_loop_terminates fuel o s Ho Hs Hfuel) as (s' & E & Hb).
  rewrite E. f_equal.
  destruct (while_loop_accounts _ _ _ _ E) as (k & Hk & _ & Ht & Hr & Hlt).
  assert (Hq : remaining s / topup_rb o = k).
  { symmetry. apply (Z.div_unique _ _ k (remaining s')); lia. }
  assert (Hm : remaining s mod topup_rb o = remaining s').
  { symmetry. apply (Z.mod_unique _ _ k (remaining s')); lia. }
  rewrite Hq, Hm, <- Ht. destruct s'; reflexivity.
Qed.

Lemma for_of_divides (fuel : nat) (l : list offer) (s : locals) :
  Forall (fun o => 0 < topup_rb o) l -> 0 <= remaining s ->
  (Z.to_nat (remaining s) <= fuel)%nat ->
  exists s', for_of fuel l s = Some s' /\ 0 <= remaining s' /\
    totalTizo s' + remaining s' =
    totalTizo s + division_credit l (remaining s).
Proof.
  intros Hl. revert s. induction Hl as [|o l Ho Hl IH]; intros s Hs Hfuel; simpl.
  - exists s. split; [reflexivity | lia].
  - rewrite (while_loop_divides fuel o s Ho Hs Hfuel).
    pose proof (Z.mod_pos_bound (remaining s) (topup_rb o) Ho) as Hm.
    destruct (IH {| totalTizo := totalTizo s
                                 + remaining s / topup_rb o * tizo_value o;
                    remaining := remaining s mod topup_rb o |})
      as (s' & E & Hs' & Hsum); cbn [remaining totalTizo].
    + lia.
    + pose proof (Z.mod_le (remaining s) (topup_rb o) Hs Ho). lia.
    + exists s'. cbn [remaining totalTizo] in Hsum.
      repeat split; [exact E | exact Hs' | lia].
Qed.

(** Computed exactly on integers: with offers that take positive amounts,
    the call for a non-negative amount returns the credit of a repeated
    division: 1200 for
    each whole 600, then each cached offer below 600, largest first, as many
    times as it divides what is left, and the last rest 1:1. The inner loop
    is that division. *)
Lemma converter_is_division (fuel : nat) (a : Z) (st : state)
    (elements : list offer) :
  (600 <= fuel)%nat -> 0 <= a ->
  snapshot st = Some elements -> positive_units elements ->
  returned_value (calculateCustomTizo fuel a st) =
  Some (a / 600 * 1200 + division_credit (validOffers_of elements) (a mod 600)).
Proof.
  intros Hfuel Ha Hs Hpos.
  pose proof (base_step_remaining a Ha) as Hrem.
  destruct (for_of_divides fuel (validOffers_of elements) (base_step a))
    as (s' & E & Hs' & Hsum); try lia.
  { apply validOffers_of_Forall. exact Hpos. }
  assert (Hres : residual_step s' = totalTizo s' + remaining s').
  { unfold residual_step. destruct (Z.ltb_spec 0 (remaining s')); lia. }
  rewrite base_step_nonneg in Hsum by exact Ha. cbn [totalTizo remaining] in Hsum.
  rewrite (calculateCustomTizo_value fuel a st elements Hs).
  destruct (Z.ltb_spec 0 (remaining (base_step a))) as [Hlt|Hge].
  - rewrite E. simpl. f_equal. lia.
  - f_equal.
    assert (H0 : remaining (base_step a) = 0) by lia.
    rewrite (for_of_skips fuel (validOffers_of elements) (base_step a)) in E.
    + injection E as <-. lia.
    + rewrite H0. apply validOffers_of_Forall. exact Hpos.
Qed.


(** ** More credit in the table, more credit for the customer *)

Lemma filter_more_credit (l l' : list offer) :
  Forall2 more_credit l l' ->
  Forall2 more_credit (List.filter (fun o => topup_rb o <? 600) l)
    (List.filter (fun o => topup_rb o <? 600) l').
Proof.
  induction 1 as [|o o' l l' [Hu Hc] _ IH]; simpl; [constructor|].
  rewrite Hu. destruct (topup_rb o <? 600); [constructor|]; try exact IH.
  split; assumption.
Qed.

Lemma sort_insert_more_credit (x x' : offer) (l l' : list offer) :
  more_credit x x' -> Forall2 more_credit l l' ->
  Forall2 more_credit (sort_insert by_topup_rb_desc x l)
    (sort_insert by_topup_rb_desc x' l').
Proof.
  intros Hx. induction 1 as [|y y' l l' Hy Hl IH]; simpl.
  - constructor; [exact Hx | constructor].
  - unfold by_topup_rb_desc at 1 3.
    rewrite (proj1 Hx), (proj1 Hy).
    destruct (0 <? topup_rb y - topup_rb x).
    + constructor; [exact Hy | exact IH].
    + constructor; [exact Hx|]. constructor; [exact Hy | exact Hl].
Qed.

Lemma validOffers_of_more_credit (l l' : list offer) :
  Forall2 more_credit l l' ->
  Forall2 more_credit (validOffers_of l) (validOffers_of l').
Proof.
  intros H. apply filter_more_credit in H. unfold validOffers_of.
  induction H as [|o o' l0 l0' Ho _ IH]; simpl; [constructor|].
  apply sort_insert_more_credit; assumption.
Qed.

Lemma while_loop_more_credit (fuel : nat) (o o' : offer) (s s' : locals) :
  more_credit o o' ->
  remaining s' = remaining s -> totalTizo s <= totalTizo s' ->
  match while_loop fuel o s, while_loop fuel o' s' with
  | Some t, Some t' => remaining t' = remaining t /\ totalTizo t <= totalTizo t'
  | None, None => True
  | _, _ => False
  end.
Proof.
  intros [Hu Hc]. revert s s'.
  induction fuel as [|fuel IH]; intros s s' Hr Ht;
    rewrite (while_loop_eq _ o s), (while_loop_eq _ o' s');
    unfold while_test; rewrite Hu, Hr;
    destruct (topup_rb o <=? remaining s); try (split; assumption); try exact I.
  apply IH; simpl; lia.
Qed.

Lemma for_of_more_credit (fuel : nat) (l l' : list offer) (s s' : locals) :
  Forall2 more_credit l l' ->
  remaining s' = remaining s -> totalTizo s <= totalTizo s' ->
  match for_of fuel l s, for_of fuel l' s' with
  | Some t, Some t' => remaining t' = remaining t /\ totalTizo t <= totalTizo t'
  | None, None => True
  | _, _ => False
  end.
Proof.
  intros Hl. revert s s'.
  induction Hl as [|o o' l l' Ho _ IH]; intros s s' Hr Ht; simpl.
  - split; assumption.
  - pose proof (while_loop_more_credit fuel o o' s s' Ho Hr Ht) as Hw.
    destruct (while_loop fuel o s) as [t|], (while_loop fuel o' s') as [t'|];
      try contradiction; [|exact I].
    apply IH; tauto.
Qed.

(** X19: raising the Tizo of offers never lowers a credit. On two caches
    with the same rows in the same order, where each row of the second takes
    the same amount and awards at least as much, a call ends the same way on
    both (it returns on both or on neither), and what it returns on the
    second is at least what it returns on the first. *)
Theorem more_credit_in_cache (fuel : nat) (a : Z) (st st' : state)
    (elements elements' : list offer) :
  snapshot st = Some elements -> snapshot st' = Some elements' ->
  Forall2 more_credit elements elements' ->
  at_least (returned_value (calculateCustomTizo fuel a st))
           (returned_value (calculateCustomTizo fuel a st')).
Proof.
  intros Hs Hs' Hl.
  rewrite (calculateCustomTizo_value fuel a st elements Hs).
  rewrite (calculateCustomTizo_value fuel a st' elements' Hs').
  destruct (0 <? remaining (base_step a)); [|simpl; lia].
  pose proof (for_of_more_credit fuel _ _ (base_step a) (base_step a)
                (validOffers_of_more_credit _ _ Hl) eq_refl ltac:(lia)) as H.
  destruct (for_of fuel (validOffers_of elements) (base_step a)) as [t|],
           (for_of fuel (validOffers_of elements') (base_step a)) as [t'|];
    try contradiction; simpl; [|exact I].
  destruct H as [Hr Ht]. unfold residual_step. rewrite Hr.
  destruct (0 <? remaining t); lia.
Qed.

Lemma more_credit_in_cache_example :
  let richer := [offer_40; {| topup_rb := 550; tizo_value := 1100 |}] in
  Forall2 more_credit [offer_40; offer_550] richer /\
  at_least
    (returned_value
       (calculateCustomTizo 1 1790 (state_with_cache [offer_40; offer_550])))
    (returned_value (calculateCustomTizo 1 1790 (state_with_cache richer))).
Proof.
  intros richer.
  assert (H : Forall2 more_credit [offer_40; offer_550] richer).
  { repeat constructor; simpl; lia. }
  split; [exact H|].
  exact (more_credit_in_cache 1 1790
           (state_with_cache [offer_40; offer_550]) (state_with_cache richer)
           [offer_40; offer_550] richer eq_refl eq_refl H).
Defined.

(** ** JavaScript numbers: where the rounding does nothing *)

Lemma round_to_double_exact (x : Z) :
  - 2 ^ 53 <= x <= 2 ^ 53 -> Number.round_to_double x = x.
Proof.
  intros H. unfold Number.round_to_double.
  destruct (Z.leb_spec (Z.abs x) (2 ^ 53)); [reflexivity | lia].
Qed.

(** The scaled quotient of [quotient_to_double] has a mantissa of at least
    53 bits. *)
Lemma scaled_normal (n d : Z) :
  0 < n -> 0 < d ->
  let e0 := Z.log2 n - Z.log2 d - 53 in
  2 ^ 52 * snd (Number.scaled n d e0) <= fst (Number.scaled n d e0).
Proof.
  intros Hn Hd e0.
  pose proof (Z.log2_spec n Hn) as [Hn1 Hn2].
  pose proof (Z.log2_spec d Hd) as [Hd1 Hd2].
  pose proof (Z.log2_nonneg n) as Hln. pose proof (Z.log2_nonneg d) as Hld.
  unfold Number.scaled. destruct (Z.leb_spec 0 e0) as [He|He]; cbn [fst snd].
  - assert (E : 2 ^ Z.log2 n = 2 ^ 52 * (2 ^ Z.succ (Z.log2 d) * 2 ^ e0)).
    { rewrite <- !Z.pow_add_r by lia. f_equal. lia. }
    assert (0 < 2 ^ e0) by (apply Z.pow_pos_nonneg; lia). nia.
  - assert (E : 2 ^ Z.log2 n * 2 ^ (- e0) = 2 ^ 52 * 2 ^ Z.succ (Z.log2 d)).
    { rewrite <- !Z.pow_add_r by lia. f_equal. lia. }
    assert (0 < 2 ^ (- e0)) by (apply Z.pow_pos_nonneg; lia). nia.
Qed.

Lemma quotient_normal (n d : Z) :
  0 < n -> 0 < d ->
  let e := snd (Number.quotient_to_double n d) in
  2 ^ 52 * snd (Number.scaled n d e) <= fst (Number.scaled n d e).
Proof.
  intros Hn Hd. pose proof (scaled_normal n d Hn Hd) as H0.
  unfold Number.quotient_to_double. cbn zeta in H0 |- *. cbn [snd].
  remember (Z.log2 n - Z.log2 d - 53) as e0 eqn:Ee0. clear Ee0.
  destruct (Z.leb_spec (2 ^ 53)
              (fst (Number.scaled n d e0) / snd (Number.scaled n d e0)))
    as [Hbig|Hsmall]; [|exact H0].
  assert (Hpos : 0 < snd (Number.scaled n d e0)).
  { unfold Number.scaled. destruct (Z.leb_spec 0 e0); cbn [snd]; [|exact Hd].
    apply Z.mul_pos_pos; [exact Hd|]. apply Z.pow_pos_nonneg; lia. }
  assert (Hge : 2 ^ 53 * snd (Number.scaled n d e0) <= fst (Number.scaled n d e0)).
  { pose proof (Z.mul_div_le (fst (Number.scaled n d e0))
                  (snd (Number.scaled n d e0)) Hpos). nia. }
  clear Hbig H0. unfold Number.scaled in *.
  destruct (Z.leb_spec 0 e0) as [He|He]; cbn [fst snd] in *.
  - destruct (Z.leb_spec 0 (e0 + 1)); [|lia]. cbn [fst snd].
    rewrite Z.pow_add_r by lia. change (2 ^ 1) with 2. change (2 ^ 53) with (2 * 2 ^ 52) in Hge.
    lia.
  - destruct (Z.leb_spec 0 (e0 + 1)) as [He1|He1]; cbn [fst snd].
    + replace (e0 + 1) with 0 by lia. change (2 ^ 0) with 1.
      replace (- e0) with 1 in Hge by lia. change (2 ^ 1) with 2 in Hge.
      change (2 ^ 53) with (2 * 2 ^ 52) in Hge. lia.
    + replace (- e0) with (- (e0 + 1) + 1) in Hge by lia.
      rewrite Z.pow_add_r in Hge by lia. change (2 ^ 1) with 2 in Hge.
      change (2 ^ 53) with (2 * 2 ^ 52) in Hge. lia.
Qed.

Lemma mantissa_cases (Q R D : Z) :
  let m := if 2 * R <? D then Q
           else if D <? 2 * R then Q + 1
           else if Z.even Q then Q else Q + 1 in
  (m = Q /\ 2 * R <= D) \/ (m = Q + 1 /\ D <= 2 * R).
Proof.
  cbn zeta. destruct (Z.ltb_spec (2 * R) D); [left; lia|].
  destruct (Z.ltb_spec D (2 * R)); [right; lia|].
  destruct (Z.even Q); [left | right]; lia.
Qed.

(** For [n] below 2^53 the quotient has a negative exponent: it is a
    mantissa over a power of two [P] with [d < 2 P], and the mantissa is
    [n P / d] rounded to the nearest integer. *)
Lemma quotient_shape (n d : Z) :
  0 < n < 2 ^ 53 -> 2 <= d ->
  exists P m,
    0 < P /\ d < 2 * P /\
    Number.floor_of (Number.quotient_to_double n d) = m / P /\
    Number.ceil_of (Number.quotient_to_double n d) = - (- m / P) /\
    ((m = n * P / d /\ 2 * ((n * P) mod d) <= d) \/
     (m = n * P / d + 1 /\ d <= 2 * ((n * P) mod d))).
Proof.
  intros Hn Hd.
  pose proof (quotient_normal n d ltac:(lia) ltac:(lia)) as Hnorm.
  cbn zeta in Hnorm. unfold Number.quotient_to_double in *. cbn zeta in *.
  cbn [snd] in Hnorm.
  remember (if 2 ^ 53 <=?
               fst (Number.scaled n d (Z.log2 n - Z.log2 d - 53)) /
               snd (Number.scaled n d (Z.log2 n - Z.log2 d - 53))
            then Z.log2 n - Z.log2 d - 53 + 1
            else Z.log2 n - Z.log2 d - 53) as e eqn:Ee. clear Ee.
  unfold Number.scaled in *.
  destruct (Z.leb_spec 0 e) as [He|He]; cbn [fst snd] in *.
  - exfalso. assert (0 < 2 ^ e) by (apply Z.pow_pos_nonneg; lia). nia.
  - exists (2 ^ (- e)).
    assert (HP : 0 < 2 ^ (- e)) by (apply Z.pow_pos_nonneg; lia).
    remember (2 ^ (- e)) as P eqn:EP.
    eexists. split; [exact HP|]. split; [nia|].
    unfold Number.floor_of, Number.ceil_of.
    destruct (Z.leb_spec 0 e); [lia|]. rewrite <- EP.
    split; [reflexivity|]. split; [reflexivity|].
    apply mantissa_cases.
Qed.

Lemma Math_floor_div_exact (n : Z) :
  0 <= n < 2 ^ 53 -> Number.Math_floor_div n 600 = n / 600.
Proof.
  intros Hn. unfold Number.Math_floor_div.
  destruct (Z.eqb_spec n 0) as [->|Hn0]; [reflexivity|].
  destruct (Z.ltb_spec 0 n); [|lia].
  destruct (quotient_shape n 600 ltac:(lia) ltac:(lia))
    as (P & m & HP & HdP & -> & _ & Hm).
  pose proof (Z.div_mod n 600 ltac:(lia)) as En.
  pose proof (Z.mod_pos_bound n 600 ltac:(lia)) as Hk.
  pose proof (Z.div_mod (n * P) 600 ltac:(lia)) as EN.
  pose proof (Z.mod_pos_bound (n * P) 600 ltac:(lia)) as HR.
  remember (n / 600) as q. remember (n mod 600) as k.
  remember (n * P / 600) as Q. remember ((n * P) mod 600) as R.
  symmetry. apply (Z.div_unique_pos m P q (m - P * q)); [|lia].
  destruct Hm as [[-> H2]|[-> H2]]; nia.
Qed.

Lemma Math_ceil_div_exact (n : Z) :
  0 <= n < 2 ^ 53 -> Number.Math_ceil_div n 50 = - (- n / 50).
Proof.
  intros Hn. unfold Number.Math_ceil_div.
  destruct (Z.eqb_spec n 0) as [->|Hn0]; [reflexivity|].
  destruct (Z.ltb_spec 0 n); [|lia].
  destruct (quotient_shape n 50 ltac:(lia) ltac:(lia))
    as (P & m & HP & HdP & _ & -> & Hm).
  pose proof (Z.div_mod (- n) 50 ltac:(lia)) as En.
  pose proof (Z.mod_pos_bound (- n) 50 ltac:(lia)) as Hk.
  pose proof (Z.div_mod (n * P) 50 ltac:(lia)) as EN.
  pose proof (Z.mod_pos_bound (n * P) 50 ltac:(lia)) as HR.
  remember (- n / 50) as c. remember ((- n) mod 50) as k.
  remember (n * P / 50) as Q. remember ((n * P) mod 50) as R.
  f_equal. symmetry.
  apply (Z.div_unique_pos (- m) P c (- m - P * c)); [|lia].
  destruct Hm as [[-> H2]|[-> H2]]; nia.
Qed.

Lemma number_base_step_exact (a : Z) :
  0 <= a <= 2 ^ 52 -> Number.base_step a = base_step a.
Proof.
  intros Ha. unfold Number.base_step, base_step.
  rewrite Math_floor_div_exact by (change (2 ^ 53) with (2 * 2 ^ 52); lia).
  pose proof (Z.div_mod a 600 ltac:(lia)) as E.
  pose proof (Z.mod_pos_bound a 600 ltac:(lia)) as Hm.
  assert (Hq : 0 <= a / 600) by (apply Z.div_pos; lia).
  change (2 ^ 52) with 4503599627370496 in Ha.
  rewrite (round_to_double_exact (a / 600 * 1200))
    by (change (2 ^ 53) with 9007199254740992; lia).
  rewrite round_to_double_exact
    by (change (2 ^ 53) with 9007199254740992; lia).
  reflexivity.
Qed.

Lemma number_residual_step_exact (s : locals) :
  - 2 ^ 53 <= totalTizo s + remaining s <= 2 ^ 53 ->
  Number.residual_step s = residual_step s.
Proof.
  intros H. unfold Number.residual_step, residual_step.
  rewrite round_to_double_exact by exact H. reflexivity.
Qed.

Lemma number_while_body_exact (o : offer) (s : locals) :
  offer_in_range o -> within_range s -> while_test o s = true ->
  Number.while_body o s = while_body o s /\ within_range (while_body o s).
Proof.
  intros [Hu Hc] [Hr Hb] Ht. unfold while_test in Ht. apply Z.leb_le in Ht.
  change (2 ^ 40) with 1099511627776 in *.
  change (2 ^ 53) with 9007199254740992 in *.
  unfold Number.while_body, while_body, within_range. cbn [totalTizo remaining].
  change (2 ^ 40) with 1099511627776.
  change (2 ^ 53) with 9007199254740992.
  rewrite !round_to_double_exact
    by (change (2 ^ 53) with 9007199254740992; lia).
  split; [reflexivity | lia].
Qed.

Lemma number_while_loop_eq (fuel : nat) (o : offer) (s : locals) :
  Number.while_loop fuel o s =
  if while_test o s
  then match fuel with
       | O => None
       | S fuel' => Number.while_loop fuel' o (Number.while_body o s)
       end
  else Some s.
Proof. destruct fuel; reflexivity. Qed.

Lemma number_while_loop_exact (fuel : nat) (o : offer) (s : locals) :
  offer_in_range o -> within_range s ->
  Number.while_loop fuel o s = while_loop fuel o s /\
  forall s', while_loop fuel o s = Some s' -> within_range s'.
Proof.
  intros Ho. revert s. induction fuel as [|fuel IH]; intros s Hs;
    rewrite while_loop_eq, number_while_loop_eq;
    destruct (while_test o s) eqn:Ht;
    try (split; [reflexivity | intros s' [= <-]; exact Hs]);
    try (split; [reflexivity | discriminate]).
  destruct (number_while_body_exact o s Ho Hs Ht) as [E Hs1].
  rewrite E. apply IH. exact Hs1.
Qed.

Lemma number_for_of_exact (fuel : nat) (l : list offer) (s : locals) :
  Forall offer_in_range l -> within_range s ->
  Number.for_of fuel l s = for_of fuel l s /\
  forall s', for_of fuel l s = Some s' -> within_range s'.
Proof.
  intros Hl. revert s. induction Hl as [|o l Ho Hl IH]; intros s Hs; simpl.
  - split; [reflexivity | intros s' [= <-]; exact Hs].
  - destruct (number_while_loop_exact fuel o s Ho Hs) as [E Hs1].
    rewrite E. destruct (while_loop fuel o s) as [s1|].
    + apply IH. apply Hs1. reflexivity.
    + split; [reflexivity | discriminate].
Qed.

Lemma within_range_sum (s : locals) :
  within_range s -> - 2 ^ 53 <= totalTizo s + remaining s <= 2 ^ 53.
Proof.
  intros [Hr Hb]. change (2 ^ 40) with 1099511627776 in *. lia.
Qed.

Lemma base_step_within_range (a : Z) :
  0 <= a <= 2 ^ 51 -> within_range (base_step a).
Proof.
  intros Ha. rewrite base_step_nonneg by lia. unfold within_range. simpl.
  pose proof (Z.div_mod a 600 ltac:(lia)) as E.
  pose proof (Z.mod_pos_bound a 600 ltac:(lia)) as Hm.
  assert (Hq : 0 <= a / 600) by (apply Z.div_pos; lia).
  change (2 ^ 40) with 1099511627776.
  change (2 ^ 53) with 9007199254740992.
  change (2 ^ 51) with 2251799813685248 in Ha. lia.
Qed.

(** ** The converter on JavaScript numbers, by the case it runs into *)

Lemma number_nothing_left (fuel : nat) (a : Z) (st : state) :
  remaining (Number.base_step a) <= 0 ->
  Number.calculateCustomTizo fuel a st =
  Returned (Number.residual_step (Number.base_step a)) st.
Proof.
  intros H. unfold Number.calculateCustomTizo, bind.
  destruct (Z.ltb_spec 0 (remaining (Number.base_step a)));
    [lia | reflexivity].
Qed.

Lemma number_null (fuel : nat) (a : Z) (st : state) :
  upsellOffersCache st = None ->
  Number.calculateCustomTizo fuel a st =
  Returned (Number.residual_step (Number.base_step a)) st.
Proof.
  intros H. unfold Number.calculateCustomTizo, bind, read_upsellOffersCache.
  destruct (0 <? remaining (Number.base_step a)); [rewrite H|]; reflexivity.
Qed.

Lemma number_empty (fuel : nat) (a : Z) (st : state) :
  snapshot st = Some [] ->
  Number.calculateCustomTizo fuel a st =
  Returned (Number.residual_step (Number.base_step a)) st.
Proof.
  unfold snapshot.
  destruct (upsellOffersCache st) as [ref|] eqn:Hc; [|discriminate].
  intros H.
  unfold Number.calculateCustomTizo, bind, read_upsellOffersCache, array_read.
  destruct (0 <? remaining (Number.base_step a)); [rewrite Hc, H|];
    reflexivity.
Qed.

Lemma number_greedy (fuel : nat) (a : Z) (st : state)
    (elements : list offer) :
  snapshot st = Some elements -> elements <> [] ->
  0 < remaining (Number.base_step a) ->
  Number.calculateCustomTizo fuel a st =
  match Number.for_of fuel (validOffers_of elements) (Number.base_step a) with
  | Some s => Returned (Number.residual_step s) (after_greedy_pass st elements)
  | None => Diverged
  end.
Proof.
  unfold snapshot.
  destruct (upsellOffersCache st) as [ref|] eqn:Hc; [|discriminate].
  intros H Hne Hrem.
  unfold Number.calculateCustomTizo, bind, read_upsellOffersCache.
  destruct (Z.ltb_spec 0 (remaining (Number.base_step a))) as [_|]; [|lia].
  rewrite Hc. unfold array_read at 1. rewrite H.
  destruct elements as [|e elements]; [congruence|].
  change (0 <? length (e :: elements))%nat with true. cbv iota.
  unfold array_filter, array_sort, bind, array_read, array_new, array_write, ret.
  rewrite H. cbn [heap].
  rewrite list_lookup_middle by reflexivity.
  cbn [heap].
  replace (<[length (heap st) := sorted_by by_topup_rb_desc
              (List.filter (fun o => topup_rb o <? 600) (e :: elements))]>
           (heap st ++ [List.filter (fun o => topup_rb o <? 600) (e :: elements)]))
    with (heap st ++ [validOffers_of (e :: elements)]).
  2:{ symmetry. rewrite <- (Nat.add_0_r (length (heap st))).
      rewrite insert_app_r. reflexivity. }
  rewrite list_lookup_middle by reflexivity.
  unfold run_loop, after_greedy_pass. cbn [upsellOffersCache console].
  destruct (Number.for_of fuel (validOffers_of (e :: elements))
              (Number.base_step a)); reflexivity.
Qed.

Lemma cache_in_range_offers (st : state) (elements : list offer) :
  cache_in_range st -> snapshot st = Some elements ->
  Forall offer_in_range (validOffers_of elements).
Proof.
  intros Hc Hs. apply validOffers_of_Forall. exact (Hc elements Hs).
Qed.

(** Within the range, the rounding does nothing: on a well-formed state
    whose cached offers take positive amounts and award at most 2^40 in size,
    and for an amount from 0 to 2^51, the converter on numbers ends exactly
    as the converter on integers. *)
Lemma calculateCustomTizo_exact (fuel : nat) (a : Z) (st : state) :
  wf_state st -> cache_in_range st -> 0 <= a <= 2 ^ 51 ->
  Number.calculateCustomTizo fuel a st = calculateCustomTizo fuel a st.
Proof.
  intros Hwf Hc Ha.
  assert (Ha52 : 0 <= a <= 2 ^ 52)
    by (change (2 ^ 52) with (2 * 2 ^ 51); lia).
  pose proof (number_base_step_exact a Ha52) as Eb.
  pose proof (base_step_within_range a Ha) as Hb.
  pose proof (number_residual_step_exact (base_step a)
                (within_range_sum _ Hb)) as Er.
  destruct (Z.lt_ge_cases 0 (remaining (base_step a))) as [Hrem|Hrem].
  2:{ rewrite number_nothing_left by (rewrite Eb; exact Hrem).
      rewrite calculateCustomTizo_nothing_left by exact Hrem.
      rewrite Eb, Er. reflexivity. }
  destruct (upsellOffersCache st) as [ref|] eqn:Hcache.
  2:{ rewrite number_null, calculateCustomTizo_null by exact Hcache.
      rewrite Eb, Er. reflexivity. }
  destruct (Hwf ref Hcache) as [elements He].
  assert (Hs : snapshot st = Some elements)
    by (unfold snapshot; rewrite Hcache; exact He).
  destruct elements as [|e elements].
  { rewrite number_empty, calculateCustomTizo_empty by exact Hs.
    rewrite Eb, Er. reflexivity. }
  rewrite (number_greedy fuel a st (e :: elements) Hs)
    by (try discriminate; rewrite Eb; exact Hrem).
  rewrite (calculateCustomTizo_greedy fuel a st (e :: elements) Hs)
    by (discriminate || exact Hrem).
  rewrite Eb.
  destruct (number_for_of_exact fuel (validOffers_of (e :: elements))
              (base_step a) (cache_in_range_offers st _ Hc Hs) Hb) as [E Hs'].
  rewrite E.
  destruct (for_of fuel (validOffers_of (e :: elements)) (base_step a))
    as [s'|]; [|reflexivity].
  rewrite (number_residual_step_exact s')
    by (apply within_range_sum, Hs'; reflexivity).
  reflexivity.
Qed.

(** When no offer applies, the range is that of the result: amounts from 0
    to 2^52. *)
Lemma number_no_offer_value (a : Z) :
  0 <= a <= 2 ^ 52 ->
  Number.residual_step (Number.base_step a) = a / 600 * 1200 + a mod 600.
Proof.
  intros Ha. rewrite number_base_step_exact by exact Ha.
  rewrite number_residual_step_exact.
  - apply residual_base_step. lia.
  - rewrite base_step_nonneg by lia. simpl.
    pose proof (Z.div_mod a 600 ltac:(lia)) as E.
    pose proof (Z.mod_pos_bound a 600 ltac:(lia)) as Hm.
    assert (Hq : 0 <= a / 600) by (apply Z.div_pos; lia).
    change (2 ^ 52) with 4503599627370496 in Ha.
    change (2 ^ 53) with 9007199254740992. lia.
Qed.

Lemma number_while_loop_skips (fuel : nat) (o : offer) (s : locals) :
  remaining s < topup_rb o -> Number.while_loop fuel o s = Some s.
Proof.
  intros H. rewrite number_while_loop_eq. unfold while_test.
  destruct (Z.leb_spec (topup_rb o) (remaining s)); [lia | reflexivity].
Qed.

Lemma number_for_of_skips (fuel : nat) (l : list offer) (s : locals) :
  Forall (fun o => remaining s < topup_rb o) l ->
  Number.for_of fuel l s = Some s.
Proof.
  induction 1 as [|o l Ho Hl IH]; simpl; [reflexivity|].
  rewrite number_while_loop_skips by exact Ho. exact IH.
Qed.

Lemma snapshot_wf (st : state) (elements : list offer) :
  snapshot st = Some elements -> wf_state st.
Proof.
  unfold snapshot. intros H ref Hc. rewrite Hc in H. exists elements. exact H.
Qed.

Lemma calculateCustomTizo_exact_snapshot (fuel : nat) (a : Z) (st : state)
    (elements : list offer) :
  snapshot st = Some elements -> Forall offer_in_range elements ->
  0 <= a <= 2 ^ 51 ->
  Number.calculateCustomTizo fuel a st = calculateCustomTizo fuel a st.
Proof.
  intros Hs Hl Ha. apply calculateCustomTizo_exact; [|  |exact Ha].
  - exact (snapshot_wf st elements Hs).
  - intros elements' Hs'. rewrite Hs in Hs'. injection Hs' as <-. exact Hl.
Qed.

Lemma offers_in_range_positive (elements : list offer) :
  Forall offer_in_range elements -> positive_units elements.
Proof.
  intros H. eapply List.Forall_impl; [|exact H]. intros o [Ho _]. exact Ho.
Qed.

(** ** The empty cache, on JavaScript numbers *)




(** ** More on the converter, on JavaScript numbers *)

(** X1: 600 Rb more is 1200 Tizo more, within the range of exact results:
    for non-negative [a] and [k] with [a + 600 k] at most 2^51, and cached
    offers with positive units and credits of at most 2^40 in size, the call
    for [a + 600 k] ends as the call for [a] does, with [1200 k] more
    credit. *)
Theorem base_tier_periodic_on_numbers (fuel : nat) (a k : Z) (st : state) :
  wf_state st -> cache_in_range st ->
  0 <= a -> 0 <= k -> a + 600 * k <= 2 ^ 51 ->
  returned_value (Number.calculateCustomTizo fuel (a + 600 * k) st) =
  option_map (fun v => v + 1200 * k)
    (returned_value (Number.calculateCustomTizo fuel a st)).
Proof.
  intros Hwf Hc Ha Hk Hb.
  rewrite !calculateCustomTizo_exact by (assumption || lia).
  apply base_tier_periodic; assumption.
Qed.

Lemma base_tier_periodic_on_numbers_example :
  let st := state_with_cache [offer_40; offer_550] in
  wf_state st /\ cache_in_range st /\
  returned_value (Number.calculateCustomTizo 1 (590 + 600 * 2) st) =
  Some (1060 + 1200 * 2).
Proof.
  intros st.
  assert (Hwf : wf_state st) by apply wf_state_with_cache.
  assert (Hc : cache_in_range st).
  { intros elements [= <-].
    repeat constructor; simpl; change (2 ^ 40) with 1099511627776; lia. }
  split; [exact Hwf|]. split; [exact Hc|].
  exact (base_tier_periodic_on_numbers 1 590 2 st Hwf Hc
           ltac:(lia) ltac:(lia)
           ltac:(change (2 ^ 51) with 2251799813685248; lia)).
Defined.

(** X2: when every cached offer takes more than what is left after the base
    tier, nothing of the cache applies: for [a] from 0 to 2^52 the credit is
    [floor(a/600) * 1200 + a mod 600]. *)
Theorem amount_below_every_unit_on_numbers (fuel : nat) (a : Z) (st : state)
    (elements : list offer) :
  0 <= a <= 2 ^ 52 -> snapshot st = Some elements ->
  Forall (fun o => a mod 600 < topup_rb o) elements ->
  Number.calculateCustomTizo fuel a st =
  Returned (a / 600 * 1200 + a mod 600)
    (if (0 <? a mod 600) && (0 <? length elements)%nat
     then after_greedy_pass st elements else st).
Proof.
  intros Ha Hs Hall.
  pose proof (number_base_step_exact a Ha) as Eb.
  assert (Hrem : remaining (base_step a) = a mod 600)
    by (rewrite base_step_nonneg by lia; reflexivity).
  rewrite <- number_no_offer_value by exact Ha.
  destruct (Z.ltb_spec 0 (a mod 600)) as [Hlt|Hge]; cbn [andb].
  2:{ apply number_nothing_left. rewrite Eb, Hrem. exact Hge. }
  destruct elements as [|e elements]; cbn [length Nat.ltb Nat.leb].
  { apply number_empty. exact Hs. }
  rewrite (number_greedy fuel a st (e :: elements) Hs)
    by (try discriminate; rewrite Eb, Hrem; exact Hlt).
  rewrite number_for_of_skips; [reflexivity|].
  apply validOffers_of_Forall. rewrite Eb, Hrem. exact Hall.
Qed.

Lemma amount_below_every_unit_on_numbers_example :
  0 <= 650 <= 2 ^ 52 /\
  returned_value
    (Number.calculateCustomTizo 0 650
       (state_with_cache [{| topup_rb := 100; tizo_value := 130 |}; offer_550]))
  = Some 1250.
Proof.
  assert (Ha : 0 <= 650 <= 2 ^ 52)
    by (change (2 ^ 52) with 4503599627370496; lia).
  split; [exact Ha|].
  rewrite (amount_below_every_unit_on_numbers 0 650
             (state_with_cache
                [{| topup_rb := 100; tizo_value := 130 |}; offer_550])
             [{| topup_rb := 100; tizo_value := 130 |}; offer_550] Ha eq_refl).
  - reflexivity.
  - repeat constructor; simpl; lia.
Defined.

(** X3: within the range (amount from 0 to 2^51, positive units, credits of
    at most 2^40 in size), an amount whose rest after the base tier is a
    unit of the cache gets the Tizo listed for that unit, from the first row
    of the cache with it: [floor(a/600) * 1200 + tizo_value]. *)
Theorem cached_unit_on_numbers (fuel : nat) (a : Z) (st : state)
    (elements : list offer) (o : offer) :
  (1 <= fuel)%nat -> 0 <= a <= 2 ^ 51 ->
  snapshot st = Some elements -> Forall offer_in_range elements ->
  List.find (fun o => topup_rb o =? a mod 600) elements = Some o ->
  returned_value (Number.calculateCustomTizo fuel a st) =
  Some (a / 600 * 1200 + tizo_value o).
Proof.
  intros Hfuel Ha Hs Hl Hfind.
  rewrite (calculateCustomTizo_exact_snapshot fuel a st elements Hs Hl Ha).
  apply (cached_unit_gets_listed_credit fuel a st elements o);
    try assumption; try lia.
  apply offers_in_range_positive. exact Hl.
Qed.

Lemma cached_unit_on_numbers_example :
  (1 <= 1)%nat /\ 0 <= 1150 <= 2 ^ 51 /\
  Forall offer_in_range [offer_40; offer_550] /\
  returned_value
    (Number.calculateCustomTizo 1 1150 (state_with_cache [offer_40; offer_550]))
  = Some (1200 + 1020).
Proof.
  assert (Hf : (1 <= 1)%nat) by lia.
  assert (Ha : 0 <= 1150 <= 2 ^ 51)
    by (change (2 ^ 51) with 2251799813685248; lia).
  assert (Hl : Forall offer_in_range [offer_40; offer_550]).
  { repeat constructor; simpl; change (2 ^ 40) with 1099511627776; lia. }
  split; [exact Hf|]. split; [exact Ha|]. split; [exact Hl|].
  exact (cached_unit_on_numbers 1 1150
           (state_with_cache [offer_40; offer_550])
           [offer_40; offer_550] offer_550 Hf Ha eq_refl Hl eq_refl).
Defined.

(** X4: within the range (amount from 0 to 2^51, positive units, credits of
    at most 2^40 in size), the call returns and accounts for the amount in
    full: [a = 600 q + (units taken by the applied offers) + r] gives
    [1200 q + (their Tizo) + r], where [q = floor(a/600)] and the rest [r],
    counted 1:1, is below the unit of every cached offer under 600. *)
Theorem greedy_pass_accounts_on_numbers (fuel : nat) (a : Z) (st : state)
    (elements : list offer) :
  (600 <= fuel)%nat -> 0 <= a <= 2 ^ 51 ->
  snapshot st = Some elements -> Forall offer_in_range elements ->
  exists v ks r,
    returned_value (Number.calculateCustomTizo fuel a st) = Some v /\
    length ks = length (validOffers_of elements) /\
    Forall (fun k => 0 <= k) ks /\
    0 <= r /\
    Forall (fun o => topup_rb o < 600 -> r < topup_rb o) elements /\
    a = 600 * (a / 600) + units_taken ks (validOffers_of elements) + r /\
    v = 1200 * (a / 600) + credit_given ks (validOffers_of elements) + r.
Proof.
  intros Hfuel Ha Hs Hl.
  rewrite (calculateCustomTizo_exact_snapshot fuel a st elements Hs Hl Ha).
  apply greedy_pass_accounts; try assumption; try lia.
  apply offers_in_range_positive. exact Hl.
Qed.

Lemma greedy_pass_accounts_on_numbers_example :
  (600 <= 600)%nat /\ 0 <= 1790 <= 2 ^ 51 /\
  Forall offer_in_range [offer_40; offer_550] /\
  exists v ks r,
    returned_value
      (Number.calculateCustomTizo 600 1790
         (state_with_cache [offer_40; offer_550])) = Some v /\
    1790 = 600 * (1790 / 600) +
           units_taken ks (validOffers_of [offer_40; offer_550]) + r /\
    v = 1200 * (1790 / 600) +
        credit_given ks (validOffers_of [offer_40; offer_550]) + r.
Proof.
  assert (Hf : (600 <= 600)%nat) by lia.
  assert (Ha : 0 <= 1790 <= 2 ^ 51)
    by (change (2 ^ 51) with 2251799813685248; lia).
  assert (Hl : Forall offer_in_range [offer_40; offer_550]).
  { repeat constructor; simpl; change (2 ^ 40) with 1099511627776; lia. }
  split; [exact Hf|]. split; [exact Ha|]. split; [exact Hl|].
  destruct (greedy_pass_accounts_on_numbers 600 1790
              (state_with_cache [offer_40; offer_550])
              [offer_40; offer_550] Hf Ha eq_refl Hl)
    as (v & ks & r & Hv & _ & _ & _ & _ & Hamount & Hcredit).
  exists v, ks, r. split; [exact Hv|]. split; assumption.
Defined.

(** X7: when the database cannot be reached at start-up, the server still
    converts: the cache stays [null] and an amount [a] from 0 to 2^52 gives
    [floor(a/600) * 1200 + a mod 600], with no offer of the table applied. *)
Theorem startup_without_database_on_numbers (fuel : nat) (a : Z)
    (message : string) :
  0 <= a <= 2 ^ 52 ->
  (_ <- loadUpsellOffersCache (rejects message) ;;
   Number.calculateCustomTizo fuel a) initial_state =
  Returned (a / 600 * 1200 + a mod 600)
    (after_failed_load initial_state message).
Proof.
  intros Ha. unfold bind at 1.
  rewrite loadUpsellOffersCache_rejected.
  rewrite number_null by reflexivity.
  rewrite number_no_offer_value by exact Ha. reflexivity.
Qed.

Lemma startup_without_database_on_numbers_example :
  0 <= 1790 <= 2 ^ 52 /\
  (_ <- loadUpsellOffersCache (rejects "connect ETIMEDOUT") ;;
   Number.calculateCustomTizo 0 1790) initial_state =
  Returned 2990 (after_failed_load initial_state "connect ETIMEDOUT").
Proof.
  assert (Ha : 0 <= 1790 <= 2 ^ 52)
    by (change (2 ^ 52) with 4503599627370496; lia).
  split; [exact Ha|].
  exact (startup_without_database_on_numbers 0 1790 "connect ETIMEDOUT" Ha).
Defined.

(** X15: within the range (amount from 0 to 2^51, positive units, credits
    of at most 2^40 in size), when no cached offer awards more than twice
    what it takes, no amount gets more than twice its value: a call that
    returns [v] has [v <= 2 a]. *)
Theorem credit_at_most_double_on_numbers (fuel : nat) (a v : Z) (st : state) :
  wf_state st -> cache_in_range st -> cache_at_most_double st ->
  0 <= a <= 2 ^ 51 ->
  returned_value (Number.calculateCustomTizo fuel a st) = Some v ->
  v <= 2 * a.
Proof.
  intros Hwf Hc Hd Ha.
  rewrite calculateCustomTizo_exact by assumption.
  apply credit_at_most_double; try assumption; lia.
Qed.

Lemma credit_at_most_double_on_numbers_example :
  let st := state_with_cache [offer_40; offer_550] in
  wf_state st /\ cache_in_range st /\ cache_at_most_double st /\
  0 <= 1790 <= 2 ^ 51 /\ 3460 <= 2 * 1790.
Proof.
  intros st.
  assert (Hwf : wf_state st) by apply wf_state_with_cache.
  assert (Hc : cache_in_range st).
  { intros elements [= <-].
    repeat constructor; simpl; change (2 ^ 40) with 1099511627776; lia. }
  assert (Hd : cache_at_most_double st).
  { intros elements [= <-]. repeat constructor; simpl; lia. }
  assert (Ha : 0 <= 1790 <= 2 ^ 51)
    by (change (2 ^ 51) with 2251799813685248; lia).
  split; [exact Hwf|]. split; [exact Hc|]. split; [exact Hd|].
  split; [exact Ha|].
  apply (credit_at_most_double_on_numbers 1 1790 3460 st Hwf Hc Hd Ha).
  vm_compute. reflexivity.
Defined.

(** X18: within the range (amount from 0 to 2^51, positive units, credits
    of at most 2^40 in size), the call returns the credit of a repeated
    division: 1200 for each whole 600, then the cached offers below 600,
    the largest unit first, each as many times as it divides what is left,
    and the last rest 1:1. The offers divided by, [validOffers_of], are
    exactly the cached offers below 600, in descending order of their
    units. *)
Theorem converter_is_division_on_numbers (fuel : nat) (a : Z) (st : state)
    (elements : list offer) :
  (600 <= fuel)%nat -> 0 <= a <= 2 ^ 51 ->
  snapshot st = Some elements -> Forall offer_in_range elements ->
  Permutation (validOffers_of elements)
    (List.filter (fun o => topup_rb o <? 600) elements) /\
  StronglySorted (fun o o' => topup_rb o' <= topup_rb o)
    (validOffers_of elements) /\
  returned_value (Number.calculateCustomTizo fuel a st) =
  Some (a / 600 * 1200 + division_credit (validOffers_of elements) (a mod 600)).
Proof.
  intros Hfuel Ha Hs Hl.
  split; [|split].
  - apply sorted_by_Permutation.
  - apply sorted_by_descending.
  - rewrite (calculateCustomTizo_exact_snapshot fuel a st elements Hs Hl Ha).
    apply converter_is_division; try assumption; try lia.
    apply offers_in_range_positive. exact Hl.
Qed.

Lemma converter_is_division_on_numbers_example :
  (600 <= 600)%nat /\ 0 <= 1790 <= 2 ^ 51 /\
  Forall offer_in_range [offer_40; offer_550] /\
  StronglySorted (fun o o' => topup_rb o' <= topup_rb o)
    (validOffers_of [offer_40; offer_550]) /\
  returned_value
    (Number.calculateCustomTizo 600 1790
       (state_with_cache [offer_40; offer_550])) =
  Some (1790 / 600 * 1200 +
        division_credit (validOffers_of [offer_40; offer_550]) (1790 mod 600)).
Proof.
  assert (Hf : (600 <= 600)%nat) by lia.
  assert (Ha : 0 <= 1790 <= 2 ^ 51)
    by (change (2 ^ 51) with 2251799813685248; lia).
  assert (Hl : Forall offer_in_range [offer_40; offer_550]).
  { repeat constructor; simpl; change (2 ^ 40) with 1099511627776; lia. }
  split; [exact Hf|]. split; [exact Ha|]. split; [exact Hl|].
  destruct (converter_is_division_on_numbers 600 1790
              (state_with_cache [offer_40; offer_550])
              [offer_40; offer_550] Hf Ha eq_refl Hl)
    as (_ & Hsorted & Hv).
  split; [exact Hsorted | exact Hv].
Defined.

(** ** The fallback of the upsell endpoint on numbers *)

Lemma number_ceil_to_50_exact (a : Z) :
  0 <= a <= 2 ^ 51 -> Number.ceil_to_50 a = ceil_to_50 a.
Proof.
  intros Ha. change (2 ^ 51) with 2251799813685248 in Ha.
  destruct (ceil_to_50_spec a) as [_ Hb].
  unfold Number.ceil_to_50.
  rewrite Math_ceil_div_exact
    by (change (2 ^ 53) with 9007199254740992; lia).
  fold (ceil_to_50 a).
  apply round_to_double_exact. change (2 ^ 53) with 9007199254740992. lia.
Qed.

(** Within the range the handler on numbers answers as the handler on
    integers. *)
Lemma custom_topup_upsell_fallback_exact (fuel : nat) (amountRb : Z)
    (st : state) :
  wf_state st -> cache_in_range st -> 0 <= amountRb <= 2 ^ 51 - 100 ->
  Number.custom_topup_upsell_then fuel amountRb [] st =
  custom_topup_upsell_then fuel amountRb [] st.
Proof.
  intros Hwf Hc Ha.
  destruct (ceil_to_50_spec amountRb) as [_ Hb].
  assert (Hc1 : Number.ceil_to_50 amountRb = ceil_to_50 amountRb)
    by (apply number_ceil_to_50_exact; lia).
  assert (Hc2 : Number.round_to_double (ceil_to_50 amountRb + 50) =
                ceil_to_50 amountRb + 50).
  { apply round_to_double_exact.
    change (2 ^ 51) with 2251799813685248 in Ha.
    change (2 ^ 53) with 9007199254740992. lia. }
  unfold Number.custom_topup_upsell_then, custom_topup_upsell_then, bind.
  rewrite Hc1, Hc2.
  rewrite calculateCustomTizo_exact by (try assumption; lia).
  destruct (calculateCustomTizo fuel amountRb st) as [v0 st0| |] eqn:E0;
    try reflexivity.
  destruct (calculateCustomTizo_step _ _ _ _ _ Hwf E0) as (Hwf0 & Hs0 & _).
  assert (Hr0 : cache_in_range st0).
  { intros elements H. apply Hc. rewrite <- Hs0. exact H. }
  rewrite calculateCustomTizo_exact by (try assumption; lia).
  destruct (calculateCustomTizo fuel (ceil_to_50 amountRb) st0)
    as [v1 st1| |] eqn:E1; try reflexivity.
  destruct (calculateCustomTizo_step _ _ _ _ _ Hwf0 E1) as (Hwf1 & Hs1 & _).
  assert (Hr1 : cache_in_range st1).
  { intros elements H. apply Hr0. rewrite <- Hs1. exact H. }
  rewrite calculateCustomTizo_exact by (try assumption; lia).
  reflexivity.
Qed.

Lemma cache_in_range_positive (st : state) :
  cache_in_range st -> cache_positive st.
Proof.
  intros Hc elements Hs. apply offers_in_range_positive. exact (Hc elements Hs).
Qed.

(** X8: when no row of [custom_topup_upsell] covers the amount, and within
    the range (amount from 0 to 2^51 - 100, positive units, credits of at
    most 2^40 in size), the answer is sent with status 200 and suggests the
    smallest multiple of 50 that is not below the amount, and that plus 50.
    The first suggestion is the amount itself exactly when the amount is a
    multiple of 50. *)
Theorem fallback_boxes_on_numbers (fuel : nat) (amountRb : Z) (st : state) :
  wf_state st -> cache_in_range st -> (600 <= fuel)%nat ->
  0 <= amountRb <= 2 ^ 51 - 100 ->
  exists resp st',
    Number.custom_topup_upsell_then fuel amountRb [] st = Returned resp st' /\
    status resp = 200%nat /\
    customAmount (body resp) = amountRb /\
    isFallback (body resp) = Some true /\
    rb (upsellBox1 (body resp)) mod 50 = 0 /\
    amountRb <= rb (upsellBox1 (body resp)) < amountRb + 50 /\
    rb (upsellBox2 (body resp)) = rb (upsellBox1 (body resp)) + 50 /\
    (rb (upsellBox1 (body resp)) = amountRb <-> amountRb mod 50 = 0).
Proof.
  intros Hwf Hc Hfuel Ha.
  rewrite custom_topup_upsell_fallback_exact by assumption.
  apply fallback_boxes; try assumption; try lia.
  apply cache_in_range_positive. exact Hc.
Qed.

Lemma fallback_boxes_on_numbers_example :
  wf_state (state_with_cache [offer_40; offer_550]) /\
  cache_in_range (state_with_cache [offer_40; offer_550]) /\
  (600 <= 600)%nat /\ 0 <= 1790 <= 2 ^ 51 - 100 /\
  exists resp st',
    Number.custom_topup_upsell_then 600 1790 []
      (state_with_cache [offer_40; offer_550]) = Returned resp st' /\
    1790 <= rb (upsellBox1 (body resp)) < 1790 + 50.
Proof.
  assert (Hwf : wf_state (state_with_cache [offer_40; offer_550]))
    by apply wf_state_with_cache.
  assert (Hc : cache_in_range (state_with_cache [offer_40; offer_550])).
  { intros elements [= <-].
    repeat constructor; simpl; change (2 ^ 40) with 1099511627776; lia. }
  assert (Hf : (600 <= 600)%nat) by lia.
  assert (Ha : 0 <= 1790 <= 2 ^ 51 - 100)
    by (change (2 ^ 51) with 2251799813685248; lia).
  split; [exact Hwf|]. split; [exact Hc|]. split; [exact Hf|].
  split; [exact Ha|].
  destruct (fallback_boxes_on_numbers 600 1790 _ Hwf Hc Hf Ha)
    as (resp & st' & E & _ & _ & _ & _ & Hb & _).
  exists resp, st'. split; [exact E | exact Hb].
Defined.
